(** * SteganoGAN (models.py): payload codec and training orchestration

    A shallow embedding of [models.py].  Tensors are flattened to lists of
    rationals (the float32 rounding of the numeric backend is not modelled),
    values handed to Python by [.item()] are real numbers, Python exceptions
    are an error type, and the mutable objects of the source (the model, the
    metrics dict, the random generator, the metrics log file) are passed
    explicitly.  The pluggable networks, the numeric backend and the helper
    module [utils], none of which is part of [models.py], are interfaces
    (type classes) over which every statement is generic. *)

From Stdlib Require Import String Ascii Strings.Byte Bool Arith ZArith Lia.
From Stdlib Require Import QArith Qround Qabs Reals Lra Lqa Sorting.Sorted List.
Import ListNotations.

Close Scope R_scope.
Close Scope Q_scope.
Local Open Scope string_scope.
Local Open Scope list_scope.

(* ================================================================== *)
(** * Part I: the program *)
(* ================================================================== *)

(** ** Python values used by the source *)

Module Py.

(** The exceptions the modelled code can raise. *)
Inductive exn : Type :=
| ValueError (msg : string)
| RuntimeError (msg : string)
| KeyError (key : string)
| AttributeError (msg : string)
| IndexError
| ZeroDivisionError
| StopIteration.

Definition result (A : Type) : Type := (exn + A)%type.

Definition ret {A} (a : A) : result A := inr a.
Definition raise {A} (e : exn) : result A := inl e.
Definition bind {A B} (c : result A) (k : A -> result B) : result B :=
  match c with
  | inl e => inl e
  | inr a => k a
  end.

(** [l[:k]]: the first [k] items, counted from the end when [k] is negative. *)
Definition slice_to {A} (l : list A) (k : Z) : list A :=
  if (0 <=? k)%Z then firstn (Z.to_nat k) l
  else firstn (length l - Z.to_nat (- k)) l.

(** [l.startswith(sep)] on byte strings. *)
Fixpoint starts_with (sep l : list byte) : bool :=
  match sep, l with
  | [], _ => true
  | _ :: _, [] => false
  | s :: sep', b :: l' => Byte.eqb s b && starts_with sep' l'
  end.

(** [bytes.split(sep)]: cut at every occurrence of [sep], found left to
    right without overlap.  [skip] counts the bytes of a separator still to
    be passed over, [cur] is the fragment being read, most recent byte
    first. *)
Fixpoint split_from (sep : list byte) (skip : nat) (cur l : list byte)
  : list (list byte) :=
  match l with
  | [] => [rev cur]
  | b :: l' =>
      match skip with
      | S k => split_from sep k cur l'
      | O =>
          if starts_with sep l
          then rev cur :: split_from sep (length sep - 1) [] l'
          else split_from sep 0 (b :: cur) l'
      end
  end.

Definition split (l sep : list byte) : list (list byte) :=
  split_from sep 0 [] l.

(** [collections.Counter]: a dict from keys to counts; a dict iterates in
    the order its keys were first inserted. *)
Definition Counter : Type := list (string * nat).

(** [c[key] += 1] *)
Fixpoint incr (c : Counter) (key : string) : Counter :=
  match c with
  | [] => [(key, 1)]
  | (k, n) :: c' =>
      if String.eqb k key then (k, S n) :: c' else (k, n) :: incr c' key
  end.

(** [max(items, key=count)]: the running maximum is replaced only by a
    strictly larger item, so the first maximal item wins. *)
Definition max_by_count (first : string * nat) (rest : Counter) : string * nat :=
  fold_left (fun best item => if (snd best <? snd item)%nat then item else best)
            rest first.

(** [c.most_common(1)], which is [heapq.nlargest(1, c.items(), key=count)],
    itself [max] over the items when any. *)
Definition most_common_1 (c : Counter) : list (string * nat) :=
  match c with
  | [] => []
  | first :: rest => [max_by_count first rest]
  end.

(** Truthiness of what [bytearray_to_text] returns: a text, or a falsy
    value ([None] here) when the fragment cannot be decoded.  The empty
    text is falsy as well. *)
Definition truthy (candidate : option string) : bool :=
  match candidate with
  | Some s => negb (String.eqb s "")
  | None => false
  end.

End Py.

Notation "x <- c ;; k" := (Py.bind c (fun x => k))
  (at level 61, c at next level, right associativity).

(** ** Tensors *)

(** A tensor's storage, flattened; and a tensor with its shape. *)
Definition tensor : Type := list Q.

Record shaped : Type := mk_shaped { shape : list Z; data : tensor }.

Definition numel (dims : list Z) : Z := fold_right Z.mul 1%Z dims.

(** [t.view(dims)] for explicit non-negative [dims] (the inferred dimension
    [-1] is not used by the source): the storage is kept and must have
    exactly as many entries as the shape asks for. *)
Definition view (t : tensor) (dims : list Z) : Py.result shaped :=
  if forallb (fun d => (0 <=? d)%Z) dims && (numel dims =? Z.of_nat (length t))%Z
  then Py.ret (mk_shaped dims t)
  else Py.raise (Py.RuntimeError "shape is invalid for input size").

Definition Qlt_bool (x y : Q) : bool := negb (Qle_bool y x).

(** ** What the source imports *)

(** [utils.py] is imported by [models.py] but is not part of it: its
    functions are an interface here. *)
Class Utils : Type := {
  text_to_bits : string -> list Z;
  bits_to_bytearray : list bool -> list byte;
  bytearray_to_text : list byte -> option string
}.

(** The parameters of a network, or of an optimizer: a flat list. *)
Definition params : Type := list Q.

(** The numeric backend (tensor library, pretrained feature extractor, and
    the image similarity [ssim] of [utils]): what the source calls and this
    file does not define.  [random_] and [rand] draw from the random
    generator, whose state is passed along; [grad] is automatic
    differentiation of a scalar, given as a function of an optimizer's
    parameters, at their current value; [adam_step] is [Adam.step] on those
    parameters and gradients. *)
Class Backend : Type := {
  rng : Type;
  random_ : rng -> Z -> tensor -> tensor * rng;
  rand : rng -> Q * rng;
  permute_2_1_0 : tensor -> tensor;
  binary_cross_entropy_with_logits : tensor -> tensor -> Q;
  perceptual_loss_fc : tensor -> tensor;
  norm_mean : tensor -> Q;
  ssim : tensor -> tensor -> Q;
  grad : (params -> Q) -> params -> params;
  adam_state : Type;
  Adam : params -> adam_state;
  adam_step : adam_state -> params -> params -> adam_state * params
}.

(** The module [transforms], imported by [models.py]. *)
Class Transforms `{Backend} : Type := {
  rotate_left_90 : tensor -> tensor;
  add_gaussian_noise : rng -> tensor -> tensor * rng;
  color_filter : tensor -> Q -> Q * Q * Q -> tensor
}.

(** The pluggable embedder, recoverer and critic, each a function of its
    parameters and inputs. *)
Class Components : Type := {
  encoder : params -> tensor -> tensor -> tensor;
  decoder : params -> tensor -> tensor;
  critic : params -> tensor -> tensor
}.

(** ** Metrics, records and the log file *)

Definition METRIC_FIELDS : list string := [
  "val.encoder_mse";
  "val.decoder_loss_g";
  "val.decoder_loss_t";
  "val.decoder_acc_g";
  "val.decoder_acc_t";
  "val.cover_score";
  "val.generated_score";
  "val.ssim";
  "val.psnr";
  "val.bpp_g";
  "val.bpp_t";
  "val.perceptual_loss";
  "train.encoder_mse";
  "train.decoder_loss_t";
  "train.decoder_loss_g";
  "train.perceptual_loss";
  "train.decoder_acc_t";
  "train.decoder_acc_g";
  "train.cover_score";
  "train.generated_score"
].

(** A Python number: a float or an int. *)
Inductive number : Type :=
| Float (x : R)
| Int (n : Z).

(** [metrics]: a dict from metric name to the list of per-batch values;
    an epoch record: a dict from name to number.  Dicts keep insertion
    order. *)
Definition metrics_dict : Type := list (string * list R).
Definition record : Type := list (string * number).

(** The JSON documents the source writes: an array of objects whose members
    are numbers. *)
Inductive json_object : Type :=
| JObject (members : list (string * number)).

Inductive json : Type :=
| JArray (items : list json_object).

(** What [json.dump(history, f)] writes. *)
Definition json_dump (history : list record) : json :=
  JArray (map JObject history).

(** [metrics[key].append(v)] *)
Fixpoint append_metric (metrics : metrics_dict) (key : string) (v : R)
  : Py.result metrics_dict :=
  match metrics with
  | [] => Py.raise (Py.KeyError key)
  | (k, l) :: rest =>
      if String.eqb k key then Py.ret ((k, l ++ [v]) :: rest)
      else rest' <- append_metric rest key v ;; Py.ret ((k, l) :: rest')
  end.

(** The appends at the end of a loop body, in order. *)
Fixpoint append_all (metrics : metrics_dict) (entries : list (string * R))
  : Py.result metrics_dict :=
  match entries with
  | [] => Py.ret metrics
  | (k, v) :: entries' =>
      metrics' <- append_metric metrics k v ;; append_all metrics' entries'
  end.

(** [d[key]] and [d[key] = v] on a record. *)
Fixpoint getitem (d : record) (key : string) : Py.result number :=
  match d with
  | [] => Py.raise (Py.KeyError key)
  | (k, v) :: rest => if String.eqb k key then Py.ret v else getitem rest key
  end.

Fixpoint setitem (d : record) (key : string) (v : number) : record :=
  match d with
  | [] => [(key, v)]
  | (k, v') :: rest =>
      if String.eqb k key then (k, v) :: rest else (k, v') :: setitem rest key v
  end.

(** [sum(v) / len(v)] on a list of floats. *)
Definition py_sum (v : list R) : R := fold_left Rplus v 0%R.
Definition py_mean (v : list R) : Py.result R :=
  match v with
  | [] => Py.raise Py.ZeroDivisionError
  | _ :: _ => Py.ret (py_sum v / INR (length v))%R
  end.

(** [{k: sum(v) / len(v) for k, v in metrics.items()}] *)
Fixpoint reduce_metrics (metrics : metrics_dict) : Py.result record :=
  match metrics with
  | [] => Py.ret []
  | (k, v) :: rest =>
      mean <- py_mean v ;;
      rest' <- reduce_metrics rest ;;
      Py.ret ((k, Float mean) :: rest')
  end.

(** [os.path.join(a, b)] for a relative [b]. *)
Definition ends_with_slash (a : string) : bool :=
  match rev (list_ascii_of_string a) with
  | c :: _ => Ascii.eqb c "/"%char
  | [] => false
  end.
Definition path_join (a b : string) : string :=
  if String.eqb a "" then b
  else if ends_with_slash a then a ++ b
  else a ++ "/" ++ b.

(** [{field: list() for field in METRIC_FIELDS}] *)
Definition fresh_metrics : metrics_dict :=
  map (fun field => (field, [])) METRIC_FIELDS.

(** ** Tensor arithmetic *)

Definition item (x : Q) : R := Q2R x.

Definition tsum (t : tensor) : Q := fold_right Qplus 0%Q t.

(** [torch.mean].  Over no entries the backend gives NaN; a division by
    zero gives 0 here, and the statements that depend on it ask for
    entries. *)
Definition mean (t : tensor) : Q := (tsum t / inject_Z (Z.of_nat (length t)))%Q.

Fixpoint map2 (f : Q -> Q -> Q) (a b : tensor) : tensor :=
  match a, b with
  | x :: a', y :: b' => f x y :: map2 f a' b'
  | _, _ => []
  end.

Definition tsub (a b : tensor) : tensor := map2 Qminus a b.

(** [mse_loss(input, target)] *)
Definition mse_loss (input target : tensor) : Q :=
  mean (map2 (fun x y => (x - y) * (x - y))%Q input target).

(** [x.clamp_(lo, hi)] on one entry. *)
Definition clamp (lo hi x : Q) : Q :=
  if Qle_bool x lo then lo else if Qle_bool hi x then hi else x.

(** [x.long()]: conversion to an integer truncates toward zero. *)
Definition long (x : Q) : Z :=
  if Qle_bool 0 x then Qfloor x else Qceiling x.

(** The two lines under [if quantize:], on one entry, in exact arithmetic:
    the source evaluates [255.0 * (x + 1.0) / 2.0] in 32-bit floats, whose
    rounding can reach the next level from just below it. *)
Definition quantize_level (x : Q) : Z := long (255 * (x + 1) / 2)%Q.
Definition quantize_entry (x : Q) : Q :=
  (2 * inject_Z (quantize_level x) / 255 - 1)%Q.

Definition log10 (x : R) : R := (ln x / ln 10)%R.

Notation "' p <- c ;; k" :=
  (Py.bind c (fun x => match x with p => k end))
  (at level 61, p pattern, c at next level, right associativity).

(** ** class SteganoGAN *)

Section SteganoGAN.

Context {B : Backend} {T : Transforms} {C : Components} {U : Utils}.

(** The attributes of [self] the modelled methods read or write.  The
    networks are held through their parameters; [log_dir] is [None] when
    the constructor got none. *)
Record model : Type := mk_model {
  perceptual_loss : bool;
  data_depth : Z;
  encoder_params : params;
  decoder_params : params;
  critic_params : params;
  critic_optimizer : option adam_state;
  decoder_optimizer : option adam_state;
  epochs : Z;
  fit_metrics : option record;
  history : list record;
  log_dir : option string
}.

Definition set_critic (self : model) (theta : params) (opt : adam_state) : model :=
  mk_model (perceptual_loss self) (data_depth self) (encoder_params self)
    (decoder_params self) theta (Some opt) (decoder_optimizer self)
    (epochs self) (fit_metrics self) (history self) (log_dir self).

Definition set_coders (self : model) (enc dec : params) (opt : adam_state) : model :=
  mk_model (perceptual_loss self) (data_depth self) enc dec
    (critic_params self) (critic_optimizer self) (Some opt)
    (epochs self) (fit_metrics self) (history self) (log_dir self).

Definition set_optimizers (self : model) (copt dopt : adam_state) (n : Z) : model :=
  mk_model (perceptual_loss self) (data_depth self) (encoder_params self)
    (decoder_params self) (critic_params self) (Some copt) (Some dopt)
    n (fit_metrics self) (history self) (log_dir self).

Definition set_epochs (self : model) (n : Z) : model :=
  mk_model (perceptual_loss self) (data_depth self) (encoder_params self)
    (decoder_params self) (critic_params self) (critic_optimizer self)
    (decoder_optimizer self) n (fit_metrics self) (history self) (log_dir self).

Definition set_fit_metrics (self : model) (r : record) : model :=
  mk_model (perceptual_loss self) (data_depth self) (encoder_params self)
    (decoder_params self) (critic_params self) (critic_optimizer self)
    (decoder_optimizer self) (epochs self) (Some r) (history self) (log_dir self).

Definition set_history (self : model) (h : list record) : model :=
  mk_model (perceptual_loss self) (data_depth self) (encoder_params self)
    (decoder_params self) (critic_params self) (critic_optimizer self)
    (decoder_optimizer self) (epochs self) (fit_metrics self) h (log_dir self).

(** [if self.log_dir:] an empty path is falsy too. *)
Definition logging (self : model) : option string :=
  match log_dir self with
  | Some d => if String.eqb d "" then None else Some d
  | None => None
  end.

(** *** _random_data *)
Definition _random_data (self : model) (g : rng) (cover : tensor) : tensor * rng :=
  random_ g (data_depth self) cover.

(** *** _encode_decode *)

(** The chain of [if transform == ...] tests. *)
Definition apply_transform (transform : option string) (g : rng) (generated : tensor)
  : tensor * rng :=
  match transform with
  | None => (generated, g)
  | Some key =>
      if String.eqb key "rotate" then (rotate_left_90 generated, g)
      else if String.eqb key "gaussian" then add_gaussian_noise g generated
      else if String.eqb key "white_filter"
        then (color_filter generated (7 # 10) (255, 255, 255)%Q, g)
      else if String.eqb key "black_filter"
        then (color_filter generated (7 # 10) (0, 0, 0)%Q, g)
      else if String.eqb key "red_filter"
        then (color_filter generated (7 # 10) (255, 0, 0)%Q, g)
      else if String.eqb key "green_filter"
        then (color_filter generated (7 # 10) (0, 255, 0)%Q, g)
      else if String.eqb key "blue_filter"
        then (color_filter generated (7 # 10) (0, 0, 255)%Q, g)
      else (generated, g)
  end.

(** The body of [_encode_decode] after the payload is drawn, for given
    embedder and recoverer parameters. *)
Definition encode_decode_with (enc dec : params) (cover payload : tensor)
    (quantize : bool) (transform : option string) (g : rng)
  : tensor * tensor * tensor * rng :=
  let generated := encoder enc cover payload in
  let generated :=
    if quantize then map quantize_entry generated else generated in
  let (transformed, g') := apply_transform transform g generated in
  let decoded_g := decoder dec generated in
  let decoded_t := decoder dec transformed in
  (generated, decoded_g, decoded_t, g').

Definition _encode_decode (self : model) (g : rng) (cover : tensor)
    (quantize : bool) (transform : option string)
  : tensor * tensor * tensor * tensor * rng :=
  let (payload, g1) := _random_data self g cover in
  let '(generated, decoded_g, decoded_t, g2) :=
    encode_decode_with (encoder_params self) (decoder_params self)
      cover payload quantize transform g1 in
  (generated, payload, decoded_g, decoded_t, g2).

(** *** _critic *)
Definition _critic (theta : params) (image : tensor) : Q :=
  mean (critic theta image).

(** *** _get_optimizers *)
Definition _get_optimizers (self : model) : adam_state * adam_state :=
  let _dec_list := decoder_params self ++ encoder_params self in
  let critic_optimizer := Adam (critic_params self) in
  let decoder_optimizer := Adam _dec_list in
  (critic_optimizer, decoder_optimizer).

(** *** _fit_critic *)

(** The scalar [.backward()] is called on in the critic phase, as a
    function of the critic's parameters. *)
Definition critic_backward_scalar (cover generated : tensor) (theta : params) : Q :=
  let cover_score := _critic theta cover in
  let generated_score := _critic theta generated in
  (cover_score - generated_score)%Q.

(** One iteration of the loop of [_fit_critic]. *)
Definition fit_critic_batch (self : model) (g : rng) (metrics : metrics_dict)
    (cover : tensor) : Py.result (model * rng * metrics_dict) :=
  let (payload, g1) := _random_data self g cover in
  let generated := encoder (encoder_params self) cover payload in
  let cover_score := _critic (critic_params self) cover in
  let generated_score := _critic (critic_params self) generated in
  match critic_optimizer self with
  | None => Py.raise (Py.AttributeError "'NoneType' object has no attribute 'zero_grad'")
  | Some opt =>
      let gradient :=
        grad (critic_backward_scalar cover generated) (critic_params self) in
      let (opt', theta) := adam_step opt (critic_params self) gradient in
      let theta := map (clamp (- (1 # 10)) (1 # 10)) theta in
      let self' := set_critic self theta opt' in
      metrics' <- append_all metrics
        [("train.cover_score", item cover_score);
         ("train.generated_score", item generated_score)] ;;
      Py.ret (self', g1, metrics')
  end.

Fixpoint _fit_critic (self : model) (g : rng) (metrics : metrics_dict)
    (train : list tensor) : Py.result (model * rng * metrics_dict) :=
  match train with
  | [] => Py.ret (self, g, metrics)
  | cover :: train' =>
      ' (self', g', metrics') <- fit_critic_batch self g metrics cover ;;
      _fit_critic self' g' metrics' train'
  end.

(** *** _coding_scores *)

(** [decoder_acc] is the exact quotient of the count by the size.  The
    source converts the count to a 32-bit float and divides in floats: up
    to [2 ^ 24] entries the count is held exactly, and the quotient of a
    count below the size is below 1. *)
Definition count_matches (decoded payload : tensor) : nat :=
  length (filter (fun dp => Bool.eqb (Qle_bool 0 (fst dp)) (Qle_bool (1 # 2) (snd dp)))
                 (combine decoded payload)).

Definition _coding_scores (cover generated payload decoded : tensor) : Q * Q * Q :=
  let encoder_mse := mse_loss generated cover in
  let decoder_loss := binary_cross_entropy_with_logits decoded payload in
  let decoder_acc :=
    (inject_Z (Z.of_nat (count_matches decoded payload))
     / inject_Z (Z.of_nat (length payload)))%Q in
  (encoder_mse, decoder_loss, decoder_acc).

(** The perceptual distance both phases compute. *)
Definition perceptual_distance (cover generated : tensor) : Q :=
  let phi_generated := perceptual_loss_fc generated in
  let phi_cover := perceptual_loss_fc cover in
  norm_mean (tsub phi_cover phi_generated).

(** *** _fit_coders *)

(** [total_loss] as the source composes it. *)
Definition total_loss (with_perceptual : bool)
    (encoder_mse decoder_loss_g decoder_loss_t generated_score perceptual : Q) : Q :=
  let total :=
    (100 * encoder_mse + (decoder_loss_g + decoder_loss_t) / 2 + generated_score)%Q in
  if with_perceptual then (total + perceptual)%Q else total.

(** The scalar [.backward()] is called on in the coder phase, as a function
    of the parameters of [decoder_optimizer]: the recoverer's followed by
    the embedder's.  The payload and the generator state the transform
    reads are those of the batch. *)
Definition coder_backward_scalar (self : model) (cover payload : tensor)
    (batch_transform : option string) (g : rng) (p : params) : Q :=
  let dec := firstn (length (decoder_params self)) p in
  let enc := skipn (length (decoder_params self)) p in
  let '(generated, decoded_g, decoded_t, _) :=
    encode_decode_with enc dec cover payload false batch_transform g in
  let '(encoder_mse, decoder_loss_g, _) :=
    _coding_scores cover generated payload decoded_g in
  let '(_, decoder_loss_t, _) :=
    _coding_scores cover generated payload decoded_t in
  let generated_score := _critic (critic_params self) generated in
  total_loss (perceptual_loss self) encoder_mse decoder_loss_g decoder_loss_t
    generated_score (perceptual_distance cover generated).

(** One iteration of the loop of [_fit_coders]. *)
Definition fit_coders_batch (self : model) (g : rng) (metrics : metrics_dict)
    (transform : option string) (transform_prob : Q) (cover : tensor)
  : Py.result (model * rng * metrics_dict) :=
  let (r, g0) := rand g in
  let batch_transform := if Qlt_bool r transform_prob then transform else None in
  let (payload, g1) := _random_data self g0 cover in
  let '(generated, decoded_g, decoded_t, g2) :=
    encode_decode_with (encoder_params self) (decoder_params self)
      cover payload false batch_transform g1 in
  let '(encoder_mse, decoder_loss_g, decoder_acc_g) :=
    _coding_scores cover generated payload decoded_g in
  let '(_, decoder_loss_t, decoder_acc_t) :=
    _coding_scores cover generated payload decoded_t in
  let perceptual := perceptual_distance cover generated in
  match decoder_optimizer self with
  | None =>
      Py.raise (Py.AttributeError "'NoneType' object has no attribute 'zero_grad'")
  | Some opt =>
      let _dec_list := decoder_params self ++ encoder_params self in
      let gradient :=
        grad (coder_backward_scalar self cover payload batch_transform g1) _dec_list in
      let (opt', p) := adam_step opt _dec_list gradient in
      let self' :=
        set_coders self (skipn (length (decoder_params self)) p)
                   (firstn (length (decoder_params self)) p) opt' in
      metrics' <- append_all metrics
        [("train.perceptual_loss", item perceptual);
         ("train.encoder_mse", item encoder_mse);
         ("train.decoder_loss_t", item decoder_loss_t);
         ("train.decoder_loss_g", item decoder_loss_g);
         ("train.decoder_acc_t", item decoder_acc_t);
         ("train.decoder_acc_g", item decoder_acc_g)] ;;
      Py.ret (self', g2, metrics')
  end.

Fixpoint _fit_coders (self : model) (g : rng) (metrics : metrics_dict)
    (train : list tensor) (transform : option string) (transform_prob : Q)
  : Py.result (model * rng * metrics_dict) :=
  match train with
  | [] => Py.ret (self, g, metrics)
  | cover :: train' =>
      ' (self', g', metrics') <-
        fit_coders_batch self g metrics transform transform_prob cover ;;
      _fit_coders self' g' metrics' train' transform transform_prob
  end.

(** *** _validate *)

(** The values one iteration of the loop of [_validate] appends, in order. *)
Definition validate_entries (self : model) (g : rng) (cover : tensor)
    (transform : option string) : list (string * R) * rng :=
  let '(generated, payload, decoded_g, decoded_t, g') :=
    _encode_decode self g cover true transform in
  let '(encoder_mse, decoder_loss_g, decoder_acc_g) :=
    _coding_scores cover generated payload decoded_g in
  let '(_, decoder_loss_t, decoder_acc_t) :=
    _coding_scores cover generated payload decoded_t in
  let generated_score := _critic (critic_params self) generated in
  let cover_score := _critic (critic_params self) cover in
  let perceptual := perceptual_distance cover generated in
  ([("val.perceptual_loss", item perceptual);
    ("val.encoder_mse", item encoder_mse);
    ("val.decoder_loss_g", item decoder_loss_g);
    ("val.decoder_loss_t", item decoder_loss_t);
    ("val.decoder_acc_g", item decoder_acc_g);
    ("val.decoder_acc_t", item decoder_acc_t);
    ("val.cover_score", item cover_score);
    ("val.generated_score", item generated_score);
    ("val.ssim", item (ssim cover generated));
    ("val.psnr", (10 * log10 (4 / item encoder_mse))%R);
    ("val.bpp_g", (IZR (data_depth self) * (2 * item decoder_acc_g - 1))%R);
    ("val.bpp_t", (IZR (data_depth self) * (2 * item decoder_acc_t - 1))%R)],
   g').

Definition validate_batch (self : model) (g : rng) (metrics : metrics_dict)
    (transform : option string) (cover : tensor)
  : Py.result (rng * metrics_dict) :=
  let (entries, g') := validate_entries self g cover transform in
  metrics' <- append_all metrics entries ;;
  Py.ret (g', metrics').

Fixpoint _validate (self : model) (g : rng) (metrics : metrics_dict)
    (validate : list tensor) (transform : option string)
  : Py.result (rng * metrics_dict) :=
  match validate with
  | [] => Py.ret (g, metrics)
  | cover :: validate' =>
      ' (g', metrics') <- validate_batch self g metrics transform cover ;;
      _validate self g' metrics' validate' transform
  end.

(** *** _generate_samples *)

(** The sample images are files of their own under [samples/]; of
    [_generate_samples] only the draw from the generator is kept. *)
Definition _generate_samples (self : model) (g : rng) (cover : tensor) : rng :=
  let '(_, _, _, _, g') := _encode_decode self g cover false None in
  g'.

(** *** fit *)

(** What outlives a call: the generator state, the files written with
    [open(path, 'w')] and the checkpoints [save] wrote, tagged with the
    epoch counter and the score that make up their name.  The checkpoints
    ([<epochs>.bpp-<score>.p]) and the sample images (under [samples/]) are
    files of other names than [metrics.log] and are kept apart from it. *)
Record world : Type := mk_world {
  generator : rng;
  files : string -> option json;
  checkpoints : list (Z * number)
}.

(** [open(path, 'w')] followed by a dump: the file holds the new document
    and nothing of what it held before. *)
Definition write (fs : string -> option json) (path : string) (doc : json)
  : string -> option json :=
  fun p => if String.eqb p path then Some doc else fs p.

(** The body of the loop over epochs.  [sample_cover] is bound, and read,
    only when logging is on. *)
Definition fit_epoch (train validate : list tensor) (transform : option string)
    (transform_prob : Q) (sample_cover : tensor)
    (self : model) (w : world) (epoch : Z) : Py.result (model * world) :=
  let self := set_epochs self (epochs self + 1) in
  let metrics : metrics_dict := fresh_metrics in
  ' (self, g, metrics) <- _fit_critic self (generator w) metrics train ;;
  ' (self, g, metrics) <- _fit_coders self g metrics train transform transform_prob ;;
  ' (g, metrics) <- _validate self g metrics validate transform ;;
  means <- reduce_metrics metrics ;;
  let fit_metrics := setitem means "epoch" (Int epoch) in
  let self := set_fit_metrics self fit_metrics in
  match logging self with
  | Some dir =>
      let self := set_history self (history self ++ [fit_metrics]) in
      let metrics_path := path_join dir "metrics.log" in
      let fs := write (files w) metrics_path (json_dump (history self)) in
      bpp <- getitem fit_metrics "val.bpp_g" ;;
      let saved := checkpoints w ++ [(epochs self, bpp)] in
      let g := _generate_samples self g sample_cover in
      Py.ret (self, mk_world g fs saved)
  | None => Py.ret (self, mk_world g (files w) (checkpoints w))
  end.

Fixpoint fit_epochs (train validate : list tensor) (transform : option string)
    (transform_prob : Q) (sample_cover : tensor)
    (self : model) (w : world) (range : list Z) : Py.result (model * world) :=
  match range with
  | [] => Py.ret (self, w)
  | epoch :: range' =>
      ' (self', w') <-
        fit_epoch train validate transform transform_prob sample_cover self w epoch ;;
      fit_epochs train validate transform transform_prob sample_cover self' w' range'
  end.

(** [range(1, n + 1)] *)
Definition range_from_1 (n : Z) : list Z := map Z.of_nat (seq 1 (Z.to_nat n)).

Definition fit (self : model) (w : world) (train validate : list tensor)
    (n : Z) (transform : option string) (transform_prob : Q)
  : Py.result (model * world) :=
  let self :=
    match critic_optimizer self with
    | None =>
        let (critic_optimizer, decoder_optimizer) := _get_optimizers self in
        set_optimizers self critic_optimizer decoder_optimizer 0
    | Some _ => self
    end in
  sample_cover <-
    match logging self with
    | Some _ =>
        match validate with
        | [] => Py.raise Py.StopIteration
        | cover :: _ => Py.ret cover
        end
    | None => Py.ret []
    end ;;
  fit_epochs train validate transform transform_prob sample_cover self w
    (range_from_1 n).

(** *** _make_payload *)

(** Lists are objects: a name holds a reference into a store of lists. *)
Definition store : Type := list (list Z).

Definition deref (h : store) (r : nat) : list Z := nth r h [].

Fixpoint assign (h : store) (r : nat) (v : list Z) : store :=
  match h, r with
  | [], _ => []
  | _ :: h', O => v :: h'
  | x :: h', S r' => x :: assign h' r' v
  end.

(** [dst += src] on lists extends the object [dst] names, in place, by the
    items the object [src] names holds when the statement starts. *)
Definition iadd (h : store) (dst src : nat) : store :=
  assign h dst (deref h dst ++ deref h src).

(** The [while] loop; [fuel] bounds the number of iterations. *)
Fixpoint tile (fuel : nat) (h : store) (payload message : nat) (size : Z)
  : option store :=
  match fuel with
  | O => None
  | S fuel' =>
      if (Z.of_nat (length (deref h payload)) <? size)%Z
      then tile fuel' (iadd h payload message) payload message size
      else Some h
  end.

(** [payload = message] binds a second name to the same list, so the loop
    extends the list [message] names as well.  [None]: the loop did not
    end within [fuel] iterations. *)
Definition _make_payload (fuel : nat) (width height depth : Z) (text : string)
  : option (Py.result shaped) :=
  let h : store := [text_to_bits text ++ repeat 0%Z 32] in
  let message := 0%nat in
  let payload := message in
  match tile fuel h payload message (width * height * depth) with
  | None => None
  | Some h' =>
      let sliced := Py.slice_to (deref h' payload) (width * height * depth) in
      Some (view (map inject_Z sliced) [1; depth; height; width]%Z)
  end.

(** *** decode *)

(** The two [ValueError]s of [decode]. *)
Definition InputError (image : string) : Py.exn :=
  Py.ValueError ("Unable to read " ++ image ++ ".").
Definition DecodeError : Py.exn := Py.ValueError "Failed to find message.".

Definition terminator : list byte := [x00; x00; x00; x00]%byte.

(** [image / 255.0] on the pixels of an 8-bit RGB image. *)
Definition normalize (pixels : list byte) : tensor :=
  map (fun p => (inject_Z (Z.of_N (Byte.to_N p)) / 255)%Q) pixels.

(** The loop over the fragments: [if candidate:] lets through what
    [bytearray_to_text] returns when it is truthy. *)
Definition tally (candidates : Py.Counter) (fragments : list (list byte))
  : Py.Counter :=
  fold_left
    (fun candidates candidate =>
       let candidate := bytearray_to_text candidate in
       if Py.truthy candidate
       then match candidate with
            | Some text => Py.incr candidates text
            | None => candidates
            end
       else candidates)
    fragments candidates.

(** From the bit list on. *)
Definition decode_bits (bits : list bool) : Py.result string :=
  let candidates := tally [] (Py.split (bits_to_bytearray bits) terminator) in
  if (length candidates =? 0)%nat then Py.raise DecodeError
  else
    match Py.most_common_1 candidates with
    | [] => Py.raise Py.IndexError
    | (candidate, count) :: _ => Py.ret candidate
    end.

(** [exists] gives the paths that exist, each with the pixels [imread]
    returns for it (every existing path is taken to be a readable image). *)
Definition decode (self : model) (exists_ : string -> option (list byte))
    (image : string) : Py.result string :=
  match exists_ image with
  | None => Py.raise (InputError image)
  | Some pixels =>
      let image := normalize pixels in
      let image := permute_2_1_0 image in
      let image := map (fun x => Qlt_bool 0 x) (decoder (decoder_params self) image) in
      decode_bits image
  end.

End SteganoGAN.

(** ** Instances of the interfaces *)

(** Modelled from the spec: the helper module [utils] ([text_to_bits],
    [bits_to_bytearray], [bytearray_to_text], [ssim]) is missing from the
    sources.  The spec has the text encoded as the bits of its UTF-8 bytes,
    the bit stream split into byte groups, and each fragment decoded as
    UTF-8, an invalid fragment being skipped.  A [string] holds the UTF-8
    bytes of a text; bits are taken most significant first; bits left over
    after the last whole byte are dropped. *)
Module SpecUtils.

Definition bits_of_byte (b : byte) : list bool :=
  let '(b0, (b1, (b2, (b3, (b4, (b5, (b6, b7))))))) := Byte.to_bits b in
  [b7; b6; b5; b4; b3; b2; b1; b0].

Definition text_to_bits (text : string) : list Z :=
  map (fun b : bool => if b then 1%Z else 0%Z)
      (flat_map bits_of_byte (list_byte_of_string text)).

Fixpoint bits_to_bytearray (bits : list bool) : list byte :=
  match bits with
  | b7 :: b6 :: b5 :: b4 :: b3 :: b2 :: b1 :: b0 :: rest =>
      Byte.of_bits (b0, (b1, (b2, (b3, (b4, (b5, (b6, b7)))))))
        :: bits_to_bytearray rest
  | _ => []
  end.

Definition between (lo hi : N) (b : byte) : bool :=
  ((lo <=? Byte.to_N b) && (Byte.to_N b <=? hi))%N.

Definition continuation : byte -> bool := between 128 191.

(** Well-formed UTF-8 byte sequences (Unicode, table 3-7). *)
Fixpoint utf8_valid (fuel : nat) (l : list byte) : bool :=
  match fuel with
  | O => false
  | S fuel' =>
      match l with
      | [] => true
      | a :: l1 =>
          if between 0 127 a then utf8_valid fuel' l1
          else match l1 with
          | [] => false
          | b :: l2 =>
              if between 194 223 a then continuation b && utf8_valid fuel' l2
              else match l2 with
              | [] => false
              | c :: l3 =>
                  if between 224 239 a then
                    (if between 224 224 a then between 160 191 b
                     else if between 237 237 a then between 128 159 b
                     else continuation b)
                    && continuation c && utf8_valid fuel' l3
                  else match l3 with
                  | [] => false
                  | d :: l4 =>
                      between 240 244 a
                      && (if between 240 240 a then between 144 191 b
                          else if between 244 244 a then between 128 143 b
                          else continuation b)
                      && continuation c && continuation d && utf8_valid fuel' l4
                  end
              end
          end
      end
  end.

Definition bytearray_to_text (x : list byte) : option string :=
  if utf8_valid (S (length x)) x then Some (string_of_list_byte x) else None.

#[export] Instance utils : Utils := {
  text_to_bits := text_to_bits;
  bits_to_bytearray := bits_to_bytearray;
  bytearray_to_text := bytearray_to_text
}.

End SpecUtils.

(** A small executable instance of the backend, the transforms and the
    networks, on which the model can be run: one-parameter linear networks,
    forward differences for gradients and plain gradient descent for the
    optimizer step. *)
Module Toy.

Fixpoint bump (i : nat) (theta : params) : params :=
  match theta, i with
  | [], _ => []
  | x :: theta', O => (x + 1)%Q :: theta'
  | x :: theta', S i' => x :: bump i' theta'
  end.

Definition forward_difference (f : params -> Q) (theta : params) : params :=
  map (fun i => (f (bump i theta) - f theta)%Q) (seq 0 (length theta)).

#[export] Instance backend : Backend := {
  rng := nat;
  random_ := fun g depth cover =>
    (map (fun i => inject_Z (Z.of_nat ((g + i) mod 2)))
         (seq 0 (Z.to_nat depth * length cover)), S g);
  rand := fun g => (inject_Z (Z.of_nat (g mod 2)) / 2, S g)%Q;
  permute_2_1_0 := fun t => t;
  binary_cross_entropy_with_logits := mse_loss;
  perceptual_loss_fc := fun t => t;
  norm_mean := fun t => mean (map Qabs t);
  ssim := fun _ _ => 1%Q;
  grad := forward_difference;
  adam_state := nat;
  Adam := fun _ => 0%nat;
  adam_step := fun steps theta gradient =>
    (S steps, map2 (fun x dx => x - dx)%Q theta gradient)
}.

#[export] Instance transforms : Transforms := {
  rotate_left_90 := fun t => rev t;
  add_gaussian_noise := fun g t => (map (fun x => x + (1 # 100))%Q t, S g);
  color_filter := fun t alpha color =>
    map (fun x => (1 - alpha) * x + alpha * fst (fst color))%Q t
}.

Definition scale (theta : params) (t : tensor) : tensor :=
  map (fun x => hd 0 theta * x)%Q t.

#[export] Instance components : Components := {
  encoder := fun enc cover payload =>
    map2 (fun c p => c + hd 0 enc * (2 * p - 1))%Q cover payload;
  decoder := scale;
  critic := scale
}.

(** A model with both optimizers set and logging on, a fresh world, and two
    batches of two pixels. *)
Definition model0 : model :=
  mk_model false 1 [1%Q] [1%Q] [1%Q] (Some 0%nat) (Some 0%nat) 0 None [] (Some "run").

(** The same model with no log directory. *)
Definition quiet : model :=
  mk_model false 1 [1%Q] [1%Q] [1%Q] (Some 0%nat) (Some 0%nat) 0 None [] None.

Definition world0 : world := mk_world 0%nat (fun _ => None) [].

Definition batches : list tensor := [[1; 0]%Q; [0; 1]%Q].

End Toy.

(** ** Vocabulary of the statements *)

(** The candidates the loop of [decode] counts, in the order of the stream:
    the truthy results of [bytearray_to_text] on the fragments. *)
Definition candidates_of `{Utils} (fragments : list (list byte)) : list string :=
  flat_map (fun r : option string =>
              match r with
              | Some text => if Py.truthy r then [text] else []
              | None => []
              end)
           (map bytearray_to_text fragments).

(** Position of the first occurrence of [s] in [l] ([length l] when absent). *)
Fixpoint first_index (s : string) (l : list string) : nat :=
  match l with
  | [] => 0
  | x :: l' => if String.eqb x s then 0 else S (first_index s l')
  end.

(** [counted l c]: the counter [c] holds, for the keys read so far [l], each
    key once with the number of its occurrences, in the order of first
    occurrence. *)
Record counted (l : list string) (c : Py.Counter) : Prop := {
  counted_count : forall k n, In (k, n) c -> n = count_occ string_dec l k /\ In k l;
  counted_keys : forall k, In k l -> In k (map fst c);
  counted_order :
    StronglySorted (fun a b => (first_index a l < first_index b l)%nat) (map fst c)
}.

(** [metrics[key]] (the empty list when the key is absent), and the values
    a list of appends adds under [key]. *)
Fixpoint values (metrics : metrics_dict) (key : string) : list R :=
  match metrics with
  | [] => []
  | (k, l) :: rest => if String.eqb k key then l else values rest key
  end.

Definition entries_for (key : string) (entries : list (string * R)) : list R :=
  map snd (filter (fun e => String.eqb (fst e) key) entries).

(** The clip range of the critic's parameters, and the unit interval. *)
Definition in_clip_range (x : Q) : Prop := (- (1 # 10) <= x /\ x <= 1 # 10)%Q.
Definition in_unit_interval (x : Q) : Prop := (0 <= x /\ x <= 1)%Q.

(** The keys each phase appends to, and what the statements say of a run. *)
Section Vocabulary.

Context {B : Backend} {T : Transforms} {C : Components}.

Definition critic_keys : list string :=
  ["train.cover_score"; "train.generated_score"].

Definition coder_keys : list string :=
  ["train.perceptual_loss"; "train.encoder_mse"; "train.decoder_loss_t";
   "train.decoder_loss_g"; "train.decoder_acc_t"; "train.decoder_acc_g"].

Definition val_keys : list string :=
  ["val.perceptual_loss"; "val.encoder_mse"; "val.decoder_loss_g";
   "val.decoder_loss_t"; "val.decoder_acc_g"; "val.decoder_acc_t";
   "val.cover_score"; "val.generated_score"; "val.ssim"; "val.psnr";
   "val.bpp_g"; "val.bpp_t"].

(** The transform the batch uses and the generator state its payload and
    transform are drawn from. *)
Definition batch_transform_of (g : rng) (transform : option string)
    (transform_prob : Q) : option string :=
  if Qlt_bool (fst (rand g)) transform_prob then transform else None.

(** What the iterations of [_validate] append, batch by batch. *)
Fixpoint validate_run (self : model) (g : rng) (validate : list tensor)
    (transform : option string) : list (list (string * R)) :=
  match validate with
  | [] => []
  | cover :: validate' =>
      fst (validate_entries self g cover transform)
        :: validate_run self (snd (validate_entries self g cover transform))
                        validate' transform
  end.

(** The scores of one validation batch: [encoder_mse], [decoder_acc_g] and
    [decoder_acc_t], on the quantized image. *)
Definition batch_scores (self : model) (g : rng) (cover : tensor)
    (transform : option string) : Q * Q * Q :=
  let payload := fst (_random_data self g cover) in
  let g1 := snd (_random_data self g cover) in
  let generated := map quantize_entry (encoder (encoder_params self) cover payload) in
  let transformed := fst (apply_transform transform g1 generated) in
  (mse_loss generated cover,
   snd (_coding_scores cover generated payload (decoder (decoder_params self) generated)),
   snd (_coding_scores cover generated payload (decoder (decoder_params self) transformed))).

Fixpoint validate_scores (self : model) (g : rng) (validate : list tensor)
    (transform : option string) : list (Q * Q * Q) :=
  match validate with
  | [] => []
  | cover :: validate' =>
      batch_scores self g cover transform
        :: validate_scores self (snd (validate_entries self g cover transform))
                           validate' transform
  end.

Definition mse_of (s : Q * Q * Q) : Q := fst (fst s).

Definition acc_g_of (s : Q * Q * Q) : Q := snd (fst s).

Definition acc_t_of (s : Q * Q * Q) : Q := snd s.

(** [grows m m']: the dict [m'] has the keys of [m] and every list of [m]
    extended; [filled keys m]: the lists under [keys] have an entry. *)
Definition grows (m m' : metrics_dict) : Prop :=
  map fst m' = map fst m /\ forall k, exists extra, values m' k = values m k ++ extra.

Definition filled (keys : list string) (m : metrics_dict) : Prop :=
  forall k, In k keys -> values m k <> [].

(** What the training phases leave untouched in [self]. *)
Definition bookkeeping_kept (s s' : model) : Prop :=
  log_dir s' = log_dir s /\ history s' = history s /\ epochs s' = epochs s
  /\ (critic_optimizer s <> None -> critic_optimizer s' <> None)
  /\ (decoder_optimizer s <> None -> decoder_optimizer s' <> None).

(** The record of an epoch: every key of the metrics dict with the mean of
    its list, then the epoch index. *)
Definition record_of (m : metrics_dict) (epoch : Z) : record :=
  map (fun kv => (fst kv, Float (py_sum (snd kv) / INR (length (snd kv)))%R)) m
  ++ [("epoch", Int epoch)].

End Vocabulary.

(** ** encode and load *)

(** What [imread(path, pilmode='RGB')] returns: [height] rows of [width]
    pixels of three 8-bit channels, flattened. *)
Record image : Type := mk_image {
  img_height : Z;
  img_width : Z;
  img_pixels : list byte
}.

(** [x.astype('uint8')] on one entry: the fraction is dropped; outside
    0..255 the cast wraps. *)
Definition astype_uint8 (x : Q) : Z := (long x mod 256)%Z.

(** [sep.join(fragments)] on byte strings. *)
Fixpoint join (sep : list byte) (fragments : list (list byte)) : list byte :=
  match fragments with
  | [] => []
  | [f] => f
  | f :: fragments' => f ++ sep ++ join sep fragments'
  end.

(** [x is None] *)
Definition is_None {A} (x : option A) : bool :=
  match x with
  | None => true
  | Some _ => false
  end.

(** [os.path.join(a, b)] for any [b]: an absolute [b] is the result. *)
Definition os_path_join (a b : string) : string :=
  match b with
  | String "/"%char _ => b
  | _ => path_join a b
  end.

(** The head of [load]: which file is handed to [torch.load].  [dirname] is
    [os.path.dirname(__file__)]. *)
Definition load_path (dirname : string) (architecture path : option string)
  : Py.result (option string) :=
  if Py.truthy architecture && negb (Py.truthy path) then
    match architecture with
    | Some name =>
        let model_name := (name ++ ".steg")%string in
        let pretrained_path := path_join dirname "bin" in
        Py.ret (Some (os_path_join pretrained_path model_name))
    | None => Py.ret path
    end
  else if (is_None architecture && is_None path)
          || (Py.truthy architecture && Py.truthy path) then
    Py.raise (Py.ValueError
      "Please provide either an architecture or a path to pretrained model.")
  else Py.ret path.

Section Encode.

Context {B : Backend} {C : Components} {U : Utils}.

(** [cover / 127.5 - 1.0] on the pixels of the cover. *)
Definition normalize_cover (pixels : list byte) : tensor :=
  map (fun p => (inject_Z (Z.of_N (Byte.to_N p)) / (255 # 2) - 1)%Q) pixels.

(** [encode], from the image read to the pixels handed to [imwrite].  After
    the permutation and [unsqueeze] the cover has size (1, 3, width, height),
    so [cover_size[3]] is the height of the image and [cover_size[2]] its
    width.  [None]: the loop of [_make_payload] did not end within [fuel]. *)
Definition encode (self : model) (fuel : nat) (cover : image) (text : string)
  : option (Py.result (list Z)) :=
  let cover_size := [1; 3; img_width cover; img_height cover]%Z in
  let cover_t := permute_2_1_0 (normalize_cover (img_pixels cover)) in
  match _make_payload fuel (nth 3 cover_size 0%Z) (nth 2 cover_size 0%Z)
                      (data_depth self) text with
  | None => None
  | Some (inl e) => Some (inl e)
  | Some (inr payload) =>
      let generated :=
        map (clamp (- (1)) 1) (encoder (encoder_params self) cover_t (data payload)) in
      let generated :=
        map (fun x => ((x + 1) * (255 # 2))%Q) (permute_2_1_0 generated) in
      Some (inr (map astype_uint8 generated))
  end.

End Encode.

(** ** The model [fit] starts from *)

Section FitVocabulary.
Context {B : Backend}.

(** [self] after the first statement of [fit]: the optimizers are created,
    and the epoch counter set to 0, when the critic's optimizer is missing. *)
Definition prepared (self : model) : model :=
  match critic_optimizer self with
  | None =>
      let (critic_optimizer, decoder_optimizer) := _get_optimizers self in
      set_optimizers self critic_optimizer decoder_optimizer 0
  | Some _ => self
  end.

End FitVocabulary.

(** ** The metrics dicts of a run of [fit] *)

Section EpochVocabulary.
Context {B : Backend} {T : Transforms} {C : Components}.



End EpochVocabulary.

(** ** More vocabulary *)

(** In the scan of [split], no separator starts inside the fragment being
    read ([cur], most recent byte first) when followed by [l]. *)
Definition clear_of (sep cur l : list byte) : Prop :=
  forall a c, rev cur = a ++ c -> c <> [] -> Py.starts_with sep (c ++ l) = false.

(** How many values one batch appends under [key] when it appends once
    under each of [keys]. *)
Definition count_in (key : string) (keys : list string) : nat :=
  if existsb (String.eqb key) keys then 1 else 0.

(* ================================================================== *)
(** * Part II: properties *)
(* ================================================================== *)

(** ** Tiling a message into a payload *)

Section PayloadTiling.

Context {U : Utils}.

Lemma length_concat_repeat (message : list Z) (reps : nat) :
  length (concat (repeat message reps)) = (reps * length message)%nat.
Proof.
  induction reps as [|reps IH]; simpl; [reflexivity|].
  rewrite length_app, IH. reflexivity.
Qed.

Lemma concat_repeat_app (message : list Z) (a b : nat) :
  concat (repeat message a) ++ concat (repeat message b)
  = concat (repeat message (a + b)).
Proof.
  induction a as [|a IH]; simpl; [reflexivity|].
  rewrite <- app_assoc, IH. reflexivity.
Qed.

(** Entry [i] of a tiled message is entry [i mod length] of the message. *)
Lemma nth_concat_repeat (message : list Z) (reps i : nat) :
  (i < reps * length message)%nat ->
  nth i (concat (repeat message reps)) 0%Z
  = nth (i mod length message) message 0%Z.
Proof.
  revert i. induction reps as [|reps IH]; intros i Hi; simpl in *; [lia|].
  assert (Hpos : (length message <> 0)%nat) by (intro E; rewrite E in Hi; lia).
  destruct (Nat.lt_ge_cases i (length message)) as [Hlt|Hge].
  - rewrite app_nth1 by assumption. rewrite Nat.mod_small by assumption. reflexivity.
  - rewrite app_nth2 by assumption. rewrite IH by lia.
    f_equal.
    replace i with ((i - length message) + 1 * length message)%nat at 2 by lia.
    rewrite Nat.Div0.mod_add. reflexivity.
Qed.

(** With both names on the one list of the store, [payload += message]
    doubles it. *)
Lemma iadd_alias (l : list Z) : iadd [l] 0 0 = [l ++ l].
Proof. reflexivity. Qed.

(** The loop keeps a whole number of copies of the message and ends with at
    least [size] entries. *)
Lemma tile_copies (message : list Z) (size : Z) (fuel reps : nat) (h : store) :
  (1 <= reps)%nat ->
  tile fuel [concat (repeat message reps)] 0 0 size = Some h ->
  exists reps', (1 <= reps')%nat /\ h = [concat (repeat message reps')] /\
    (size <= Z.of_nat (length (concat (repeat message reps'))))%Z.
Proof.
  revert reps. induction fuel as [|fuel IH]; intros reps Hreps Hrun; simpl in Hrun.
  - discriminate.
  - unfold deref in Hrun; simpl nth in Hrun.
    destruct (Z.ltb_spec (Z.of_nat (length (concat (repeat message reps)))) size)
      as [Hlt|Hge].
    + rewrite iadd_alias, concat_repeat_app in Hrun.
      apply IH in Hrun; [exact Hrun | lia].
    + injection Hrun as <-. exists reps. auto.
Qed.

(** The loop ends: every iteration adds at least one entry. *)
Lemma tile_terminates (size : Z) (fuel : nat) (l : list Z) :
  (1 <= length l)%nat -> (1 <= fuel)%nat ->
  (size < Z.of_nat fuel + Z.of_nat (length l))%Z ->
  exists h, tile fuel [l] 0 0 size = Some h.
Proof.
  revert l. induction fuel as [|fuel IH]; intros l Hl Hpos Hfuel; simpl.
  - lia.
  - unfold deref; simpl nth.
    destruct (Z.ltb_spec (Z.of_nat (length l)) size) as [Hlt|Hge].
    + rewrite iadd_alias. apply IH; try rewrite length_app; lia.
    + eauto.
Qed.

Lemma numel_payload_shape (width height depth : Z) :
  numel [1; depth; height; width]%Z = (width * height * depth)%Z.
Proof. unfold numel; cbn [fold_right]. ring. Qed.

(** C4. For every text and all positive [width], [height] and [depth],
    [_make_payload] returns (its loop ends): the message is the text's bits
    followed by 32 zero bits, the payload is that message repeated a whole
    number of times, enough to reach [width * height * depth] entries, and
    cut to exactly that many; the tensor has shape [(1, depth, height,
    width)].  So entry [i] of the payload is entry [i mod len(message)] of
    the message, whatever the length of the text. *)
Theorem make_payload_tiles (text : string) (width height depth : Z) (fuel : nat) :
  (0 < width)%Z -> (0 < height)%Z -> (0 < depth)%Z ->
  (Z.to_nat (width * height * depth) <= fuel)%nat ->
  let message := text_to_bits text ++ repeat 0%Z 32 in
  let size := Z.to_nat (width * height * depth) in
  exists (reps : nat) (payload : shaped),
    _make_payload fuel width height depth text = Some (inr payload)
    /\ (size <= length (concat (repeat message reps)))%nat
    /\ data payload = map inject_Z (firstn size (concat (repeat message reps)))
    /\ shape payload = [1; depth; height; width]%Z
    /\ length (data payload) = size
    /\ forall i : nat, (i < size)%nat ->
         nth i (data payload) 0%Q
         = inject_Z (nth (i mod length message) message 0%Z).
Proof.
  intros Hw Hh Hd Hfuel message size.
  assert (Hsize : (0 < width * height * depth)%Z) by nia.
  assert (Hlen : (32 <= length message)%nat).
  { unfold message. rewrite length_app, repeat_length. lia. }
  destruct (tile_terminates (width * height * depth) fuel message) as [h Hh'];
    [lia | lia | lia |].
  assert (Hone : [message] = [concat (repeat message 1)]).
  { simpl. rewrite app_nil_r. reflexivity. }
  pose proof Hh' as Hrun. rewrite Hone in Hrun.
  apply tile_copies in Hrun; [|lia].
  destruct Hrun as (reps & Hreps & -> & Hreach).
  set (tiled := concat (repeat message reps)) in *.
  assert (Hcut : length (firstn size tiled) = size).
  { apply firstn_length_le. unfold size. lia. }
  exists reps, (mk_shaped [1; depth; height; width]%Z
                          (map inject_Z (firstn size tiled))).
  assert (Hrunning :
    _make_payload fuel width height depth text
    = Some (inr (mk_shaped [1; depth; height; width]%Z
                           (map inject_Z (firstn size tiled))))).
  { unfold _make_payload. fold message. rewrite Hh'.
    unfold deref; simpl nth. unfold Py.slice_to.
    destruct (Z.leb_spec 0 (width * height * depth)) as [_|Hneg]; [|lia].
    fold size. unfold view.
    rewrite numel_payload_shape, length_map, Hcut.
    replace (forallb (fun d => (0 <=? d)%Z) [1; depth; height; width]%Z) with true.
    2:{ simpl. symmetry. rewrite !andb_true_iff, !Z.leb_le. lia. }
    replace (width * height * depth =? Z.of_nat size)%Z with true.
    2:{ symmetry. apply Z.eqb_eq. unfold size. lia. }
    reflexivity. }
  split; [exact Hrunning|].
  split; [unfold size, tiled in *; lia|].
  split; [reflexivity|].
  split; [reflexivity|].
  split; [simpl; rewrite length_map; exact Hcut|].
  intros i Hi. simpl.
  change 0%Q with (inject_Z 0). rewrite map_nth, nth_firstn.
  destruct (Nat.ltb_spec i size) as [_|Hge]; [|lia].
  unfold tiled. rewrite nth_concat_repeat; [reflexivity|].
  rewrite <- length_concat_repeat. fold tiled. unfold size in Hi. lia.
Qed.

End PayloadTiling.

(** The scenario of the spec: depth 1, a 64 x 64 cover, the text "hi". *)
Lemma make_payload_tiles_witness :
  (0 < 64)%Z /\ (Z.to_nat (64 * 64 * 1) <= 4096)%nat /\
  exists (reps : nat) (payload : shaped),
    _make_payload (U := SpecUtils.utils) 4096 64 64 1 "hi" = Some (inr payload)
    /\ (4096 <= length (concat (repeat (SpecUtils.text_to_bits "hi" ++ repeat 0%Z 32) reps)))%nat
    /\ data payload
       = map inject_Z
           (firstn 4096 (concat (repeat (SpecUtils.text_to_bits "hi" ++ repeat 0%Z 32) reps)))
    /\ shape payload = [1; 1; 64; 64]%Z
    /\ length (data payload) = 4096%nat
    /\ forall i : nat, (i < 4096)%nat ->
         nth i (data payload) 0%Q
         = inject_Z (nth (i mod 48) (SpecUtils.text_to_bits "hi" ++ repeat 0%Z 32) 0%Z).
Proof.
  split; [lia|]. split; [vm_compute; lia|].
  apply (make_payload_tiles (U := SpecUtils.utils) "hi" 64 64 1 4096);
    solve [lia | vm_compute; lia].
Defined.

(** ** Majority vote over the decoded fragments *)

Section MajorityVote.

Context {U : Utils}.

Lemma first_index_app_in (a t : string) (l : list string) :
  In a l -> first_index a (l ++ [t]) = first_index a l.
Proof.
  induction l as [|x l IH]; intros Hin; simpl in *; [contradiction|].
  destruct (String.eqb_spec x a) as [_|Hne]; [reflexivity|].
  destruct Hin as [Heq|Hin]; [congruence|]. f_equal. auto.
Qed.

Lemma first_index_app_new (t : string) (l : list string) :
  ~ In t l -> first_index t (l ++ [t]) = length l.
Proof.
  induction l as [|x l IH]; intros Hnot; simpl in *.
  - rewrite String.eqb_refl. reflexivity.
  - destruct (String.eqb_spec x t) as [Heq|_]; [tauto|]. f_equal. tauto.
Qed.

Lemma first_index_lt (a : string) (l : list string) :
  In a l -> (first_index a l < length l)%nat.
Proof.
  induction l as [|x l IH]; intros Hin; simpl in *; [contradiction|].
  destruct (String.eqb_spec x a) as [_|Hne]; [lia|].
  destruct Hin as [Heq|Hin]; [congruence|]. apply IH in Hin. lia.
Qed.

Lemma incr_keys_old (c : Py.Counter) (t : string) :
  In t (map fst c) -> map fst (Py.incr c t) = map fst c.
Proof.
  induction c as [|[k n] c IH]; intros Hin; simpl in *; [contradiction|].
  destruct (String.eqb_spec k t) as [_|Hne]; simpl; [reflexivity|].
  destruct Hin as [Heq|Hin]; [congruence|]. f_equal. auto.
Qed.

Lemma incr_new (c : Py.Counter) (t : string) :
  ~ In t (map fst c) -> Py.incr c t = c ++ [(t, 1%nat)].
Proof.
  induction c as [|[k n] c IH]; intros Hnot; simpl in *; [reflexivity|].
  destruct (String.eqb_spec k t) as [Heq|_]; [tauto|]. f_equal. tauto.
Qed.

(** What an entry of the incremented counter is. *)
Lemma in_incr (c : Py.Counter) (t k : string) (n : nat) :
  NoDup (map fst c) -> In (k, n) (Py.incr c t) ->
  (k <> t /\ In (k, n) c)
  \/ (k = t /\ exists m, n = S m /\ In (t, m) c)
  \/ (k = t /\ n = 1%nat /\ ~ In t (map fst c)).
Proof.
  induction c as [|[k0 n0] c IH]; intros Hnd Hin; simpl in *.
  - destruct Hin as [Heq|[]]. injection Heq as <- <-. right. right. tauto.
  - inversion Hnd as [|? ? Hfresh Hnd']; subst.
    destruct (String.eqb_spec k0 t) as [->|Hne].
    + destruct Hin as [Heq|Hin].
      * injection Heq as <- <-. right. left. eauto.
      * left. split; [|auto]. intros ->. apply Hfresh.
        change t with (fst (t, n)). apply in_map. exact Hin.
    + destruct Hin as [Heq|Hin].
      * injection Heq as <- <-. left. auto.
      * destruct (IH Hnd' Hin) as [[? ?]|[[? (m & ? & ?)]|[? [? ?]]]].
        -- left. auto.
        -- right. left. eauto.
        -- right. right. repeat split; auto. intros [?|?]; [congruence|auto].
Qed.

Lemma sorted_NoDup (l : list string) (keys : list string) :
  StronglySorted (fun a b => (first_index a l < first_index b l)%nat) keys ->
  NoDup keys.
Proof.
  induction 1 as [|a keys Hs IH Hall]; constructor; [|exact IH].
  intros Hin. rewrite Forall_forall in Hall. specialize (Hall a Hin). lia.
Qed.

Lemma sorted_snoc (R : string -> string -> Prop) (keys : list string) (t : string) :
  StronglySorted R keys -> Forall (fun a => R a t) keys ->
  StronglySorted R (keys ++ [t]).
Proof.
  induction 1 as [|a keys Hs IH Hall]; intros Hlast; simpl.
  - repeat constructor.
  - inversion Hlast; subst. constructor; [auto|].
    apply Forall_app. split; [exact Hall|]. constructor; [assumption|constructor].
Qed.

Lemma sorted_weaken (R R' : string -> string -> Prop) (keys : list string) :
  (forall a b, In a keys -> In b keys -> R a b -> R' a b) ->
  StronglySorted R keys -> StronglySorted R' keys.
Proof.
  intros Himp Hs. induction Hs as [|a keys Hs IH Hall].
  - constructor.
  - constructor.
    + apply IH. intros x y Hx Hy. apply Himp; right; assumption.
    + rewrite Forall_forall in *. intros b Hb.
      apply Himp; [left; reflexivity | right; assumption | auto].
Qed.

Lemma count_occ_snoc (l : list string) (t k : string) :
  count_occ string_dec (l ++ [t]) k
  = (count_occ string_dec l k + if string_dec t k then 1 else 0)%nat.
Proof. rewrite count_occ_app. simpl. destruct (string_dec t k); reflexivity. Qed.

Lemma key_has_entry (c : Py.Counter) (k : string) :
  In k (map fst c) -> exists n, In (k, n) c.
Proof.
  intros Hin. apply in_map_iff in Hin. destruct Hin as ([k' n] & Hk & Hin).
  simpl in Hk. subst. eauto.
Qed.

(** One more key read: [c[key] += 1] keeps the counter in step. *)
Lemma counted_snoc (l : list string) (c : Py.Counter) (t : string) :
  counted l c -> counted (l ++ [t]) (Py.incr c t).
Proof.
  intros [Hcount Hkeys Horder].
  pose proof (sorted_NoDup _ _ Horder) as Hnd.
  assert (Hold : forall a, In a (map fst c) -> In a l).
  { intros a Ha. destruct (key_has_entry _ _ Ha) as [n Hn].
    apply (Hcount _ _ Hn). }
  constructor.
  - intros k n Hin. rewrite count_occ_snoc, in_app_iff.
    destruct (in_incr _ _ _ _ Hnd Hin)
      as [[Hne Hc]|[[-> (m & -> & Hc)]|[-> [-> Hfresh]]]].
    + destruct (Hcount _ _ Hc) as [-> Hk].
      destruct (string_dec t k); [congruence|]. split; [lia|auto].
    + destruct (Hcount _ _ Hc) as [-> Hk].
      destruct (string_dec t t); [|congruence]. split; [lia|auto].
    + destruct (string_dec t t); [|congruence].
      assert (Hzero : count_occ string_dec l t = 0%nat).
      { apply count_occ_not_In. intros Hin'. apply Hfresh. auto. }
      rewrite Hzero. split; [reflexivity|]. right. simpl. auto.
  - intros k Hin. apply in_app_iff in Hin.
    destruct (in_dec string_dec t (map fst c)) as [Hin_t|Hnot_t].
    + rewrite incr_keys_old by assumption.
      destruct Hin as [Hin|[<-|[]]]; auto.
    + rewrite incr_new by assumption. rewrite map_app, in_app_iff. simpl.
      destruct Hin as [Hin|[<-|[]]]; auto.
  - assert (Hsame :
      StronglySorted
        (fun a b => (first_index a (l ++ [t]) < first_index b (l ++ [t]))%nat)
        (map fst c)).
    { revert Horder. apply sorted_weaken. intros a b Ha Hb Hlt.
      rewrite !first_index_app_in by auto. exact Hlt. }
    destruct (in_dec string_dec t (map fst c)) as [Hin_t|Hnot_t].
    + rewrite incr_keys_old by assumption. exact Hsame.
    + rewrite incr_new by assumption. rewrite map_app. simpl.
      apply sorted_snoc; [exact Hsame|].
      apply Forall_forall. intros a Ha.
      rewrite first_index_app_in by auto.
      rewrite first_index_app_new by (intros Hin; apply Hnot_t; auto).
      apply first_index_lt. auto.
Qed.

Lemma counted_fold (l : list string) : counted l (fold_left Py.incr l []).
Proof.
  induction l as [|t l IH] using rev_ind.
  - constructor; simpl; [contradiction | contradiction | constructor].
  - rewrite fold_left_app. simpl. apply counted_snoc. exact IH.
Qed.

(** [max] returns the first item among those of largest count. *)
Lemma max_by_count_first (rest before after : Py.Counter) (best : string * nat) :
  Forall (fun e => (snd e < snd best)%nat) before ->
  Forall (fun e => (snd e <= snd best)%nat) after ->
  exists before' after',
    before ++ best :: after ++ rest
    = before' ++ Py.max_by_count best rest :: after'
    /\ Forall (fun e => (snd e < snd (Py.max_by_count best rest))%nat) before'
    /\ Forall (fun e => (snd e <= snd (Py.max_by_count best rest))%nat) after'.
Proof.
  revert before after best.
  induction rest as [|x rest IH]; intros before after best Hbefore Hafter.
  - exists before, after. rewrite app_nil_r. auto.
  - unfold Py.max_by_count. simpl. fold (Py.max_by_count).
    destruct (Nat.ltb_spec (snd best) (snd x)) as [Hlt|Hge].
    + destruct (IH (before ++ best :: after) [] x) as (b' & a' & Heq & Hb & Ha).
      * apply Forall_app. split.
        { eapply Forall_impl; [|exact Hbefore]. simpl. intros; lia. }
        constructor; [exact Hlt|].
        eapply Forall_impl; [|exact Hafter]. simpl. intros; lia.
      * constructor.
      * exists b', a'. split; [|auto].
        change (Py.max_by_count x rest) with
          (fold_left (fun best item =>
                        if (snd best <? snd item)%nat then item else best) rest x)
          in Heq.
        rewrite <- Heq. simpl. rewrite <- app_assoc. reflexivity.
    + destruct (IH before (after ++ [x]) best) as (b' & a' & Heq & Hb & Ha).
      * exact Hbefore.
      * apply Forall_app. split; [exact Hafter|]. constructor; [exact Hge|constructor].
      * exists b', a'. split; [|auto].
        change (Py.max_by_count best rest) with
          (fold_left (fun best item =>
                        if (snd best <? snd item)%nat then item else best) rest best)
          in Heq.
        rewrite <- Heq. rewrite <- app_assoc. reflexivity.
Qed.

(** The loop of [decode] counts the candidates, in order. *)
Lemma tally_candidates (fragments : list (list byte)) (c : Py.Counter) :
  tally c fragments = fold_left Py.incr (candidates_of fragments) c.
Proof.
  unfold tally, candidates_of. revert c.
  induction fragments as [|f fragments IH]; intros c; simpl; [reflexivity|].
  rewrite fold_left_app, IH.
  destruct (bytearray_to_text f) as [text|]; simpl; [|reflexivity].
  destruct (negb (text =? "")%string); reflexivity.
Qed.

Lemma truthy_candidates (fragments : list (list byte)) :
  candidates_of fragments = []
  <-> Forall (fun f => Py.truthy (bytearray_to_text f) = false) fragments.
Proof.
  unfold candidates_of.
  induction fragments as [|f fragments IH]; simpl.
  - split; auto.
  - split.
    + intros Hnil. apply app_eq_nil in Hnil. destruct Hnil as [Hf Hrest].
      constructor; [|apply IH; exact Hrest].
      destruct (bytearray_to_text f) as [text|]; [|reflexivity].
      destruct (Py.truthy (Some text)); [discriminate|reflexivity].
    + intros Hall. inversion Hall as [|? ? Hf Hrest]; subst.
      rewrite (proj2 IH Hrest), app_nil_r.
      destruct (bytearray_to_text f) as [text|]; [|reflexivity].
      rewrite Hf. reflexivity.
Qed.

(** The candidate [decode_bits] returns, from the counter on. *)
Lemma decode_bits_winner (bits : list bool) :
  let texts := candidates_of (Py.split (bits_to_bytearray bits) terminator) in
  texts <> [] ->
  exists winner n before after,
    decode_bits bits = inr winner
    /\ fold_left Py.incr texts [] = before ++ (winner, n) :: after
    /\ Forall (fun e => (snd e < n)%nat) before
    /\ Forall (fun e => (snd e <= n)%nat) after.
Proof.
  intros texts Hne. unfold decode_bits. rewrite tally_candidates. fold texts.
  pose proof (counted_fold texts) as Hc.
  destruct (fold_left Py.incr texts []) as [|first rest] eqn:Hcounter.
  - exfalso. destruct texts as [|t texts']; [congruence|].
    assert (Hin : In t (map fst (@nil (string * nat)))).
    { apply (counted_keys _ _ Hc). left. reflexivity. }
    exact Hin.
  - simpl.
    destruct (max_by_count_first rest [] [] first) as (b & a & Heq & Hb & Ha);
      [constructor | constructor |].
    simpl in Heq. destruct (Py.max_by_count first rest) as [winner n] eqn:Hmax.
    exists winner, n, b, a. simpl in Hb, Ha. auto.
Qed.

Lemma sorted_middle (R : string -> string -> Prop) (l1 l2 : list string) (a : string) :
  StronglySorted R (l1 ++ a :: l2) -> Forall (R a) l2.
Proof.
  induction l1 as [|x l1 IH]; simpl; intros Hs; inversion Hs; subst; auto.
Qed.

(** C2. [decode], from the recovered bit stream on, splits the bytes on the
    four-zero-byte terminator and counts every fragment that
    [bytearray_to_text] decodes (to a truthy, that is non-empty, text: the
    candidates).  When there is a candidate it returns one of largest count,
    and among those of largest count the one met first in the stream.  In
    particular, when the fragments decode to "A", "A", "B" it returns "A".
    When [bytearray_to_text] never returns the empty text, the candidates
    are the texts of all the fragments that decode. *)
Theorem decode_majority_vote (bits : list bool) :
  let fragments := Py.split (bits_to_bytearray bits) terminator in
  let texts := candidates_of fragments in
  (texts <> [] ->
   exists winner,
     decode_bits bits = inr winner
     /\ In winner texts
     /\ (forall c, (count_occ string_dec texts c
                    <= count_occ string_dec texts winner)%nat)
     /\ (forall c, In c texts ->
           count_occ string_dec texts c = count_occ string_dec texts winner ->
           (first_index winner texts <= first_index c texts)%nat))
  /\ (map bytearray_to_text fragments = [Some "A"; Some "A"; Some "B"] ->
      decode_bits bits = inr "A")
  /\ ((forall f, bytearray_to_text f <> Some "") ->
      texts = flat_map (fun f => match bytearray_to_text f with
                                 | Some text => [text]
                                 | None => []
                                 end) fragments).
Proof.
  intros fragments texts. split; [|split].
  - intros Hne.
    destruct (decode_bits_winner bits Hne) as (winner & n & before & after & Hrun & Hc & Hb & Ha).
    fold fragments in Hc. fold texts in Hc.
    pose proof (counted_fold texts) as Hinv. rewrite Hc in Hinv.
    destruct Hinv as [Hcount Hkeys Horder].
    assert (Hwin : n = count_occ string_dec texts winner /\ In winner texts).
    { apply Hcount. apply in_app_iff. right. left. reflexivity. }
    destruct Hwin as [Hn Hin].
    assert (Hentry : forall c, In c texts ->
              In (c, count_occ string_dec texts c) (before ++ (winner, n) :: after)).
    { intros c Hc'. destruct (key_has_entry _ _ (Hkeys c Hc')) as [m Hm].
      destruct (Hcount _ _ Hm) as [-> _]. exact Hm. }
    exists winner. repeat split; [exact Hrun | exact Hin | |].
    + intros c. destruct (in_dec string_dec c texts) as [Hc'|Hc'].
      * specialize (Hentry c Hc'). apply in_app_iff in Hentry.
        rewrite Forall_forall in Hb, Ha.
        destruct Hentry as [Hin'|[Heq|Hin']].
        -- specialize (Hb _ Hin'). simpl in Hb. lia.
        -- injection Heq as <- Heq. lia.
        -- specialize (Ha _ Hin'). simpl in Ha. lia.
      * rewrite (proj1 (count_occ_not_In string_dec texts c) Hc'). lia.
    + intros c Hc' Htie. specialize (Hentry c Hc'). apply in_app_iff in Hentry.
      rewrite Forall_forall in Hb.
      destruct Hentry as [Hin'|[Heq|Hin']].
      * specialize (Hb _ Hin'). simpl in Hb. lia.
      * injection Heq as <- _. lia.
      * rewrite map_app in Horder. simpl in Horder.
        apply sorted_middle in Horder. rewrite Forall_forall in Horder.
        assert (Hlt : (first_index winner texts < first_index c texts)%nat).
        { apply Horder. change c with (fst (c, count_occ string_dec texts c)).
          apply in_map. exact Hin'. }
        lia.
  - intros Hdecoded. unfold decode_bits. rewrite tally_candidates.
    fold fragments. unfold candidates_of. rewrite Hdecoded. reflexivity.
  - intros Hnonempty. unfold texts, candidates_of. clear texts.
    induction fragments as [|f fragments' IH]; simpl; [reflexivity|].
    rewrite IH. f_equal. pose proof (Hnonempty f) as Hf.
    destruct (bytearray_to_text f) as [text|]; [|reflexivity]. simpl.
    destruct (String.eqb_spec text ""); [congruence | reflexivity].
Qed.

End MajorityVote.

(** The stream "A", terminator, "A", terminator, "B" under the codec of
    the spec. *)
Lemma decode_majority_vote_witness :
  let bits :=
    flat_map SpecUtils.bits_of_byte
      ["A"; x00; x00; x00; x00; "A"; x00; x00; x00; x00; "B"]%byte in
  map SpecUtils.bytearray_to_text
      (Py.split (SpecUtils.bits_to_bytearray bits) terminator)
  = [Some "A"; Some "A"; Some "B"]
  /\ decode_bits (U := SpecUtils.utils) bits = inr "A".
Proof.
  intros bits. split; [reflexivity|].
  apply (decode_majority_vote (U := SpecUtils.utils) bits). reflexivity.
Defined.

(** ** Failures of decode *)

Section DecodeFailures.

Context {B : Backend} {C : Components} {U : Utils}.

Lemma Qlt_bool_iff (x y : Q) : Qlt_bool x y = true <-> (x < y)%Q.
Proof.
  unfold Qlt_bool. rewrite negb_true_iff. split.
  - intros Hle. apply Qnot_le_lt. intros Hyx.
    apply Qle_bool_iff in Hyx. congruence.
  - intros Hlt. destruct (Qle_bool y x) eqn:Hle; [|reflexivity].
    apply Qle_bool_iff in Hle. exfalso. exact (Qlt_not_le _ _ Hlt Hle).
Qed.

(** An 8-bit pixel divided by 255 lies in [0, 1]. *)
Lemma normalize_unit (pixels : list byte) : Forall in_unit_interval (normalize pixels).
Proof.
  unfold normalize. apply Forall_forall. intros x Hx.
  apply in_map_iff in Hx. destruct Hx as (p & <- & _).
  pose proof (Byte.to_N_bounded p) as Hmax.
  unfold in_unit_interval, Qle. simpl. lia.
Qed.

Lemma threshold_at_zero (logits : tensor) :
  Forall2 (fun (b : bool) x => b = true <-> (0 < x)%Q)
          (map (fun x => Qlt_bool 0 x) logits) logits.
Proof.
  induction logits as [|x logits IH]; simpl; constructor; [|exact IH].
  apply Qlt_bool_iff.
Qed.

Lemma decode_bits_empty (bits : list bool) :
  candidates_of (Py.split (bits_to_bytearray bits) terminator) = [] ->
  decode_bits bits = inl DecodeError.
Proof.
  intros Hnil. unfold decode_bits. rewrite tally_candidates, Hnil. reflexivity.
Qed.

(** C3. [decode] raises the [ValueError] for an unreadable input exactly
    when the path does not exist.  Otherwise the image handed to the
    recoverer is the pixels divided by 255, so within [0, 1]; a bit is set
    exactly when its logit is above 0; and the [ValueError] for a message
    not found is raised exactly when no fragment between terminators
    decodes (none gives a truthy, that is non-empty, text).  A fragment that
    does not decode is passed over: no other failure arises, and one
    decodable fragment is enough for a text to be returned.  When
    [bytearray_to_text] never returns the empty text, the failure arises
    exactly when it fails on every fragment. *)
Theorem decode_failures (self : model) (exists_ : string -> option (list byte))
    (image : string) :
  (exists_ image = None <-> decode self exists_ image = inl (InputError image))
  /\ (forall pixels, exists_ image = Some pixels ->
       let input := normalize pixels in
       let logits := decoder (decoder_params self) (permute_2_1_0 input) in
       let bits := map (fun x => Qlt_bool 0 x) logits in
       let fragments := Py.split (bits_to_bytearray bits) terminator in
       Forall in_unit_interval input
       /\ Forall2 (fun (b : bool) x => b = true <-> (0 < x)%Q) bits logits
       /\ decode self exists_ image = decode_bits bits
       /\ (decode self exists_ image = inl DecodeError
           <-> Forall (fun f => Py.truthy (bytearray_to_text f) = false) fragments)
       /\ (forall e, decode self exists_ image = inl e -> e = DecodeError)
       /\ (Exists (fun f => Py.truthy (bytearray_to_text f) = true) fragments ->
           exists text, decode self exists_ image = inr text)
       /\ ((forall f, bytearray_to_text f <> Some "") ->
           (decode self exists_ image = inl DecodeError
            <-> Forall (fun f => bytearray_to_text f = None) fragments))).
Proof.
  assert (Hdistinct : forall path e, InputError path = e -> e <> DecodeError).
  { intros path e <-. unfold InputError, DecodeError. simpl. discriminate. }
  split.
  - unfold decode. destruct (exists_ image) as [pixels|] eqn:Hexists.
    + split; [discriminate|]. intros Hrun. exfalso.
      set (bits := map (fun x => Qlt_bool 0 x)
                       (decoder (decoder_params self) (permute_2_1_0 (normalize pixels)))) in *.
      destruct (list_eq_dec string_dec
                  (candidates_of (Py.split (bits_to_bytearray bits) terminator)) [])
        as [Hnil|Hne].
      * rewrite (decode_bits_empty bits Hnil) in Hrun.
        assert (Heq : InputError image = DecodeError) by congruence.
        exact (Hdistinct image _ eq_refl Heq).
      * destruct (decode_bits_winner bits Hne) as (w & ? & ? & ? & Hw & _).
        rewrite Hw in Hrun. discriminate.
    + split; reflexivity.
  - intros pixels Hexists input logits bits fragments.
    assert (Hrun : decode self exists_ image = decode_bits bits).
    { unfold decode. rewrite Hexists. reflexivity. }
    assert (Hcases :
      (candidates_of fragments = [] /\ decode_bits bits = inl DecodeError)
      \/ (candidates_of fragments <> [] /\ exists w, decode_bits bits = inr w)).
    { destruct (list_eq_dec string_dec (candidates_of fragments) []) as [Hnil|Hne].
      - left. split; [exact Hnil|]. apply decode_bits_empty. exact Hnil.
      - right. split; [exact Hne|].
        destruct (decode_bits_winner bits Hne) as (w & ? & ? & ? & Hw & _). eauto. }
    split; [apply normalize_unit|].
    split.
    { apply threshold_at_zero. }
    split; [exact Hrun|].
    assert (Hnone : (forall f, bytearray_to_text f <> Some "") ->
              (Forall (fun f => Py.truthy (bytearray_to_text f) = false) fragments
               <-> Forall (fun f => bytearray_to_text f = None) fragments)).
    { intros Hnonempty. rewrite !Forall_forall.
      split; intros Hall f Hf; specialize (Hall f Hf).
      - pose proof (Hnonempty f) as Hne'.
        destruct (bytearray_to_text f) as [text|]; [|reflexivity].
        simpl in Hall. destruct (String.eqb_spec text ""); [congruence|discriminate].
      - rewrite Hall. reflexivity. }
    rewrite Hrun. rewrite <- truthy_candidates in *.
    destruct Hcases as [[Hnil Hfail]|[Hne [w Hw]]].
    + split; [tauto|]. split; [|split].
      * intros e He. congruence.
      * intros Hex. exfalso. apply truthy_candidates in Hnil.
        rewrite Forall_forall in Hnil. apply Exists_exists in Hex.
        destruct Hex as (f & Hf & Htrue). rewrite (Hnil f Hf) in Htrue. discriminate.
      * intros Hnonempty. rewrite <- (Hnone Hnonempty). tauto.
    + split; [|split; [|split]].
      * split; [intros Hfail; congruence | intros Hnil; contradiction].
      * intros e He. congruence.
      * intros _. eauto.
      * intros Hnonempty. rewrite <- (Hnone Hnonempty).
        split; [intros Hfail; congruence | intros Hnil; contradiction].
Qed.

End DecodeFailures.

(** ** The metrics dict *)

Section MetricsDict.

Lemma append_metric_ok (metrics : metrics_dict) (key : string) (v : R) :
  In key (map fst metrics) -> exists metrics', append_metric metrics key v = inr metrics'.
Proof.
  induction metrics as [|[k l] rest IH]; simpl; intros Hin; [contradiction|].
  destruct (String.eqb_spec k key) as [_|Hne]; [eexists; reflexivity|].
  destruct Hin as [Heq|Hin]; [congruence|].
  destruct (IH Hin) as [rest' ->]. simpl. eexists; reflexivity.
Qed.

Lemma append_metric_spec (metrics metrics' : metrics_dict) (key : string) (v : R) :
  append_metric metrics key v = inr metrics' ->
  map fst metrics' = map fst metrics
  /\ forall k, values metrics' k
             = values metrics k ++ (if String.eqb key k then [v] else []).
Proof.
  revert metrics'. induction metrics as [|[k0 l] rest IH]; simpl; intros metrics' Hrun.
  - discriminate.
  - destruct (String.eqb_spec k0 key) as [->|Hne].
    + injection Hrun as <-. split; [reflexivity|]. intros k. simpl.
      destruct (String.eqb key k); [reflexivity | rewrite app_nil_r; reflexivity].
    + destruct (append_metric rest key v) as [e|rest'] eqn:Hrest; simpl in Hrun;
        [discriminate|].
      injection Hrun as <-. destruct (IH rest' eq_refl) as [Hkeys Hvalues].
      split; [simpl; f_equal; exact Hkeys|]. intros k. simpl.
      destruct (String.eqb_spec k0 k) as [->|Hne'].
      * destruct (String.eqb_spec key k); [congruence | rewrite app_nil_r; reflexivity].
      * apply Hvalues.
Qed.

Lemma append_all_spec (entries : list (string * R)) (metrics metrics' : metrics_dict) :
  append_all metrics entries = inr metrics' ->
  map fst metrics' = map fst metrics
  /\ forall k, values metrics' k = values metrics k ++ entries_for k entries.
Proof.
  revert metrics. induction entries as [|[key v] entries IH]; simpl; intros metrics Hrun.
  - injection Hrun as <-. split; [reflexivity|]. intros k.
    unfold entries_for. simpl. rewrite app_nil_r. reflexivity.
  - destruct (append_metric metrics key v) as [e|metrics1] eqn:Hone; simpl in Hrun;
      [discriminate|].
    destruct (append_metric_spec _ _ _ _ Hone) as [Hkeys1 Hvalues1].
    destruct (IH _ Hrun) as [Hkeys Hvalues].
    split; [congruence|]. intros k. rewrite Hvalues, Hvalues1, <- app_assoc.
    f_equal. unfold entries_for. simpl.
    destruct (String.eqb key k); reflexivity.
Qed.

Lemma append_all_ok (entries : list (string * R)) (metrics : metrics_dict) :
  incl (map fst entries) (map fst metrics) ->
  exists metrics', append_all metrics entries = inr metrics'.
Proof.
  revert metrics. induction entries as [|[key v] entries IH]; simpl; intros metrics Hincl.
  - eexists; reflexivity.
  - destruct (append_metric_ok metrics key v) as [metrics1 Hone].
    { apply Hincl. left. reflexivity. }
    rewrite Hone. simpl. apply IH.
    rewrite (proj1 (append_metric_spec _ _ _ _ Hone)).
    intros k Hk. apply Hincl. right. exact Hk.
Qed.

Lemma values_in (metrics : metrics_dict) (k : string) (l : list R) :
  NoDup (map fst metrics) -> In (k, l) metrics -> values metrics k = l.
Proof.
  induction metrics as [|[k0 l0] rest IH]; simpl; intros Hnd Hin; [contradiction|].
  inversion Hnd as [|? ? Hfresh Hnd']; subst.
  destruct Hin as [Heq|Hin].
  - injection Heq as -> ->. rewrite String.eqb_refl. reflexivity.
  - destruct (String.eqb_spec k0 k) as [->|_]; [|auto].
    exfalso. apply Hfresh. change k with (fst (k, l)). apply in_map. exact Hin.
Qed.

(** The means exist once every list has an entry, and the record pairs
    every key, in order, with the mean of its list. *)
Lemma reduce_metrics_ok (metrics : metrics_dict) :
  Forall (fun kv => snd kv <> []) metrics ->
  exists means, reduce_metrics metrics = inr means.
Proof.
  induction 1 as [|[k l] rest Hl Hrest IH]; simpl; [eexists; reflexivity|].
  destruct l as [|x l]; [simpl in Hl; congruence|]. simpl.
  destruct IH as [means ->]. simpl. eexists; reflexivity.
Qed.

Lemma reduce_metrics_spec (metrics : metrics_dict) (means : record) :
  reduce_metrics metrics = inr means ->
  Forall2 (fun (kv : string * list R) (kx : string * number) =>
             fst kx = fst kv /\ snd kv <> []
             /\ snd kx = Float (py_sum (snd kv) / INR (length (snd kv)))%R)
          metrics means.
Proof.
  revert means. induction metrics as [|[k l] rest IH]; simpl; intros means Hrun.
  - injection Hrun as <-. constructor.
  - destruct l as [|x l]; simpl in Hrun; [discriminate|].
    destruct (reduce_metrics rest) as [e|rest'] eqn:Hrest; simpl in Hrun; [discriminate|].
    injection Hrun as <-. constructor; [|apply IH; reflexivity].
    simpl. repeat split; congruence.
Qed.

Lemma setitem_new (d : record) (key : string) (v : number) :
  ~ In key (map fst d) -> setitem d key v = d ++ [(key, v)].
Proof.
  induction d as [|[k x] d IH]; simpl; intros Hnot; [reflexivity|].
  destruct (String.eqb_spec k key) as [Heq|_]; [tauto|]. f_equal. tauto.
Qed.

Lemma getitem_ok (d : record) (key : string) :
  In key (map fst d) -> exists v, getitem d key = inr v.
Proof.
  induction d as [|[k x] d IH]; simpl; intros Hin; [contradiction|].
  destruct (String.eqb_spec k key) as [_|Hne]; [eexists; reflexivity|].
  destruct Hin as [Heq|Hin]; [congruence|auto].
Qed.

End MetricsDict.

(** ** The critic phase *)

Section CriticPhase.

Context {B : Backend} {C : Components}.

Lemma clamp_in_clip_range (x : Q) : in_clip_range (clamp (- (1 # 10)) (1 # 10) x).
Proof.
  unfold in_clip_range, clamp.
  destruct (Qle_bool x (- (1 # 10))) eqn:Hlo.
  - split; [apply Qle_refl | discriminate].
  - destruct (Qle_bool (1 # 10) x) eqn:Hhi.
    + split; [discriminate | apply Qle_refl].
    + split.
      * apply Qlt_le_weak, Qnot_le_lt. intros Hle.
        apply Qle_bool_iff in Hle. congruence.
      * apply Qlt_le_weak, Qnot_le_lt. intros Hle.
        apply Qle_bool_iff in Hle. congruence.
Qed.

(** What one iteration of the critic loop does when it completes. *)
Lemma fit_critic_batch_inr (self self' : model) (g g' : rng)
    (metrics metrics' : metrics_dict) (cover : tensor) :
  fit_critic_batch self g metrics cover = inr (self', g', metrics') ->
  let generated := encoder (encoder_params self) cover (fst (_random_data self g cover)) in
  exists opt,
    critic_optimizer self = Some opt
    /\ self' = set_critic self
         (map (clamp (- (1 # 10)) (1 # 10))
              (snd (adam_step opt (critic_params self)
                      (grad (critic_backward_scalar cover generated) (critic_params self)))))
         (fst (adam_step opt (critic_params self)
                 (grad (critic_backward_scalar cover generated) (critic_params self))))
    /\ g' = snd (_random_data self g cover)
    /\ append_all metrics
         [("train.cover_score", item (_critic (critic_params self) cover));
          ("train.generated_score", item (_critic (critic_params self) generated))]
       = inr metrics'.
Proof.
  intros Hrun generated. subst generated. unfold fit_critic_batch in Hrun.
  destruct (_random_data self g cover) as [payload g1]. simpl fst; simpl snd.
  destruct (critic_optimizer self) as [opt|]; [|discriminate].
  exists opt. split; [reflexivity|].
  destruct (adam_step opt (critic_params self) _) as [opt' theta].
  destruct (append_all metrics _) as [e|metrics1] eqn:Happend; simpl in Hrun;
    [discriminate|].
  injection Hrun as <- <- <-. auto.
Qed.

Lemma fit_critic_batch_ok (self : model) (g : rng) (metrics : metrics_dict)
    (cover : tensor) :
  critic_optimizer self <> None ->
  incl ["train.cover_score"; "train.generated_score"] (map fst metrics) ->
  exists self' g' metrics',
    fit_critic_batch self g metrics cover = inr (self', g', metrics')
    /\ critic_optimizer self' <> None.
Proof.
  intros Hopt Hkeys. unfold fit_critic_batch.
  destruct (_random_data self g cover) as [payload g1].
  destruct (critic_optimizer self) as [opt|]; [|congruence].
  destruct (adam_step opt (critic_params self) _) as [opt' theta].
  match goal with |- context [append_all metrics ?es] =>
    destruct (append_all_ok es metrics Hkeys) as [metrics1 ->] end.
  simpl. do 3 eexists. split; [reflexivity|]. simpl. discriminate.
Qed.

Lemma fit_critic_app (done rest : list tensor) (self : model) (g : rng)
    (metrics : metrics_dict) :
  _fit_critic self g metrics (done ++ rest)
  = (st <- _fit_critic self g metrics done ;;
     let '(self', g', metrics') := st in _fit_critic self' g' metrics' rest).
Proof.
  revert self g metrics. induction done as [|cover done IH]; intros self g metrics; simpl.
  - reflexivity.
  - destruct (fit_critic_batch self g metrics cover) as [e|[[self1 g1] metrics1]];
      simpl; [reflexivity|]. apply IH.
Qed.

Lemma fit_critic_ok (train : list tensor) (self : model) (g : rng)
    (metrics : metrics_dict) :
  critic_optimizer self <> None ->
  incl ["train.cover_score"; "train.generated_score"] (map fst metrics) ->
  exists final, _fit_critic self g metrics train = inr final.
Proof.
  revert self g metrics.
  induction train as [|cover train IH]; intros s g0 m Hopt Hkeys; simpl.
  - eexists; reflexivity.
  - destruct (fit_critic_batch_ok s g0 m cover Hopt Hkeys)
      as (s1 & g1 & m1 & Hone & Hopt1).
    rewrite Hone. simpl. apply IH; [exact Hopt1|].
    destruct (fit_critic_batch_inr _ _ _ _ _ _ _ Hone) as (_ & _ & _ & _ & Happend).
    rewrite (proj1 (append_all_spec _ _ _ Happend)). exact Hkeys.
Qed.


(** C5. When an iteration of the critic phase completes, every parameter of
    the critic lies in [-0.1, 0.1].  Hence, when the phase completes on the
    training batches, it has passed, after each of its iterations, through a
    state whose critic parameters all lie in that range.  The phase does
    complete when the critic's optimizer exists and the metrics dict has the
    two keys it appends to, as [fit] arranges. *)
Theorem critic_parameters_clipped (self : model) (g : rng) (metrics : metrics_dict) :
  (forall cover self' g' metrics',
     fit_critic_batch self g metrics cover = inr (self', g', metrics') ->
     Forall in_clip_range (critic_params self'))
  /\ (forall done rest final,
        done <> [] ->
        _fit_critic self g metrics (done ++ rest) = inr final ->
        exists self' g' metrics',
          _fit_critic self g metrics done = inr (self', g', metrics')
          /\ Forall in_clip_range (critic_params self')
          /\ _fit_critic self' g' metrics' rest = inr final)
  /\ (forall train,
        critic_optimizer self <> None ->
        incl ["train.cover_score"; "train.generated_score"] (map fst metrics) ->
        exists final, _fit_critic self g metrics train = inr final).
Proof.
  assert (Hstep : forall s g0 m cover s' g' m',
            fit_critic_batch s g0 m cover = inr (s', g', m') ->
            Forall in_clip_range (critic_params s')).
  { intros s g0 m cover s' g' m' Hrun.
    destruct (fit_critic_batch_inr _ _ _ _ _ _ _ Hrun) as (opt & _ & -> & _).
    simpl. apply Forall_forall. intros x Hx.
    apply in_map_iff in Hx. destruct Hx as (y & <- & _).
    apply clamp_in_clip_range. }
  split; [intros cover self' g' metrics'; apply Hstep|].
  split.
  - intros done rest final Hne Hrun. rewrite fit_critic_app in Hrun.
    destruct (_fit_critic self g metrics done) as [e|[[self' g'] metrics']] eqn:Hdone;
      simpl in Hrun; [discriminate|].
    exists self', g', metrics'. split; [reflexivity|]. split; [|exact Hrun].
    clear Hrun. revert self g metrics Hdone.
    induction done as [|cover done IH]; intros s g0 m Hdone; [congruence|].
    simpl in Hdone.
    destruct (fit_critic_batch s g0 m cover) as [e|[[s1 g1] m1]] eqn:Hone;
      simpl in Hdone; [discriminate|].
    destruct done as [|cover' done'].
    + simpl in Hdone. injection Hdone as <- <- <-. exact (Hstep _ _ _ _ _ _ _ Hone).
    + apply (IH ltac:(discriminate) s1 g1 m1 Hdone).
  - intros train. apply fit_critic_ok.
Qed.

End CriticPhase.


(** ** The coder phase *)

Section CoderPhase.

Context {B : Backend} {T : Transforms} {C : Components}.

(** What one iteration of the coder loop does when it completes. *)
Lemma fit_coders_batch_inr (self self' : model) (g g' : rng)
    (metrics metrics' : metrics_dict) (transform : option string)
    (transform_prob : Q) (cover : tensor) :
  fit_coders_batch self g metrics transform transform_prob cover
  = inr (self', g', metrics') ->
  let batch_transform := batch_transform_of g transform transform_prob in
  let payload := fst (_random_data self (snd (rand g)) cover) in
  let g1 := snd (_random_data self (snd (rand g)) cover) in
  let generated := encoder (encoder_params self) cover payload in
  let transformed := fst (apply_transform batch_transform g1 generated) in
  let decoded_g := decoder (decoder_params self) generated in
  let decoded_t := decoder (decoder_params self) transformed in
  let _dec_list := decoder_params self ++ encoder_params self in
  exists opt,
    decoder_optimizer self = Some opt
    /\ (let stepped :=
          adam_step opt _dec_list
            (grad (coder_backward_scalar self cover payload batch_transform g1)
                  _dec_list) in
        self' = set_coders self
                  (skipn (length (decoder_params self)) (snd stepped))
                  (firstn (length (decoder_params self)) (snd stepped))
                  (fst stepped))
    /\ g' = snd (apply_transform batch_transform g1 generated)
    /\ append_all metrics
         [("train.perceptual_loss", item (perceptual_distance cover generated));
          ("train.encoder_mse", item (mse_loss generated cover));
          ("train.decoder_loss_t",
           item (binary_cross_entropy_with_logits decoded_t payload));
          ("train.decoder_loss_g",
           item (binary_cross_entropy_with_logits decoded_g payload));
          ("train.decoder_acc_t",
           item (snd (_coding_scores cover generated payload decoded_t)));
          ("train.decoder_acc_g",
           item (snd (_coding_scores cover generated payload decoded_g)))]
       = inr metrics'.
Proof.
  intros Hrun. cbv zeta. unfold batch_transform_of.
  unfold fit_coders_batch, encode_decode_with, _coding_scores in *.
  destruct (rand g) as [r g0]. cbn [fst snd] in *.
  destruct (_random_data self g0 cover) as [payload g1]. cbn [fst snd] in *.
  destruct (apply_transform _ g1 _) as [transformed g2]. cbn [fst snd] in *.
  cbv beta iota zeta in Hrun.
  destruct (decoder_optimizer self) as [opt|]; [|discriminate].
  exists opt. split; [reflexivity|].
  destruct (adam_step opt _ _) as [opt' p].
  destruct (append_all metrics _) as [e|metrics1] eqn:Happend; simpl in Hrun;
    [discriminate|].
  injection Hrun as <- <- <-. auto.
Qed.

Lemma fit_coders_batch_ok (self : model) (g : rng) (metrics : metrics_dict)
    (transform : option string) (transform_prob : Q) (cover : tensor) :
  decoder_optimizer self <> None ->
  incl coder_keys (map fst metrics) ->
  exists self' g' metrics',
    fit_coders_batch self g metrics transform transform_prob cover
    = inr (self', g', metrics')
    /\ decoder_optimizer self' <> None.
Proof.
  intros Hopt Hkeys. unfold fit_coders_batch, encode_decode_with, _coding_scores.
  destruct (rand g) as [r g0].
  destruct (_random_data self g0 cover) as [payload g1].
  destruct (apply_transform _ g1 _) as [transformed g2]. cbv beta iota zeta.
  destruct (decoder_optimizer self) as [opt|]; [|congruence].
  destruct (adam_step opt _ _) as [opt' p].
  match goal with |- context [append_all metrics ?es] =>
    destruct (append_all_ok es metrics Hkeys) as [metrics1 ->] end.
  simpl. do 3 eexists. split; [reflexivity|]. simpl. discriminate.
Qed.

Lemma split_dec_list (dec enc : params) :
  firstn (length dec) (dec ++ enc) = dec /\ skipn (length dec) (dec ++ enc) = enc.
Proof.
  split.
  - rewrite firstn_app, Nat.sub_diag, firstn_all. simpl. apply app_nil_r.
  - rewrite skipn_app, Nat.sub_diag, skipn_all. reflexivity.
Qed.

(** C6. In every iteration of the coder phase the scalar handed to
    [backward], taken at the current parameters of the recoverer and the
    embedder, is [100 * encoder_mse + (decoder_loss_g + decoder_loss_t) / 2
    + critic_score(generated)] of the batch; the perceptual loss is added
    to it when the flag [perceptual_loss] is set, and only then.  The
    parameters after the iteration are the optimizer's step on the gradient
    of this scalar. *)
Theorem coder_total_loss (self : model) (g : rng) (metrics : metrics_dict)
    (transform : option string) (transform_prob : Q) (cover : tensor) :
  let batch_transform := batch_transform_of g transform transform_prob in
  let payload := fst (_random_data self (snd (rand g)) cover) in
  let g1 := snd (_random_data self (snd (rand g)) cover) in
  let generated := encoder (encoder_params self) cover payload in
  let transformed := fst (apply_transform batch_transform g1 generated) in
  let encoder_mse := mse_loss generated cover in
  let decoder_loss_g :=
    binary_cross_entropy_with_logits (decoder (decoder_params self) generated) payload in
  let decoder_loss_t :=
    binary_cross_entropy_with_logits (decoder (decoder_params self) transformed) payload in
  let generated_score := _critic (critic_params self) generated in
  let base :=
    (100 * encoder_mse + (decoder_loss_g + decoder_loss_t) / 2 + generated_score)%Q in
  let _dec_list := decoder_params self ++ encoder_params self in
  let scalar := coder_backward_scalar self cover payload batch_transform g1 in
  (perceptual_loss self = true ->
   scalar _dec_list = (base + perceptual_distance cover generated)%Q)
  /\ (perceptual_loss self = false -> scalar _dec_list = base)
  /\ (forall self' g' metrics',
        fit_coders_batch self g metrics transform transform_prob cover
        = inr (self', g', metrics') ->
        exists opt,
          decoder_optimizer self = Some opt
          /\ decoder_params self' ++ encoder_params self'
             = snd (adam_step opt _dec_list (grad scalar _dec_list))
          /\ critic_params self' = critic_params self
          /\ values metrics' "train.encoder_mse"
             = values metrics "train.encoder_mse" ++ [item encoder_mse]
          /\ values metrics' "train.decoder_loss_g"
             = values metrics "train.decoder_loss_g" ++ [item decoder_loss_g]
          /\ values metrics' "train.decoder_loss_t"
             = values metrics "train.decoder_loss_t" ++ [item decoder_loss_t]).
Proof.
  cbv zeta.
  assert (Hscalar :
    coder_backward_scalar self cover
      (fst (_random_data self (snd (rand g)) cover))
      (batch_transform_of g transform transform_prob)
      (snd (_random_data self (snd (rand g)) cover))
      (decoder_params self ++ encoder_params self)
    = total_loss (perceptual_loss self)
        (mse_loss (encoder (encoder_params self) cover
                     (fst (_random_data self (snd (rand g)) cover))) cover)
        (binary_cross_entropy_with_logits
           (decoder (decoder_params self)
              (encoder (encoder_params self) cover
                 (fst (_random_data self (snd (rand g)) cover))))
           (fst (_random_data self (snd (rand g)) cover)))
        (binary_cross_entropy_with_logits
           (decoder (decoder_params self)
              (fst (apply_transform (batch_transform_of g transform transform_prob)
                      (snd (_random_data self (snd (rand g)) cover))
                      (encoder (encoder_params self) cover
                         (fst (_random_data self (snd (rand g)) cover))))))
           (fst (_random_data self (snd (rand g)) cover)))
        (_critic (critic_params self)
           (encoder (encoder_params self) cover
              (fst (_random_data self (snd (rand g)) cover))))
        (perceptual_distance cover
           (encoder (encoder_params self) cover
              (fst (_random_data self (snd (rand g)) cover))))).
  { unfold coder_backward_scalar, encode_decode_with, _coding_scores.
    destruct (split_dec_list (decoder_params self) (encoder_params self)) as [-> ->].
    destruct (apply_transform _ _ _) as [transformed g2]. reflexivity. }
  split; [|split].
  - intros Hflag. rewrite Hscalar. unfold total_loss. rewrite Hflag. reflexivity.
  - intros Hflag. rewrite Hscalar. unfold total_loss. rewrite Hflag. reflexivity.
  - intros self' g' metrics' Hrun.
    destruct (fit_coders_batch_inr _ _ _ _ _ _ _ _ _ Hrun)
      as (opt & Hopt & Hself & _ & Happend).
    cbv zeta in Hself. exists opt. split; [exact Hopt|].
    destruct (append_all_spec _ _ _ Happend) as [_ Hvalues].
    rewrite !Hvalues. subst self'. simpl.
    rewrite firstn_skipn. repeat split; reflexivity.
Qed.

End CoderPhase.

(** ** The validation phase *)

Section ValidationPhase.

Context {B : Backend} {T : Transforms} {C : Components}.

(** The entries of one validation batch, written out: every one is computed
    from the quantized image. *)
Lemma validate_entries_eq (self : model) (g : rng) (cover : tensor)
    (transform : option string) :
  let payload := fst (_random_data self g cover) in
  let g1 := snd (_random_data self g cover) in
  let generated := map quantize_entry (encoder (encoder_params self) cover payload) in
  let transformed := fst (apply_transform transform g1 generated) in
  let decoded_g := decoder (decoder_params self) generated in
  let decoded_t := decoder (decoder_params self) transformed in
  let encoder_mse := mse_loss generated cover in
  let decoder_acc_g := snd (_coding_scores cover generated payload decoded_g) in
  let decoder_acc_t := snd (_coding_scores cover generated payload decoded_t) in
  validate_entries self g cover transform
  = ([("val.perceptual_loss", item (perceptual_distance cover generated));
      ("val.encoder_mse", item encoder_mse);
      ("val.decoder_loss_g",
       item (binary_cross_entropy_with_logits decoded_g payload));
      ("val.decoder_loss_t",
       item (binary_cross_entropy_with_logits decoded_t payload));
      ("val.decoder_acc_g", item decoder_acc_g);
      ("val.decoder_acc_t", item decoder_acc_t);
      ("val.cover_score", item (_critic (critic_params self) cover));
      ("val.generated_score", item (_critic (critic_params self) generated));
      ("val.ssim", item (ssim cover generated));
      ("val.psnr", (10 * log10 (4 / item encoder_mse))%R);
      ("val.bpp_g", (IZR (data_depth self) * (2 * item decoder_acc_g - 1))%R);
      ("val.bpp_t", (IZR (data_depth self) * (2 * item decoder_acc_t - 1))%R)],
     snd (apply_transform transform g1 generated)).
Proof.
  cbv zeta. unfold validate_entries, _encode_decode, encode_decode_with, _coding_scores.
  destruct (_random_data self g cover) as [payload g1]. cbn [fst snd].
  destruct (apply_transform transform g1 _) as [transformed g2]. reflexivity.
Qed.

Lemma validate_entries_keys (self : model) (g : rng) (cover : tensor)
    (transform : option string) :
  map fst (fst (validate_entries self g cover transform)) = val_keys.
Proof. rewrite validate_entries_eq. reflexivity. Qed.

(** The lists of the metrics dict after [_validate]. *)
Lemma validate_records (self : model) (validate : list tensor)
    (transform : option string) (g g' : rng) (metrics metrics' : metrics_dict) :
  _validate self g metrics validate transform = inr (g', metrics') ->
  map fst metrics' = map fst metrics
  /\ forall k, values metrics' k
             = values metrics k
               ++ flat_map (entries_for k) (validate_run self g validate transform).
Proof.
  revert g metrics. induction validate as [|cover validate IH]; intros g metrics Hrun;
    simpl in Hrun.
  - injection Hrun as <- <-. split; [reflexivity|]. intros k. simpl.
    rewrite app_nil_r. reflexivity.
  - unfold validate_batch in Hrun.
    destruct (validate_entries self g cover transform) as [entries g1] eqn:Hentries.
    destruct (append_all metrics entries) as [e|metrics1] eqn:Happend; simpl in Hrun;
      [discriminate|].
    destruct (append_all_spec _ _ _ Happend) as [Hkeys1 Hvalues1].
    destruct (IH _ _ Hrun) as [Hkeys Hvalues].
    split; [congruence|]. intros k. rewrite Hvalues, Hvalues1, <- app_assoc.
    simpl. rewrite Hentries. reflexivity.
Qed.

Lemma validate_ok (self : model) (validate : list tensor) (transform : option string)
    (g : rng) (metrics : metrics_dict) :
  incl val_keys (map fst metrics) ->
  exists result, _validate self g metrics validate transform = inr result.
Proof.
  revert g metrics. induction validate as [|cover validate IH]; intros g metrics Hkeys;
    simpl.
  - eexists; reflexivity.
  - unfold validate_batch.
    pose proof (validate_entries_keys self g cover transform) as Hk.
    destruct (validate_entries self g cover transform) as [entries g1]. simpl in Hk.
    destruct (append_all_ok entries metrics) as [metrics1 Happend].
    { rewrite Hk. exact Hkeys. }
    rewrite Happend. simpl. apply IH.
    rewrite (proj1 (append_all_spec _ _ _ Happend)). exact Hkeys.
Qed.

(** The accuracy is a count of matching positions over the number of
    positions. *)
Lemma count_matches_le (decoded payload : tensor) :
  (count_matches decoded payload <= length payload)%nat.
Proof.
  unfold count_matches.
  eapply Nat.le_trans; [apply filter_length_le|].
  rewrite length_combine. apply Nat.le_min_r.
Qed.

Lemma decoder_acc_unit (cover generated payload decoded : tensor) :
  payload <> [] ->
  in_unit_interval (snd (_coding_scores cover generated payload decoded)).
Proof.
  intros Hne. unfold _coding_scores. cbn [snd].
  pose proof (count_matches_le decoded payload) as Hle.
  assert (Hpos : (0 < inject_Z (Z.of_nat (length payload)))%Q).
  { destruct payload; [congruence|]. change 0%Q with (inject_Z 0).
    rewrite <- Zlt_Qlt. simpl length. lia. }
  split.
  - apply Qle_shift_div_l; [exact Hpos|]. rewrite Qmult_0_l.
    change 0%Q with (inject_Z 0). rewrite <- Zle_Qle. lia.
  - apply Qle_shift_div_r; [exact Hpos|]. rewrite Qmult_1_l.
    rewrite <- Zle_Qle. lia.
Qed.

Lemma bpp_bounds (depth : Z) (acc : Q) :
  (0 <= depth)%Z -> in_unit_interval acc ->
  (- IZR depth <= IZR depth * (2 * item acc - 1) <= IZR depth)%R.
Proof.
  intros Hdepth [Hlo Hhi]. unfold item.
  apply Qreals.Qle_Rle in Hlo, Hhi. rewrite RMicromega.Q2R_0 in Hlo.
  rewrite RMicromega.Q2R_1 in Hhi.
  apply IZR_le in Hdepth.
  split; Lra.nra.
Qed.

(** A metric that every batch appends once is, over the run, the list of
    its per-batch values. *)
Lemma run_entries (key : string) (f : Q * Q * Q -> R) (self : model)
    (transform : option string) :
  (forall g cover,
     entries_for key (fst (validate_entries self g cover transform))
     = [f (batch_scores self g cover transform)]) ->
  forall validate g,
    flat_map (entries_for key) (validate_run self g validate transform)
    = map f (validate_scores self g validate transform).
Proof.
  intros Hbatch validate.
  induction validate as [|cover validate IH]; intros g; simpl; [reflexivity|].
  rewrite Hbatch, IH. reflexivity.
Qed.

Lemma batch_entry_mse (self : model) (transform : option string) (g : rng)
    (cover : tensor) :
  entries_for "val.encoder_mse" (fst (validate_entries self g cover transform))
  = [item (mse_of (batch_scores self g cover transform))].
Proof. rewrite validate_entries_eq. reflexivity. Qed.

Lemma batch_entry_psnr (self : model) (transform : option string) (g : rng)
    (cover : tensor) :
  entries_for "val.psnr" (fst (validate_entries self g cover transform))
  = [(10 * log10 (4 / item (mse_of (batch_scores self g cover transform))))%R].
Proof. rewrite validate_entries_eq. reflexivity. Qed.

Lemma batch_entry_acc_g (self : model) (transform : option string) (g : rng)
    (cover : tensor) :
  entries_for "val.decoder_acc_g" (fst (validate_entries self g cover transform))
  = [item (acc_g_of (batch_scores self g cover transform))].
Proof. rewrite validate_entries_eq. reflexivity. Qed.

Lemma batch_entry_acc_t (self : model) (transform : option string) (g : rng)
    (cover : tensor) :
  entries_for "val.decoder_acc_t" (fst (validate_entries self g cover transform))
  = [item (acc_t_of (batch_scores self g cover transform))].
Proof. rewrite validate_entries_eq. reflexivity. Qed.

Lemma batch_entry_bpp_g (self : model) (transform : option string) (g : rng)
    (cover : tensor) :
  entries_for "val.bpp_g" (fst (validate_entries self g cover transform))
  = [(IZR (data_depth self)
      * (2 * item (acc_g_of (batch_scores self g cover transform)) - 1))%R].
Proof. rewrite validate_entries_eq. reflexivity. Qed.

Lemma batch_entry_bpp_t (self : model) (transform : option string) (g : rng)
    (cover : tensor) :
  entries_for "val.bpp_t" (fst (validate_entries self g cover transform))
  = [(IZR (data_depth self)
      * (2 * item (acc_t_of (batch_scores self g cover transform)) - 1))%R].
Proof. rewrite validate_entries_eq. reflexivity. Qed.

Lemma validate_scores_unit (self : model) (transform : option string)
    (validate : list tensor) :
  (forall g cover, In cover validate -> fst (_random_data self g cover) <> []) ->
  forall g,
    Forall (fun s => in_unit_interval (acc_g_of s) /\ in_unit_interval (acc_t_of s))
           (validate_scores self g validate transform).
Proof.
  induction validate as [|cover validate IH]; intros Hpayload g; simpl;
    constructor.
  - unfold batch_scores, acc_g_of, acc_t_of. cbn [fst snd].
    split; apply decoder_acc_unit; apply Hpayload; left; reflexivity.
  - apply IH. intros g0 c Hc. apply Hpayload. right. exact Hc.
Qed.

(** C7. [decoder_acc], the count of positions where the thresholded logit
    agrees with the payload bit over the number of positions, lies in
    [0, 1] for every batch (with a payload that has entries).  For every
    validation batch the value recorded under [val.bpp_g] is
    [data_depth * (2 * decoder_acc_g - 1)], and likewise for the transformed
    branch, so it lies between [-data_depth] and [data_depth]. *)
Theorem accuracy_and_bpp_bounds (self : model) (g : rng) (metrics : metrics_dict)
    (validate : list tensor) (transform : option string) :
  (0 <= data_depth self)%Z ->
  (forall g0 cover, In cover validate -> fst (_random_data self g0 cover) <> []) ->
  (forall cover generated payload decoded,
     payload <> [] ->
     in_unit_interval (snd (_coding_scores cover generated payload decoded)))
  /\ (forall g' metrics',
        _validate self g metrics validate transform = inr (g', metrics') ->
        let scores := validate_scores self g validate transform in
        let bpp := fun acc : Q => (IZR (data_depth self) * (2 * item acc - 1))%R in
        length scores = length validate
        /\ Forall (fun s => in_unit_interval (acc_g_of s)
                            /\ in_unit_interval (acc_t_of s)) scores
        /\ values metrics' "val.decoder_acc_g"
           = values metrics "val.decoder_acc_g" ++ map (fun s => item (acc_g_of s)) scores
        /\ values metrics' "val.decoder_acc_t"
           = values metrics "val.decoder_acc_t" ++ map (fun s => item (acc_t_of s)) scores
        /\ values metrics' "val.bpp_g"
           = values metrics "val.bpp_g" ++ map (fun s => bpp (acc_g_of s)) scores
        /\ values metrics' "val.bpp_t"
           = values metrics "val.bpp_t" ++ map (fun s => bpp (acc_t_of s)) scores
        /\ Forall (fun s =>
                     (- IZR (data_depth self) <= bpp (acc_g_of s)
                      <= IZR (data_depth self))%R
                     /\ (- IZR (data_depth self) <= bpp (acc_t_of s)
                         <= IZR (data_depth self))%R) scores).
Proof.
  intros Hdepth Hpayload. split; [intros; apply decoder_acc_unit; assumption|].
  intros g' metrics' Hrun scores bpp.
  destruct (validate_records _ _ _ _ _ _ _ Hrun) as [_ Hvalues].
  pose proof (validate_scores_unit self transform validate Hpayload g) as Hunit.
  fold scores in Hunit.
  split.
  { unfold scores. clear. revert g.
    induction validate as [|cover validate IH]; intros g; simpl; [reflexivity|].
    f_equal. apply IH. }
  split; [exact Hunit|].
  rewrite !Hvalues.
  rewrite (run_entries "val.decoder_acc_g" (fun s => item (acc_g_of s)))
    by (intros; apply batch_entry_acc_g).
  rewrite (run_entries "val.decoder_acc_t" (fun s => item (acc_t_of s)))
    by (intros; apply batch_entry_acc_t).
  rewrite (run_entries "val.bpp_g" (fun s => bpp (acc_g_of s)))
    by (intros; apply batch_entry_bpp_g).
  rewrite (run_entries "val.bpp_t" (fun s => bpp (acc_t_of s)))
    by (intros; apply batch_entry_bpp_t).
  repeat (split; [reflexivity|]).
  eapply Forall_impl; [|exact Hunit].
  intros s [Hg Ht]. split; apply bpp_bounds; assumption.
Qed.

Lemma log10_4_bounds : (602 / 1000 < log10 4 < 603 / 1000)%R.
Proof.
  unfold log10.
  assert (Hlow : (10 ^ 301 < 4 ^ 500)%R).
  { rewrite !pow_IZR. apply IZR_lt. vm_compute. reflexivity. }
  assert (Hhigh : (4 ^ 1000 < 10 ^ 603)%R).
  { rewrite !pow_IZR. apply IZR_lt. vm_compute. reflexivity. }
  assert (H10 : (0 < ln 10)%R).
  { rewrite <- ln_1. apply ln_increasing; Lra.lra. }
  apply ln_increasing in Hlow; [|apply pow_lt; Lra.lra].
  apply ln_increasing in Hhigh; [|apply pow_lt; Lra.lra].
  rewrite !ln_pow in Hlow, Hhigh by Lra.lra.
  rewrite !INR_IZR_INZ in Hlow, Hhigh.
  change (Z.of_nat 301) with 301%Z in Hlow.
  change (Z.of_nat 500) with 500%Z in Hlow.
  change (Z.of_nat 1000) with 1000%Z in Hhigh.
  change (Z.of_nat 603) with 603%Z in Hhigh.
  split.
  - apply Rmult_lt_reg_r with (ln 10); [exact H10|].
    unfold Rdiv at 2. rewrite Rmult_assoc, Rinv_l by Lra.lra. Lra.lra.
  - apply Rmult_lt_reg_r with (ln 10); [exact H10|].
    unfold Rdiv at 1. rewrite Rmult_assoc, Rinv_l by Lra.lra. Lra.lra.
Qed.

(** C8. For every validation batch the value recorded under [val.psnr] is
    [10 * log10(4 / encoder_mse)] of the [encoder_mse] recorded for that
    batch.  At [encoder_mse = 1.0] this is [10 * log10(4)], which lies
    between 6.02 and 6.03. *)
Theorem psnr_recorded (self : model) (g : rng) (metrics : metrics_dict)
    (validate : list tensor) (transform : option string) :
  let psnr := fun encoder_mse : R => (10 * log10 (4 / encoder_mse))%R in
  (forall g' metrics',
     _validate self g metrics validate transform = inr (g', metrics') ->
     let mses := map (fun s => item (mse_of s))
                     (validate_scores self g validate transform) in
     values metrics' "val.encoder_mse" = values metrics "val.encoder_mse" ++ mses
     /\ values metrics' "val.psnr" = values metrics "val.psnr" ++ map psnr mses)
  /\ psnr 1%R = (10 * log10 4)%R
  /\ (602 / 100 < psnr 1 < 603 / 100)%R.
Proof.
  intros psnr. split; [|split].
  - intros g' metrics' Hrun mses.
    destruct (validate_records _ _ _ _ _ _ _ Hrun) as [_ Hvalues].
    rewrite !Hvalues.
    rewrite (run_entries "val.encoder_mse" (fun s => item (mse_of s)))
      by (intros; apply batch_entry_mse).
    rewrite (run_entries "val.psnr" (fun s => psnr (item (mse_of s))))
      by (intros; apply batch_entry_psnr).
    unfold mses. rewrite map_map. split; reflexivity.
  - unfold psnr. rewrite Rdiv_1_r. reflexivity.
  - unfold psnr. rewrite Rdiv_1_r. pose proof log10_4_bounds. Lra.lra.
Qed.

End ValidationPhase.

(** A validation run of the toy instance: two batches, depth 1. *)
Lemma accuracy_and_bpp_bounds_witness :
  (0 <= data_depth Toy.model0)%Z
  /\ exists g' metrics',
       _validate (T := Toy.transforms) (C := Toy.components)
         Toy.model0 0%nat fresh_metrics Toy.batches None = inr (g', metrics')
       /\ length (values metrics' "val.bpp_g") = 2%nat
       /\ Forall (fun bpp => (- (1) <= bpp <= 1)%R) (values metrics' "val.bpp_g").
Proof.
  split; [simpl; lia|].
  destruct (validate_ok (T := Toy.transforms) (C := Toy.components)
              Toy.model0 Toy.batches None 0%nat fresh_metrics)
    as [[g' metrics'] Hrun].
  { intros k Hk. vm_compute in Hk. vm_compute. tauto. }
  exists g', metrics'. split; [exact Hrun|].
  destruct (accuracy_and_bpp_bounds (T := Toy.transforms) (C := Toy.components)
              Toy.model0 0%nat fresh_metrics Toy.batches None)
    as [_ Hrecorded].
  { simpl; lia. }
  { intros g0 cover Hin.
    destruct Hin as [<-|[<-|[]]]; simpl; discriminate. }
  destruct (Hrecorded g' metrics' Hrun) as (Hlen & _ & _ & _ & Hbpp & _ & Hbounds).
  rewrite Hbpp. change (values fresh_metrics "val.bpp_g") with (@nil R).
  rewrite app_nil_l. rewrite length_map. split; [exact Hlen|].
  apply Forall_map. eapply Forall_impl; [|exact Hbounds].
  intros s [Hg _]. exact Hg.
Defined.

(** ** Quantization of the generated image *)

Section Quantization.

Context {B : Backend} {T : Transforms} {C : Components}.

Lemma long_nonneg (y : Q) : (0 <= y)%Q -> long y = Qfloor y.
Proof.
  intros Hy. unfold long. apply Qle_bool_iff in Hy. rewrite Hy. reflexivity.
Qed.

Lemma long_neg (y : Q) : (y < 0)%Q -> long y = Qceiling y.
Proof.
  intros Hy. unfold long.
  destruct (Qle_bool 0 y) eqn:Hle; [|reflexivity].
  apply Qle_bool_iff in Hle. exfalso. exact (Qlt_not_le _ _ Hy Hle).
Qed.

End Quantization.

(** C10 (where the code departs from it).  [_encode_decode] quantizes what
    the embedder returns as it is, with no clamp to [-1, 1] before.  On a
    validation batch of the toy instance the embedder returns an entry of
    1.5: its level is 318 and the entry becomes 381/255, above 1; an entry
    of -1.5 gets the level -63.  Neither is one of the 256 levels 0..255.
    [encode], which clamps before it converts to 8 bits, writes 255 for the
    entry 1.5.  In general an entry of at least [1 + 2/255] gets a level
    above 255, and one of at most [-1 - 2/255] a level below 0. *)
Theorem validation_quantizes_without_clamp :
  let cover : tensor := [1 # 2]%Q in
  let raw : Q := (3 # 2)%Q in
  encoder (Components := Toy.components) (encoder_params Toy.model0) cover
    (fst (_random_data Toy.model0 1%nat cover)) = [raw]
  /\ _encode_decode (T := Toy.transforms) (C := Toy.components)
       Toy.model0 1%nat cover true None
     = ([381 # 255], [1], [381 # 255], [381 # 255], 2%nat)%Q
  /\ quantize_level raw = 318%Z
  /\ ~ (0 <= quantize_level raw <= 255)%Z
  /\ quantize_entry raw = (381 # 255)%Q
  /\ (1 < quantize_entry raw)%Q
  /\ quantize_level (- raw) = (-63)%Z
  /\ astype_uint8 ((clamp (- (1)) 1 raw + 1) * (255 # 2)) = 255%Z
  /\ (forall x, (1 + (2 # 255) <= x)%Q -> (255 < quantize_level x)%Z)
  /\ (forall x, (x <= - (1) - (2 # 255))%Q -> (quantize_level x < 0)%Z).
Proof.
  cbv zeta.
  split; [vm_compute; reflexivity|]. split; [vm_compute; reflexivity|].
  split; [reflexivity|]. split; [vm_compute; intros [_ H]; apply H; reflexivity|].
  split; [vm_compute; reflexivity|]. split; [reflexivity|].
  split; [reflexivity|]. split; [reflexivity|].
  split.
  - intros x Hx. unfold quantize_level.
    assert (Hy : (256 <= 255 * (x + 1) / 2)%Q).
    { apply Qle_shift_div_l; [reflexivity|]. lra. }
    rewrite long_nonneg by lra.
    apply Z.lt_le_trans with (Qfloor (inject_Z 256)); [rewrite Qfloor_Z; lia|].
    apply Qfloor_resp_le. exact Hy.
  - intros x Hx. unfold quantize_level.
    assert (Hy : (255 * (x + 1) / 2 <= - (1))%Q).
    { apply Qle_shift_div_r; [reflexivity|]. lra. }
    rewrite long_neg by lra.
    apply Z.le_lt_trans with (Qceiling (inject_Z (-1))); [|rewrite Qceiling_Z; lia].
    apply Qceiling_resp_le. exact Hy.
Qed.

(** ** How much each phase appends *)

Section PhaseLengths.
Context {B : Backend} {T : Transforms} {C : Components}.

Lemma entries_for_count (entries : list (string * R)) (k : string) :
  NoDup (map fst entries) ->
  length (entries_for k entries) = count_in k (map fst entries).
Proof.
  unfold entries_for, count_in.
  induction entries as [|[k0 v] entries IH]; simpl; intros Hnd; [reflexivity|].
  inversion Hnd as [|? ? Hfresh Hnd']; subst.
  rewrite (String.eqb_sym k k0).
  destruct (String.eqb_spec k0 k) as [->|Hne]; simpl.
  - f_equal. rewrite IH by assumption.
    destruct (existsb (String.eqb k) (map fst entries)) eqn:Hex; [|reflexivity].
    apply existsb_exists in Hex. destruct Hex as (k' & Hin & Heq).
    apply String.eqb_eq in Heq. subst k'. contradiction.
  - apply IH. assumption.
Qed.

(** The lists of a dict after a batch has appended once under each of
    [keys]. *)
Lemma append_all_lengths (entries : list (string * R)) (m m' : metrics_dict) :
  NoDup (map fst entries) ->
  append_all m entries = inr m' ->
  map fst m' = map fst m
  /\ forall k, exists extra,
       values m' k = values m k ++ extra
       /\ length extra = count_in k (map fst entries).
Proof.
  intros Hnd Hrun. destruct (append_all_spec _ _ _ Hrun) as [Hkeys Hvalues].
  split; [exact Hkeys|]. intros k. exists (entries_for k entries).
  split; [apply Hvalues | apply entries_for_count; exact Hnd].
Qed.

Lemma append_metric_missing (m : metrics_dict) (key : string) (v : R) :
  ~ In key (map fst m) -> append_metric m key v = inl (Py.KeyError key).
Proof.
  induction m as [|[k l] m IH]; simpl; intros Hnot; [reflexivity|].
  destruct (String.eqb_spec k key) as [Heq|_]; [tauto|].
  rewrite IH by tauto. reflexivity.
Qed.

Lemma extend_twice (l e1 e2 : list R) (c n : nat) :
  length e1 = c -> length e2 = (c * n)%nat ->
  (l ++ e1) ++ e2 = l ++ (e1 ++ e2) /\ length (e1 ++ e2) = (c * S n)%nat.
Proof.
  intros H1 H2. split; [symmetry; apply app_assoc|].
  rewrite length_app, H1, H2, Nat.mul_succ_r. lia.
Qed.

(** What the critic phase leaves of the model, and by how much it extends
    each list of the metrics dict. *)
Lemma fit_critic_lengths (train : list tensor) (self self' : model) (g g' : rng)
    (m m' : metrics_dict) :
  _fit_critic self g m train = inr (self', g', m') ->
  (encoder_params self' = encoder_params self
   /\ decoder_params self' = decoder_params self
   /\ decoder_optimizer self' = decoder_optimizer self
   /\ epochs self' = epochs self
   /\ history self' = history self
   /\ fit_metrics self' = fit_metrics self
   /\ log_dir self' = log_dir self)
  /\ map fst m' = map fst m
  /\ forall k, exists extra,
       values m' k = values m k ++ extra
       /\ length extra = (count_in k critic_keys * length train)%nat.
Proof.
  revert self g m. induction train as [|cover train IH]; intros self g m Hrun;
    simpl in Hrun.
  - injection Hrun as <- <- <-. repeat split. intros k. exists [].
    rewrite app_nil_r, Nat.mul_0_r. split; reflexivity.
  - destruct (fit_critic_batch self g m cover) as [e|[[s1 g1] m1]] eqn:Hone;
      simpl in Hrun; [discriminate|].
    destruct (fit_critic_batch_inr _ _ _ _ _ _ _ Hone) as (opt & _ & -> & _ & Happend).
    apply append_all_lengths in Happend;
      [|simpl; repeat (constructor; [simpl; intuition discriminate|]); constructor].
    destruct Happend as [Hkeys1 Hvalues1].
    destruct (IH _ _ _ Hrun) as (Hmodel & Hkeys & Hvalues). simpl in Hmodel.
    split; [exact Hmodel|]. split; [congruence|].
    intros k. destruct (Hvalues1 k) as (e1 & He1 & Hl1).
    destruct (Hvalues k) as (e2 & He2 & Hl2).
    exists (e1 ++ e2). rewrite He2, He1.
    apply extend_twice; assumption.
Qed.

(** The same for the coder phase. *)
Lemma fit_coders_lengths (train : list tensor) (transform : option string)
    (transform_prob : Q) (self self' : model) (g g' : rng) (m m' : metrics_dict) :
  _fit_coders self g m train transform transform_prob = inr (self', g', m') ->
  (critic_params self' = critic_params self
   /\ critic_optimizer self' = critic_optimizer self
   /\ epochs self' = epochs self
   /\ history self' = history self
   /\ fit_metrics self' = fit_metrics self
   /\ log_dir self' = log_dir self)
  /\ map fst m' = map fst m
  /\ forall k, exists extra,
       values m' k = values m k ++ extra
       /\ length extra = (count_in k coder_keys * length train)%nat.
Proof.
  revert self g m. induction train as [|cover train IH]; intros self g m Hrun;
    simpl in Hrun.
  - injection Hrun as <- <- <-. repeat split. intros k. exists [].
    rewrite app_nil_r, Nat.mul_0_r. split; reflexivity.
  - destruct (fit_coders_batch self g m transform transform_prob cover)
      as [e|[[s1 g1] m1]] eqn:Hone; simpl in Hrun; [discriminate|].
    destruct (fit_coders_batch_inr _ _ _ _ _ _ _ _ _ Hone)
      as (opt & _ & Hself & _ & Happend).
    cbv zeta in Hself. subst s1.
    apply append_all_lengths in Happend;
      [|simpl; repeat (constructor; [simpl; intuition discriminate|]); constructor].
    destruct Happend as [Hkeys1 Hvalues1].
    destruct (IH _ _ _ Hrun) as (Hmodel & Hkeys & Hvalues). simpl in Hmodel.
    split; [exact Hmodel|]. split; [congruence|].
    intros k. destruct (Hvalues1 k) as (e1 & He1 & Hl1).
    destruct (Hvalues k) as (e2 & He2 & Hl2).
    exists (e1 ++ e2). rewrite He2, He1.
    apply extend_twice; assumption.
Qed.

(** And for the validation phase. *)
Lemma validate_lengths (validate : list tensor) (transform : option string)
    (self : model) (g g' : rng) (m m' : metrics_dict) :
  _validate self g m validate transform = inr (g', m') ->
  map fst m' = map fst m
  /\ forall k, exists extra,
       values m' k = values m k ++ extra
       /\ length extra = (count_in k val_keys * length validate)%nat.
Proof.
  revert g m. induction validate as [|cover validate IH]; intros g m Hrun;
    simpl in Hrun.
  - injection Hrun as <- <-. split; [reflexivity|]. intros k. exists [].
    rewrite app_nil_r, Nat.mul_0_r. split; reflexivity.
  - unfold validate_batch in Hrun.
    pose proof (validate_entries_keys self g cover transform) as Hk.
    destruct (validate_entries self g cover transform) as [entries g1].
    simpl in Hk.
    destruct (append_all m entries) as [e|m1] eqn:Happend; simpl in Hrun;
      [discriminate|].
    apply append_all_lengths in Happend.
    2:{ rewrite Hk. unfold val_keys.
        repeat (constructor; [simpl; intuition discriminate|]). constructor. }
    rewrite Hk in Happend. destruct Happend as [Hkeys1 Hvalues1].
    destruct (IH _ _ Hrun) as (Hkeys & Hvalues).
    split; [congruence|].
    intros k. destruct (Hvalues1 k) as (e1 & He1 & Hl1).
    destruct (Hvalues k) as (e2 & He2 & Hl2).
    exists (e1 ++ e2). rewrite He2, He1.
    apply extend_twice; assumption.
Qed.

Lemma count_in_spec (k : string) (keys : list string) :
  (In k keys -> count_in k keys = 1%nat) /\ (~ In k keys -> count_in k keys = 0%nat).
Proof.
  unfold count_in. destruct (existsb (String.eqb k) keys) eqn:Hex.
  - apply existsb_exists in Hex. destruct Hex as (k' & Hin & Heq).
    apply String.eqb_eq in Heq. subst k'. split; [reflexivity|contradiction].
  - split; [|reflexivity]. intros Hin. exfalso.
    assert (Htrue : existsb (String.eqb k) keys = true).
    { apply existsb_exists. exists k. split; [exact Hin | apply String.eqb_refl]. }
    congruence.
Qed.

(** Read by key: a list under one of [keys] has gained [n] values, any
    other list is as it was. *)
Lemma by_key (keys : list string) (n : nat) (m m' : metrics_dict) :
  (forall k, exists extra,
      values m' k = values m k ++ extra
      /\ length extra = (count_in k keys * n)%nat) ->
  (forall k, In k keys ->
     exists extra, values m' k = values m k ++ extra /\ length extra = n)
  /\ (forall k, ~ In k keys -> values m' k = values m k).
Proof.
  intros Hvalues. split; intros k Hk; destruct (Hvalues k) as (extra & Heq & Hlen).
  - exists extra. split; [exact Heq|].
    rewrite (proj1 (count_in_spec k keys) Hk) in Hlen. lia.
  - rewrite (proj2 (count_in_spec k keys) Hk) in Hlen. simpl in Hlen.
    destruct extra; [|discriminate]. rewrite Heq. apply app_nil_r.
Qed.

End PhaseLengths.

(** ** An epoch of fit *)

Section Epoch.

Context {B : Backend} {T : Transforms} {C : Components}.

Lemma grows_refl (m : metrics_dict) : grows m m.
Proof. split; [reflexivity|]. intros k. exists []. rewrite app_nil_r. reflexivity. Qed.

Lemma grows_trans (m1 m2 m3 : metrics_dict) : grows m1 m2 -> grows m2 m3 -> grows m1 m3.
Proof.
  intros [Hk1 Hv1] [Hk2 Hv2]. split; [congruence|]. intros k.
  destruct (Hv1 k) as [e1 He1]. destruct (Hv2 k) as [e2 He2].
  exists (e1 ++ e2). rewrite He2, He1, app_assoc. reflexivity.
Qed.

Lemma grows_filled (keys : list string) (m m' : metrics_dict) :
  grows m m' -> filled keys m -> filled keys m'.
Proof.
  intros [_ Hv] Hfilled k Hk. destruct (Hv k) as [extra ->].
  specialize (Hfilled k Hk). destruct (values m k); [congruence|discriminate].
Qed.

Lemma entries_for_in (entries : list (string * R)) (k : string) :
  In k (map fst entries) -> entries_for k entries <> [].
Proof.
  unfold entries_for.
  induction entries as [|[k0 v] entries IH]; simpl; intros Hin; [contradiction|].
  destruct (String.eqb_spec k0 k) as [_|Hne]; [discriminate|].
  destruct Hin as [Heq|Hin]; [congruence|auto].
Qed.

Lemma append_all_grows (entries : list (string * R)) (m m' : metrics_dict) :
  append_all m entries = inr m' -> grows m m' /\ filled (map fst entries) m'.
Proof.
  intros Hrun. destruct (append_all_spec _ _ _ Hrun) as [Hkeys Hvalues].
  split.
  - split; [exact Hkeys|]. intros k. eauto.
  - intros k Hk. rewrite Hvalues. pose proof (entries_for_in _ _ Hk) as Hne.
    destruct (entries_for k entries); [congruence|].
    destruct (values m k); discriminate.
Qed.

Lemma bookkeeping_refl (s : model) : bookkeeping_kept s s.
Proof. repeat split; auto. Qed.

Lemma bookkeeping_trans (s1 s2 s3 : model) :
  bookkeeping_kept s1 s2 -> bookkeeping_kept s2 s3 -> bookkeeping_kept s1 s3.
Proof.
  intros (Ha & Hb & Hc & Hd & He) (Ha' & Hb' & Hc' & Hd' & He').
  repeat split; try congruence; auto.
Qed.

Lemma fit_critic_phase (train : list tensor) (self self' : model) (g g' : rng)
    (m m' : metrics_dict) :
  _fit_critic self g m train = inr (self', g', m') ->
  grows m m' /\ (train <> [] -> filled critic_keys m') /\ bookkeeping_kept self self'.
Proof.
  revert self g m. induction train as [|cover train IH]; intros self g m Hrun;
    simpl in Hrun.
  - injection Hrun as <- <- <-.
    split; [apply grows_refl|]. split; [congruence | apply bookkeeping_refl].
  - destruct (fit_critic_batch self g m cover) as [e|[[s1 g1] m1]] eqn:Hone;
      simpl in Hrun; [discriminate|].
    destruct (fit_critic_batch_inr _ _ _ _ _ _ _ Hone) as (opt & Hopt & -> & _ & Happend).
    destruct (append_all_grows _ _ _ Happend) as [Hgrow1 Hfilled1].
    destruct (IH _ _ _ Hrun) as (Hgrow & _ & Hkept).
    split; [eapply grows_trans; eassumption|].
    split; [intros _; eapply grows_filled; eassumption|].
    eapply bookkeeping_trans; [|exact Hkept].
    repeat split; simpl; auto. discriminate.
Qed.

Lemma fit_coders_phase (train : list tensor) (transform : option string)
    (transform_prob : Q) (self self' : model) (g g' : rng) (m m' : metrics_dict) :
  _fit_coders self g m train transform transform_prob = inr (self', g', m') ->
  grows m m' /\ (train <> [] -> filled coder_keys m') /\ bookkeeping_kept self self'.
Proof.
  revert self g m. induction train as [|cover train IH]; intros self g m Hrun;
    simpl in Hrun.
  - injection Hrun as <- <- <-.
    split; [apply grows_refl|]. split; [congruence | apply bookkeeping_refl].
  - destruct (fit_coders_batch self g m transform transform_prob cover)
      as [e|[[s1 g1] m1]] eqn:Hone; simpl in Hrun; [discriminate|].
    destruct (fit_coders_batch_inr _ _ _ _ _ _ _ _ _ Hone)
      as (opt & Hopt & Hself & _ & Happend).
    cbv zeta in Hself. subst s1.
    destruct (append_all_grows _ _ _ Happend) as [Hgrow1 Hfilled1].
    destruct (IH _ _ _ Hrun) as (Hgrow & _ & Hkept).
    split; [eapply grows_trans; eassumption|].
    split; [intros _; eapply grows_filled; eassumption|].
    eapply bookkeeping_trans; [|exact Hkept].
    repeat split; simpl; auto. discriminate.
Qed.

Lemma fit_coders_ok (train : list tensor) (transform : option string)
    (transform_prob : Q) (self : model) (g : rng) (m : metrics_dict) :
  decoder_optimizer self <> None ->
  incl coder_keys (map fst m) ->
  exists result, _fit_coders self g m train transform transform_prob = inr result.
Proof.
  revert self g m. induction train as [|cover train IH]; intros self g m Hopt Hkeys;
    simpl.
  - eexists; reflexivity.
  - destruct (fit_coders_batch_ok self g m transform transform_prob cover Hopt Hkeys)
      as (s1 & g1 & m1 & Hone & Hopt1).
    rewrite Hone. simpl. apply IH; [exact Hopt1|].
    destruct (fit_coders_batch_inr _ _ _ _ _ _ _ _ _ Hone) as (_ & _ & _ & _ & Happend).
    rewrite (proj1 (append_all_spec _ _ _ Happend)). exact Hkeys.
Qed.

Lemma validate_phase (validate : list tensor) (transform : option string)
    (self : model) (g g' : rng) (m m' : metrics_dict) :
  _validate self g m validate transform = inr (g', m') ->
  grows m m' /\ (validate <> [] -> filled val_keys m').
Proof.
  revert g m. induction validate as [|cover validate IH]; intros g m Hrun;
    simpl in Hrun.
  - injection Hrun as <- <-. split; [apply grows_refl | congruence].
  - unfold validate_batch in Hrun.
    pose proof (validate_entries_keys self g cover transform) as Hk.
    destruct (validate_entries self g cover transform) as [entries g1]. simpl in Hk.
    destruct (append_all m entries) as [e|m1] eqn:Happend; simpl in Hrun; [discriminate|].
    destruct (append_all_grows _ _ _ Happend) as [Hgrow1 Hfilled1].
    rewrite Hk in Hfilled1.
    destruct (IH _ _ Hrun) as (Hgrow & _).
    split; [eapply grows_trans; eassumption|].
    intros _. eapply grows_filled; eassumption.
Qed.

Lemma METRIC_FIELDS_NoDup : NoDup METRIC_FIELDS.
Proof.
  unfold METRIC_FIELDS.
  repeat (constructor; [simpl; intuition discriminate|]). constructor.
Qed.

Lemma METRIC_FIELDS_phases (k : string) :
  In k METRIC_FIELDS -> In k critic_keys \/ In k coder_keys \/ In k val_keys.
Proof.
  unfold METRIC_FIELDS, critic_keys, coder_keys, val_keys. simpl.
  intros Hk. repeat (destruct Hk as [<-|Hk]; [tauto|]). contradiction.
Qed.

Lemma phase_keys_fresh :
  incl critic_keys (map fst fresh_metrics)
  /\ incl coder_keys (map fst fresh_metrics)
  /\ incl val_keys (map fst fresh_metrics)
  /\ map fst fresh_metrics = METRIC_FIELDS.
Proof.
  assert (Hkeys : map fst fresh_metrics = METRIC_FIELDS) by reflexivity.
  rewrite Hkeys. unfold incl, critic_keys, coder_keys, val_keys, METRIC_FIELDS.
  simpl. repeat split; try reflexivity; intros k Hk;
    repeat (destruct Hk as [<-|Hk]; [tauto|]); contradiction.
Qed.

Lemma reduce_then_epoch (m : metrics_dict) (means : record) (epoch : Z) :
  map fst m = METRIC_FIELDS ->
  reduce_metrics m = inr means ->
  setitem means "epoch" (Int epoch) = record_of m epoch
  /\ Forall (fun kv => snd kv <> []) m.
Proof.
  intros Hkeys Hrun. apply reduce_metrics_spec in Hrun.
  assert (Hmeans :
    means = map (fun kv => (fst kv, Float (py_sum (snd kv) / INR (length (snd kv)))%R)) m
    /\ Forall (fun kv => snd kv <> []) m).
  { clear Hkeys. induction Hrun as [|[k l] [k' x] m means (Hk & Hl & Hx) Hrest IH].
    - split; [reflexivity | constructor].
    - simpl in Hk, Hl, Hx. subst k' x. destruct IH as [-> Hall].
      split; [reflexivity|]. constructor; assumption. }
  destruct Hmeans as [-> Hall]. split; [|exact Hall].
  unfold record_of. apply setitem_new.
  rewrite map_map. simpl. change (map (fun x => fst x) m) with (map fst m).
  rewrite Hkeys. unfold METRIC_FIELDS. simpl. intuition discriminate.
Qed.

Lemma record_of_keys (m : metrics_dict) (epoch : Z) :
  map fst m = METRIC_FIELDS ->
  map fst (record_of m epoch) = METRIC_FIELDS ++ ["epoch"]
  /\ getitem (record_of m epoch) "epoch" = inr (Int epoch)
  /\ length (record_of m epoch) = 21%nat.
Proof.
  intros Hkeys. unfold record_of.
  assert (Hmap : map fst (map (fun kv : string * list R =>
                   (fst kv, Float (py_sum (snd kv) / INR (length (snd kv)))%R)) m)
                 = METRIC_FIELDS).
  { rewrite map_map. simpl. exact Hkeys. }
  split; [rewrite map_app, Hmap; reflexivity|].
  split.
  - assert (Hget : forall means : record,
              ~ In "epoch" (map fst means) ->
              getitem (means ++ [("epoch", Int epoch)]) "epoch" = inr (Int epoch)).
    { induction means as [|[k x] means IH]; simpl; intros Hnot.
      - reflexivity.
      - destruct (String.eqb_spec k "epoch") as [Heq|_]; [tauto|]. apply IH. tauto. }
    apply Hget. rewrite Hmap. unfold METRIC_FIELDS. simpl. intuition discriminate.
  - rewrite length_app, length_map. simpl.
    rewrite <- (length_map fst m), Hkeys. reflexivity.
Qed.

(** What one pass of the loop over epochs does when it completes: [m] is
    the metrics dict the three phases have filled. *)
Lemma fit_epoch_inr (train validate : list tensor) (transform : option string)
    (transform_prob : Q) (sample_cover : tensor) (self self' : model)
    (w w' : world) (epoch : Z) :
  fit_epoch train validate transform transform_prob sample_cover self w epoch
  = inr (self', w') ->
  exists s1 g1 m1 s2 g2 m2 g3 m,
    _fit_critic (set_epochs self (epochs self + 1)) (generator w) fresh_metrics train
    = inr (s1, g1, m1)
    /\ _fit_coders s1 g1 m1 train transform transform_prob = inr (s2, g2, m2)
    /\ _validate s2 g2 m2 validate transform = inr (g3, m)
    /\ map fst m = METRIC_FIELDS
    /\ Forall (fun kv => snd kv <> []) m
    /\ fit_metrics self' = Some (record_of m epoch)
    /\ log_dir self' = log_dir self
    /\ epochs self' = (epochs self + 1)%Z
    /\ (critic_optimizer self <> None -> critic_optimizer self' <> None)
    /\ (decoder_optimizer self <> None -> decoder_optimizer self' <> None)
    /\ match logging self with
       | Some dir =>
           history self' = history self ++ [record_of m epoch]
           /\ files w'
              = write (files w) (path_join dir "metrics.log")
                      (json_dump (history self ++ [record_of m epoch]))
       | None => history self' = history self /\ files w' = files w
       end.
Proof.
  intros Hrun. unfold fit_epoch, Py.bind in Hrun.
  destruct (_fit_critic _ _ _ train) as [e|[[s1 g1] m1]] eqn:Hcritic; [discriminate|].
  destruct (_fit_coders s1 g1 m1 train _ _) as [e|[[s2 g2] m2]] eqn:Hcoders;
    [discriminate|].
  destruct (_validate s2 g2 m2 validate _) as [e|[g3 m]] eqn:Hval; [discriminate|].
  destruct (reduce_metrics m) as [e|means] eqn:Hmeans; [discriminate|].
  destruct (fit_critic_phase _ _ _ _ _ _ _ Hcritic) as ([Hk1 _] & _ & Hkept1).
  destruct (fit_coders_phase _ _ _ _ _ _ _ _ _ Hcoders) as ([Hk2 _] & _ & Hkept2).
  destruct (validate_phase _ _ _ _ _ _ _ Hval) as ([Hk3 _] & _).
  assert (Hkeys : map fst m = METRIC_FIELDS) by (rewrite Hk3, Hk2, Hk1; reflexivity).
  destruct (reduce_then_epoch m means epoch Hkeys Hmeans) as [Hrecord Hall].
  rewrite Hrecord in Hrun.
  destruct (bookkeeping_trans _ _ _ Hkept1 Hkept2) as (Hdir & Hhist & Hep & Hco & Hdo).
  simpl in Hdir, Hhist, Hep, Hco, Hdo.
  assert (Hlog : logging (set_fit_metrics s2 (record_of m epoch)) = logging self).
  { unfold logging. simpl. rewrite Hdir. reflexivity. }
  rewrite Hlog in Hrun.
  exists s1, g1, m1, s2, g2, m2, g3, m.
  do 5 (split; [first [reflexivity | assumption]|]).
  destruct (logging self) as [dir|].
  - destruct (getitem (record_of m epoch) "val.bpp_g") as [e|bpp]; [discriminate|].
    injection Hrun as <- <-. simpl. rewrite Hhist. repeat split; auto.
  - injection Hrun as <- <-. simpl. repeat split; auto.
Qed.

Lemma logging_same (s s' : model) : log_dir s' = log_dir s -> logging s' = logging s.
Proof. intros Hdir. unfold logging. rewrite Hdir. reflexivity. Qed.

Lemma write_read (fs : string -> option json) (path : string) (doc : json) :
  write fs path doc path = Some doc.
Proof. unfold write. rewrite String.eqb_refl. reflexivity. Qed.

(** With batches to train and to validate on and both optimizers in place,
    a pass of the loop over epochs completes. *)
Lemma fit_epoch_ok (train validate : list tensor) (transform : option string)
    (transform_prob : Q) (sample_cover : tensor) (self : model) (w : world)
    (epoch : Z) :
  train <> [] -> validate <> [] ->
  critic_optimizer self <> None -> decoder_optimizer self <> None ->
  exists result,
    fit_epoch train validate transform transform_prob sample_cover self w epoch
    = inr result.
Proof.
  intros Htrain Hvalidate Hcritic_opt Hdecoder_opt.
  destruct phase_keys_fresh as (Hck & Hdk & Hvk & Hfresh).
  destruct (fit_critic_ok train (set_epochs self (epochs self + 1)) (generator w)
              fresh_metrics Hcritic_opt Hck) as [[[s1 g1] m1] Hcritic].
  destruct (fit_critic_phase _ _ _ _ _ _ _ Hcritic) as (Hgrow1 & Hfill1 & Hkept1).
  destruct Hkept1 as (_ & _ & _ & _ & Hdo1).
  destruct (fit_coders_ok train transform transform_prob s1 g1 m1)
    as [[[s2 g2] m2] Hcoders].
  { apply Hdo1. exact Hdecoder_opt. }
  { rewrite (proj1 Hgrow1). exact Hdk. }
  destruct (fit_coders_phase _ _ _ _ _ _ _ _ _ Hcoders) as (Hgrow2 & Hfill2 & _).
  destruct (validate_ok s2 validate transform g2 m2) as [[g3 m] Hval].
  { rewrite (proj1 Hgrow2), (proj1 Hgrow1). exact Hvk. }
  destruct (validate_phase _ _ _ _ _ _ _ Hval) as (Hgrow3 & Hfill3).
  assert (Hkeys : map fst m = METRIC_FIELDS).
  { rewrite (proj1 Hgrow3), (proj1 Hgrow2), (proj1 Hgrow1). exact Hfresh. }
  assert (Hall : Forall (fun kv => snd kv <> []) m).
  { apply Forall_forall. intros [k l] Hin. simpl.
    assert (Hk : In k METRIC_FIELDS).
    { rewrite <- Hkeys. change k with (fst (k, l)). apply in_map. exact Hin. }
    rewrite <- (values_in m k l); [|rewrite Hkeys; apply METRIC_FIELDS_NoDup|exact Hin].
    destruct (METRIC_FIELDS_phases k Hk) as [Hc|[Hc|Hc]].
    - refine (grows_filled critic_keys m1 m _ (Hfill1 Htrain) k Hc).
      eapply grows_trans; eassumption.
    - exact (grows_filled coder_keys m2 m Hgrow3 (Hfill2 Htrain) k Hc).
    - exact (Hfill3 Hvalidate k Hc). }
  destruct (reduce_metrics_ok m Hall) as [means Hmeans].
  destruct (reduce_then_epoch m means epoch Hkeys Hmeans) as [Hrecord _].
  destruct (getitem_ok (record_of m epoch) "val.bpp_g") as [bpp Hbpp].
  { rewrite (proj1 (record_of_keys m epoch Hkeys)).
    unfold METRIC_FIELDS. simpl. tauto. }
  unfold fit_epoch, Py.bind. rewrite Hcritic, Hcoders, Hval, Hmeans, Hrecord.
  destruct (logging _) as [dir|]; [|eexists; reflexivity].
  rewrite Hbpp. eexists; reflexivity.
Qed.

(** The loop over epochs, when it completes with logging on. *)
Lemma fit_epochs_inr (train validate : list tensor) (transform : option string)
    (transform_prob : Q) (sample_cover : tensor) (dir : string) (range : list Z)
    (self self' : model) (w w' : world) :
  logging self = Some dir ->
  fit_epochs train validate transform transform_prob sample_cover self w range
  = inr (self', w') ->
  exists records,
    history self' = history self ++ records
    /\ Forall2 (fun r epoch =>
                  exists metrics,
                    map fst metrics = METRIC_FIELDS
                    /\ Forall (fun kv => snd kv <> []) metrics
                    /\ r = record_of metrics epoch) records range
    /\ (range <> [] ->
        files w' (path_join dir "metrics.log") = Some (json_dump (history self')))
    /\ log_dir self' = log_dir self.
Proof.
  revert self w. induction range as [|epoch range IH]; intros self w Hlog Hrun;
    simpl in Hrun.
  - injection Hrun as <- <-. exists []. rewrite app_nil_r.
    repeat split; [constructor | congruence].
  - unfold Py.bind in Hrun.
    destruct (fit_epoch _ _ _ _ _ self w epoch) as [e|[s1 w1]] eqn:Hone; [discriminate|].
    destruct (fit_epoch_inr _ _ _ _ _ _ _ _ _ _ Hone)
      as (? & ? & ? & ? & ? & ? & ? & m & _ & _ & _ & Hkeys & Hall & _ & Hdir & _ & _ & _ & Hlogged).
    rewrite Hlog in Hlogged. destruct Hlogged as [Hhist Hfile].
    assert (Hlog1 : logging s1 = Some dir).
    { rewrite (logging_same _ _ Hdir). exact Hlog. }
    destruct (IH s1 w1 Hlog1 Hrun) as (records & Hhist' & Hrecords & Hfile' & Hdir').
    exists (record_of m epoch :: records).
    split; [rewrite Hhist', Hhist, <- app_assoc; reflexivity|].
    split; [constructor; [exists m; auto | exact Hrecords]|].
    split; [|congruence].
    intros _. destruct range as [|epoch' range'].
    + simpl in Hrun. injection Hrun as <- <-.
      rewrite Hfile, write_read, Hhist. reflexivity.
    + apply Hfile'. discriminate.
Qed.

Lemma fit_epochs_ok (train validate : list tensor) (transform : option string)
    (transform_prob : Q) (sample_cover : tensor) (range : list Z)
    (self : model) (w : world) :
  train <> [] -> validate <> [] ->
  critic_optimizer self <> None -> decoder_optimizer self <> None ->
  exists result,
    fit_epochs train validate transform transform_prob sample_cover self w range
    = inr result.
Proof.
  intros Htrain Hvalidate. revert self w.
  induction range as [|epoch range IH]; intros self w Hco Hdo; simpl.
  - eexists; reflexivity.
  - destruct (fit_epoch_ok train validate transform transform_prob sample_cover
                self w epoch Htrain Hvalidate Hco Hdo) as [[s1 w1] Hone].
    rewrite Hone. simpl.
    destruct (fit_epoch_inr _ _ _ _ _ _ _ _ _ _ Hone)
      as (? & ? & ? & ? & ? & ? & ? & m & _ & _ & _ & _ & _ & _ & _ & _ & Hco1 & Hdo1 & _).
    apply IH; auto.
Qed.

Lemma fit_eq (self : model) (w : world) (train validate : list tensor) (n : Z)
    (transform : option string) (transform_prob : Q) :
  fit self w train validate n transform transform_prob
  = Py.bind
      match logging (prepared self) with
      | Some _ =>
          match validate with
          | [] => Py.raise Py.StopIteration
          | cover :: _ => Py.ret cover
          end
      | None => Py.ret []
      end
      (fun sample_cover =>
         fit_epochs train validate transform transform_prob sample_cover
           (prepared self) w (range_from_1 n)).
Proof. reflexivity. Qed.

Lemma prepared_spec (self : model) :
  log_dir (prepared self) = log_dir self
  /\ history (prepared self) = history self
  /\ critic_optimizer (prepared self) <> None
  /\ epochs (prepared self)
     = match critic_optimizer self with None => 0%Z | Some _ => epochs self end
  /\ ((critic_optimizer self <> None -> decoder_optimizer self <> None) ->
      decoder_optimizer (prepared self) <> None).
Proof.
  unfold prepared. destruct (critic_optimizer self) as [opt|] eqn:Hopt.
  - repeat split; [congruence|]. intros Hboth. apply Hboth. discriminate.
  - destruct (_get_optimizers self). simpl. repeat split; discriminate.
Qed.

Lemma range_from_1_nonempty (n : Z) : (0 < n)%Z -> range_from_1 n <> [].
Proof.
  intros Hn. unfold range_from_1.
  destruct (Z.to_nat n) as [|k] eqn:Hk; [lia|]. simpl. discriminate.
Qed.








End Epoch.


(* ================================================================== *)
(** * Part III: further properties of the code *)
(* ================================================================== *)

(** ** _make_payload: short covers and the first copy *)

Section PayloadEdges.

Context {U : Utils}.

Lemma tile_no_iteration (fuel : nat) (l : list Z) (size : Z) :
  (1 <= fuel)%nat -> (size <= Z.of_nat (length l))%Z ->
  tile fuel [l] 0 0 size = Some [l].
Proof.
  intros Hfuel Hsize. destruct fuel as [|fuel]; [lia|]. simpl.
  unfold deref; simpl nth.
  destruct (Z.ltb_spec (Z.of_nat (length l)) size); [lia | reflexivity].
Qed.

(** The value [_make_payload] returns, for positive dimensions: a cut of
    [reps] copies of the message, one copy when the message already covers
    the size. *)
Lemma make_payload_runs (text : string) (width height depth : Z) (fuel : nat) :
  (0 < width)%Z -> (0 < height)%Z -> (0 < depth)%Z ->
  let message := text_to_bits text ++ repeat 0%Z 32 in
  let size := Z.to_nat (width * height * depth) in
  (size <= fuel \/ (1 <= fuel /\ size <= length message))%nat ->
  exists reps,
    (1 <= reps)%nat
    /\ (size <= length message -> reps = 1)%nat
    /\ (size <= reps * length message)%nat
    /\ _make_payload fuel width height depth text
       = Some (inr (mk_shaped [1; depth; height; width]%Z
                      (map inject_Z (firstn size (concat (repeat message reps)))))).
Proof.
  intros Hw Hh Hd message size Hfuel.
  assert (Hsize : (0 < width * height * depth)%Z) by nia.
  assert (Hlen : (32 <= length message)%nat).
  { unfold message. rewrite length_app, repeat_length. lia. }
  assert (Hone : [message] = [concat (repeat message 1)]).
  { simpl. rewrite app_nil_r. reflexivity. }
  assert (Hrun : exists reps,
            (1 <= reps)%nat /\ (size <= length message -> reps = 1)%nat
            /\ (size <= reps * length message)%nat
            /\ tile fuel [message] 0 0 (width * height * depth)
               = Some [concat (repeat message reps)]).
  { destruct (Nat.le_gt_cases size (length message)) as [Hshort|Hlong].
    - exists 1%nat. split; [lia|]. split; [reflexivity|]. split; [lia|].
      rewrite <- Hone. apply tile_no_iteration; unfold size in *; lia.
    - destruct Hfuel as [Hfuel|[_ Hshort]]; [|lia].
      destruct (tile_terminates (width * height * depth) fuel message) as [h Hh'];
        [lia | unfold size in *; lia | unfold size in *; lia |].
      pose proof Hh' as Hcopies. rewrite Hone in Hcopies.
      apply tile_copies in Hcopies; [|lia].
      destruct Hcopies as (reps & Hreps & -> & Hreach).
      exists reps. split; [exact Hreps|]. split; [lia|].
      rewrite length_concat_repeat in Hreach. split; [unfold size; lia|exact Hh']. }
  destruct Hrun as (reps & Hreps & Hshort & Hreach & Htile).
  exists reps. repeat (split; [assumption|]).
  unfold _make_payload. fold message. rewrite Htile.
  unfold deref; simpl nth. unfold Py.slice_to.
  destruct (Z.leb_spec 0 (width * height * depth)) as [_|Hneg]; [|lia].
  fold size. unfold view.
  assert (Hcut : length (firstn size (concat (repeat message reps))) = size).
  { apply firstn_length_le. rewrite length_concat_repeat. exact Hreach. }
  rewrite numel_payload_shape, length_map, Hcut.
  replace (forallb (fun d => (0 <=? d)%Z) [1; depth; height; width]%Z) with true.
  2:{ simpl. symmetry. rewrite !andb_true_iff, !Z.leb_le. lia. }
  replace (width * height * depth =? Z.of_nat size)%Z with true.
  2:{ symmetry. apply Z.eqb_eq. unfold size. lia. }
  reflexivity.
Qed.

(** X1. A message at least as long as the cover's capacity is cut, without
    an error: the payload is the first [width * height * depth] entries of
    the message; when the text's bits alone reach the capacity, the payload
    holds no bit of the terminator. *)
Theorem make_payload_cuts_long_text (text : string) (width height depth : Z)
    (fuel : nat) :
  (0 < width)%Z -> (0 < height)%Z -> (0 < depth)%Z -> (1 <= fuel)%nat ->
  let message := text_to_bits text ++ repeat 0%Z 32 in
  let size := Z.to_nat (width * height * depth) in
  (size <= length message)%nat ->
  exists payload,
    _make_payload fuel width height depth text = Some (inr payload)
    /\ data payload = map inject_Z (firstn size message)
    /\ ((size <= length (text_to_bits text))%nat ->
        data payload = map inject_Z (firstn size (text_to_bits text))).
Proof.
  intros Hw Hh Hd Hfuel message size Hshort.
  destruct (make_payload_runs text width height depth fuel Hw Hh Hd)
    as (reps & _ & Hone & _ & Hrun).
  { right. split; assumption. }
  rewrite (Hone Hshort) in Hrun. simpl concat in Hrun. rewrite app_nil_r in Hrun.
  eexists. split; [exact Hrun|]. simpl. split; [reflexivity|].
  intros Htext. unfold message. rewrite firstn_app.
  replace (size - length (text_to_bits text))%nat with 0%nat by (fold size; lia).
  simpl. rewrite app_nil_r. reflexivity.
Qed.

(** X2. A cover with room for the whole message carries it whole at the
    front of the payload: the text's bits followed by the 32 zero bits. *)
Theorem make_payload_first_copy (text : string) (width height depth : Z)
    (fuel : nat) :
  (0 < width)%Z -> (0 < height)%Z -> (0 < depth)%Z ->
  let message := text_to_bits text ++ repeat 0%Z 32 in
  let size := Z.to_nat (width * height * depth) in
  (size <= fuel)%nat -> (length message <= size)%nat ->
  exists payload,
    _make_payload fuel width height depth text = Some (inr payload)
    /\ firstn (length message) (data payload) = map inject_Z message.
Proof.
  intros Hw Hh Hd message size Hfuel Hroom.
  destruct (make_payload_runs text width height depth fuel Hw Hh Hd)
    as (reps & Hreps & _ & _ & Hrun).
  { left. exact Hfuel. }
  eexists. split; [exact Hrun|]. cbn [data].
  subst message size. set (m := text_to_bits text ++ repeat 0%Z 32) in *.
  destruct reps as [|reps]; [lia|].
  change (concat (repeat m (S reps))) with (m ++ concat (repeat m reps)).
  rewrite firstn_map, firstn_firstn.
  replace (Nat.min (length m) (Z.to_nat (width * height * depth)))
    with (length m) by lia.
  rewrite firstn_app, firstn_all, Nat.sub_diag. simpl. rewrite app_nil_r. reflexivity.
Qed.

(** X3. When [text_to_bits] returns bits, every entry of the payload is 0
    or 1. *)
Theorem make_payload_bits (text : string) (width height depth : Z) (fuel : nat) :
  (0 < width)%Z -> (0 < height)%Z -> (0 < depth)%Z ->
  (Z.to_nat (width * height * depth) <= fuel)%nat ->
  Forall (fun b => b = 0%Z \/ b = 1%Z) (text_to_bits text) ->
  exists payload,
    _make_payload fuel width height depth text = Some (inr payload)
    /\ Forall (fun x => x = 0%Q \/ x = 1%Q) (data payload).
Proof.
  intros Hw Hh Hd Hfuel Hbits.
  destruct (make_payload_runs text width height depth fuel Hw Hh Hd)
    as (reps & _ & _ & _ & Hrun).
  { left. exact Hfuel. }
  eexists. split; [exact Hrun|]. simpl.
  set (message := text_to_bits text ++ repeat 0%Z 32).
  assert (Hmessage : Forall (fun b => b = 0%Z \/ b = 1%Z) message).
  { apply Forall_app. split; [exact Hbits|].
    apply Forall_forall. intros b Hb. apply repeat_spec in Hb. auto. }
  assert (Htiled : Forall (fun b => b = 0%Z \/ b = 1%Z) (concat (repeat message reps))).
  { clear Hrun. induction reps as [|reps IH]; simpl; [constructor|].
    apply Forall_app. split; assumption. }
  apply Forall_forall. intros x Hx. apply in_map_iff in Hx.
  destruct Hx as (b & <- & Hb).
  assert (Hin : In b (concat (repeat message reps))).
  { rewrite <- (firstn_skipn (Z.to_nat (width * height * depth))).
    apply in_or_app. left. exact Hb. }
  rewrite Forall_forall in Htiled. destruct (Htiled b Hin) as [->| ->]; auto.
Qed.

End PayloadEdges.

Lemma make_payload_cuts_long_text_witness :
  (Z.to_nat (4 * 4 * 1) <= length (SpecUtils.text_to_bits "hi" ++ repeat 0%Z 32))%nat
  /\ exists payload,
       _make_payload (U := SpecUtils.utils) 1 4 4 1 "hi" = Some (inr payload)
       /\ data payload = map inject_Z (SpecUtils.text_to_bits "hi").
Proof.
  split; [vm_compute; lia|].
  destruct (make_payload_cuts_long_text (U := SpecUtils.utils) "hi" 4 4 1 1)
    as (payload & Hrun & _ & Htext); try lia; [vm_compute; lia|].
  exists payload. split; [exact Hrun|]. apply Htext. vm_compute. lia.
Defined.

Lemma make_payload_first_copy_witness :
  (length (SpecUtils.text_to_bits "hi" ++ repeat 0%Z 32) <= Z.to_nat (8 * 8 * 1))%nat
  /\ exists payload,
       _make_payload (U := SpecUtils.utils) 64 8 8 1 "hi" = Some (inr payload)
       /\ firstn 48 (data payload)
          = map inject_Z (SpecUtils.text_to_bits "hi" ++ repeat 0%Z 32).
Proof.
  split; [vm_compute; lia|].
  apply (make_payload_first_copy (U := SpecUtils.utils) "hi" 8 8 1 64);
    solve [lia | vm_compute; lia].
Defined.

Lemma make_payload_bits_witness :
  Forall (fun b => b = 0%Z \/ b = 1%Z) (SpecUtils.text_to_bits "hi")
  /\ exists payload,
       _make_payload (U := SpecUtils.utils) 64 8 8 1 "hi" = Some (inr payload)
       /\ Forall (fun x => x = 0%Q \/ x = 1%Q) (data payload).
Proof.
  assert (Hbits : Forall (fun b => b = 0%Z \/ b = 1%Z) (SpecUtils.text_to_bits "hi")).
  { vm_compute. repeat (constructor; [tauto|]). constructor. }
  split; [exact Hbits|].
  apply (make_payload_bits (U := SpecUtils.utils) "hi" 8 8 1 64);
    solve [lia | vm_compute; lia | exact Hbits].
Defined.

(** ** decode: what is returned *)

Section DecodeResult.

Context {B : Backend} {C : Components} {U : Utils}.

Lemma in_candidates_of (fragments : list (list byte)) (text : string) :
  In text (candidates_of fragments)
  <-> exists f, In f fragments /\ bytearray_to_text f = Some text /\ text <> "".
Proof.
  unfold candidates_of. induction fragments as [|f fragments IH]; simpl.
  - split; [contradiction | intros (f & [] & _)].
  - rewrite in_app_iff, IH. split.
    + intros [Hhere|(f' & Hin & Hf')].
      * exists f. split; [left; reflexivity|].
        destruct (bytearray_to_text f) as [t|]; [|contradiction]. simpl in Hhere.
        destruct (String.eqb_spec t ""); simpl in Hhere; [contradiction|].
        destruct Hhere as [<-|[]]. auto.
      * exists f'. split; [right; exact Hin | exact Hf'].
    + intros (f' & [<-|Hin] & Hdec & Hne).
      * left. rewrite Hdec. simpl.
        destruct (String.eqb_spec text ""); [contradiction|]. left. reflexivity.
      * right. exists f'. auto.
Qed.

(** The text [decode_bits] returns is a candidate of largest count. *)
Lemma decode_bits_inr (bits : list bool) (text : string) :
  decode_bits bits = inr text ->
  let texts := candidates_of (Py.split (bits_to_bytearray bits) terminator) in
  In text texts
  /\ forall c, (count_occ string_dec texts c <= count_occ string_dec texts text)%nat.
Proof.
  intros Hrun texts.
  destruct (list_eq_dec string_dec texts []) as [Hnil|Hne].
  { unfold decode_bits in Hrun. rewrite tally_candidates in Hrun.
    fold texts in Hrun. rewrite Hnil in Hrun. discriminate. }
  destruct (decode_bits_winner bits Hne) as (w & n & before & after & Hw & Hc & Hb & Ha).
  fold texts in Hc. rewrite Hw in Hrun. injection Hrun as ->.
  pose proof (counted_fold texts) as Hinv. rewrite Hc in Hinv.
  destruct Hinv as [Hcount Hkeys _].
  assert (Hwin : n = count_occ string_dec texts text /\ In text texts).
  { apply Hcount. apply in_app_iff. right. left. reflexivity. }
  destruct Hwin as [Hn Hin]. split; [exact Hin|].
  intros c. destruct (in_dec string_dec c texts) as [Hc'|Hc'].
  - destruct (key_has_entry _ _ (Hkeys c Hc')) as [m Hm].
    destruct (Hcount _ _ Hm) as [Hm' _]. apply in_app_iff in Hm.
    rewrite Forall_forall in Hb, Ha.
    destruct Hm as [Hin'|[Heq|Hin']].
    + specialize (Hb _ Hin'). simpl in Hb. lia.
    + injection Heq as <- Heq. lia.
    + specialize (Ha _ Hin'). simpl in Ha. lia.
  - rewrite (proj1 (count_occ_not_In string_dec texts c) Hc'). lia.
Qed.

Lemma count_occ_two (l : list string) (a b : string) :
  a <> b ->
  (count_occ string_dec l a + count_occ string_dec l b <= length l)%nat.
Proof.
  intros Hne. induction l as [|x l IH]; simpl; [lia|].
  destruct (string_dec x a), (string_dec x b); try congruence; lia.
Qed.

(** X4. A text that more than half of the counted fragments decode to is the
    one [decode] returns, wherever those fragments lie in the stream. *)
Theorem decode_bits_strict_majority (bits : list bool) (text : string) :
  let texts := candidates_of (Py.split (bits_to_bytearray bits) terminator) in
  (length texts < 2 * count_occ string_dec texts text)%nat ->
  decode_bits bits = inr text.
Proof.
  intros texts Hmajority.
  assert (Hne : texts <> []).
  { intros Hnil. rewrite Hnil in Hmajority. simpl in Hmajority. lia. }
  destruct (decode_bits_winner bits Hne) as (w & ? & ? & ? & Hw & _).
  destruct (decode_bits_inr bits w Hw) as [_ Hmax]. fold texts in Hmax.
  destruct (string_dec w text) as [->|Hdiff]; [exact Hw|].
  pose proof (count_occ_two texts w text Hdiff). specialize (Hmax text). lia.
Qed.

(** X5. A text [decode] returns is never empty, and is what
    [bytearray_to_text] gives for one of the fragments of the recovered
    bytes between terminators. *)
Theorem decode_returns_a_fragment (self : model)
    (exists_ : string -> option (list byte)) (image text : string) :
  decode self exists_ image = inr text ->
  text <> ""
  /\ exists pixels fragment,
       exists_ image = Some pixels
       /\ In fragment
            (Py.split
               (bits_to_bytearray
                  (map (fun x => Qlt_bool 0 x)
                       (decoder (decoder_params self)
                                (permute_2_1_0 (normalize pixels)))))
               terminator)
       /\ bytearray_to_text fragment = Some text.
Proof.
  unfold decode. intros Hrun.
  destruct (exists_ image) as [pixels|]; [|discriminate].
  destruct (decode_bits_inr _ _ Hrun) as [Hin _].
  apply in_candidates_of in Hin. destruct Hin as (f & Hf & Hdec & Hne).
  split; [exact Hne|]. exists pixels, f. auto.
Qed.

End DecodeResult.

Lemma decode_bits_strict_majority_witness :
  let bits :=
    flat_map SpecUtils.bits_of_byte
      ["A"; x00; x00; x00; x00; "B"; x00; x00; x00; x00;
       "A"; x00; x00; x00; x00; "A"]%byte in
  let texts :=
    @candidates_of SpecUtils.utils
      (Py.split (SpecUtils.bits_to_bytearray bits) terminator) in
  (length texts < 2 * count_occ string_dec texts "A")%nat
  /\ decode_bits (U := SpecUtils.utils) bits = inr "A".
Proof.
  intros bits texts. split; [vm_compute; lia|].
  apply (decode_bits_strict_majority (U := SpecUtils.utils) bits "A").
  vm_compute. lia.
Defined.

(** An image whose pixels are 255 where the stream "A", terminator has a
    one and 0 elsewhere, read by the toy recoverer. *)
Lemma decode_returns_a_fragment_witness :
  let pixels :=
    map (fun b : bool => if b then xff else x00)
        (flat_map SpecUtils.bits_of_byte ["A"; x00; x00; x00; x00]%byte) in
  let exists_ := fun path : string =>
    if String.eqb path "stego.png" then Some pixels else None in
  decode (C := Toy.components) (U := SpecUtils.utils) Toy.model0 exists_ "stego.png"
  = inr "A"
  /\ "A" <> "".
Proof.
  intros pixels exists_.
  assert (Hrun : decode (C := Toy.components) (U := SpecUtils.utils)
                   Toy.model0 exists_ "stego.png" = inr "A")
    by (vm_compute; reflexivity).
  split; [exact Hrun|].
  apply (decode_returns_a_fragment (C := Toy.components) (U := SpecUtils.utils)
           Toy.model0 exists_ "stego.png" "A" Hrun).
Defined.

(** ** decode: the fragments of the byte stream *)

Section Fragments.

Lemma starts_with_app (sep l : list byte) :
  Py.starts_with sep l = true <-> exists rest, l = sep ++ rest.
Proof.
  revert l. induction sep as [|s sep IH]; intros l; simpl.
  - split; [intros _; exists l; reflexivity | reflexivity].
  - destruct l as [|b l]; [split; [discriminate | intros (rest & Heq); discriminate]|].
    rewrite andb_true_iff, IH. split.
    + intros [Hb (rest & ->)]. exists rest.
      apply Byte.byte_dec_bl in Hb. subst b. reflexivity.
    + intros (rest & Heq). injection Heq as -> ->.
      split; [apply Byte.byte_dec_lb; reflexivity | exists rest; reflexivity].
Qed.

Lemma split_from_skip (sep : list byte) (skip : nat) (cur l : list byte) :
  (skip <= length l)%nat ->
  Py.split_from sep skip cur l = Py.split_from sep 0 cur (skipn skip l).
Proof.
  revert l. induction skip as [|skip IH]; intros l Hlen; [reflexivity|].
  destruct l as [|b l]; simpl in *; [lia|]. apply IH. lia.
Qed.

Lemma split_from_nonempty (sep : list byte) (l : list byte) (skip : nat)
    (cur : list byte) :
  Py.split_from sep skip cur l <> [].
Proof.
  revert skip cur. induction l as [|b l IH]; intros skip cur; simpl; [discriminate|].
  destruct skip; [|apply IH].
  destruct (Py.starts_with sep (b :: l)); [discriminate | apply IH].
Qed.

Lemma join_cons (sep f : list byte) (fragments : list (list byte)) :
  fragments <> [] -> join sep (f :: fragments) = f ++ sep ++ join sep fragments.
Proof. destruct fragments; [congruence | reflexivity]. Qed.

(** One step of the scan at a separator. *)
Lemma split_from_at_separator (sep cur rest : list byte) :
  sep <> [] ->
  Py.split_from sep 0 cur (sep ++ rest)
  = rev cur :: Py.split_from sep 0 [] rest.
Proof.
  intros Hsep. destruct sep as [|s sep]; [congruence|].
  change ((s :: sep) ++ rest) with (s :: (sep ++ rest)).
  cbn [Py.split_from].
  assert (Hstart : Py.starts_with (s :: sep) (s :: sep ++ rest) = true).
  { apply starts_with_app. exists rest. reflexivity. }
  rewrite Hstart. f_equal.
  rewrite split_from_skip by (simpl; rewrite length_app; lia).
  replace (length (s :: sep) - 1)%nat with (length sep) by (simpl; lia).
  rewrite skipn_app, skipn_all, Nat.sub_diag. reflexivity.
Qed.

Lemma join_split_from (sep : list byte) (n : nat) :
  sep <> [] ->
  forall l cur, (length l <= n)%nat ->
    join sep (Py.split_from sep 0 cur l) = rev cur ++ l.
Proof.
  intros Hsep. induction n as [|n IH]; intros l cur Hlen.
  - destruct l; [|simpl in Hlen; lia]. simpl. rewrite app_nil_r. reflexivity.
  - destruct l as [|b l]; [simpl; rewrite app_nil_r; reflexivity|].
    destruct (Py.starts_with sep (b :: l)) eqn:Hstart.
    + apply starts_with_app in Hstart. destruct Hstart as (rest & Heq).
      rewrite Heq, split_from_at_separator by exact Hsep.
      rewrite join_cons by apply split_from_nonempty.
      rewrite IH; [reflexivity|].
      apply (f_equal (@length byte)) in Heq. rewrite length_app in Heq.
      destruct sep; [congruence|]. simpl in *. lia.
    + cbn [Py.split_from]. rewrite Hstart. rewrite IH by (simpl in Hlen; lia).
      simpl. rewrite <- app_assoc. reflexivity.
Qed.

Lemma fragments_clear (sep : list byte) (n : nat) :
  sep <> [] ->
  forall l cur, (length l <= n)%nat ->
    clear_of sep cur l ->
    Forall (fun f => forall a b, f <> a ++ sep ++ b) (Py.split_from sep 0 cur l).
Proof.
  intros Hsep.
  assert (Hdone : forall cur l, clear_of sep cur l ->
            forall a b, rev cur <> a ++ sep ++ b).
  { intros cur l Hclear a b Heq.
    assert (Hfalse : Py.starts_with sep ((sep ++ b) ++ l) = false).
    { apply (Hclear a (sep ++ b) Heq). destruct sep; [congruence|discriminate]. }
    assert (Htrue : Py.starts_with sep ((sep ++ b) ++ l) = true).
    { apply starts_with_app. exists (b ++ l). rewrite app_assoc. reflexivity. }
    congruence. }
  induction n as [|n IH]; intros l cur Hlen Hclear.
  - destruct l; [|simpl in Hlen; lia]. simpl. constructor; [|constructor].
    apply (Hdone cur []). exact Hclear.
  - destruct l as [|b l].
    { simpl. constructor; [|constructor]. apply (Hdone cur []). exact Hclear. }
    destruct (Py.starts_with sep (b :: l)) eqn:Hstart.
    + pose proof Hstart as Hsplit. apply starts_with_app in Hsplit.
      destruct Hsplit as (rest & Heq).
      rewrite Heq, split_from_at_separator by exact Hsep. constructor.
      * apply (Hdone cur (b :: l)). exact Hclear.
      * apply IH.
        -- apply (f_equal (@length byte)) in Heq. rewrite length_app in Heq.
           destruct sep; [congruence|]. simpl in *. lia.
        -- intros a c Hrev Hc. simpl in Hrev.
           destruct a; [simpl in Hrev; subst c; congruence | discriminate].
    + cbn [Py.split_from]. rewrite Hstart. apply IH; [simpl in Hlen; lia|].
      intros a c Hrev Hc. simpl in Hrev.
      destruct (exists_last Hc) as (c' & x & ->).
      rewrite app_assoc in Hrev. apply app_inj_tail in Hrev.
      destruct Hrev as [Hrev ->]. rewrite <- app_assoc. simpl.
      destruct c' as [|c0 c'']; [exact Hstart|].
      apply (Hclear a (c0 :: c'')); [exact Hrev | discriminate].
Qed.

(** X6. The fragments [decode] examines come from cutting the recovered
    bytes at the terminator: there is at least one, none contains four zero
    bytes in a row, and joined by the terminator they give the bytes back. *)
Theorem decode_fragments_partition (stream : list byte) :
  let fragments := Py.split stream terminator in
  fragments <> []
  /\ join terminator fragments = stream
  /\ Forall (fun f => forall a b, f <> a ++ terminator ++ b) fragments.
Proof.
  cbv zeta. unfold Py.split.
  split; [apply split_from_nonempty|]. split.
  - apply (join_split_from terminator (length stream)); [discriminate | lia].
  - apply (fragments_clear terminator (length stream)); [discriminate | lia |].
    intros a c Hrev Hc. simpl in Hrev.
    destruct a; [simpl in Hrev; subst c; congruence | discriminate].
Qed.

End Fragments.

(** ** _coding_scores and _encode_decode *)

Section Scores.

Context {B : Backend} {T : Transforms} {C : Components}.

Lemma filter_all {A} (p : A -> bool) (l : list A) :
  length (filter p l) = length l <-> Forall (fun x => p x = true) l.
Proof.
  induction l as [|x l IH]; simpl; [split; [constructor | reflexivity]|].
  pose proof (filter_length_le p l) as Hle.
  destruct (p x) eqn:Hp; simpl.
  - split.
    + intros Hlen. constructor; [exact Hp | apply IH; lia].
    + intros Hall. inversion Hall; subst. f_equal. apply IH. assumption.
  - split; [lia|]. intros Hall. inversion Hall; subst. congruence.
Qed.

Lemma filter_none {A} (p : A -> bool) (l : list A) :
  length (filter p l) = 0%nat <-> Forall (fun x => p x = false) l.
Proof.
  induction l as [|x l IH]; simpl; [split; [constructor | reflexivity]|].
  destruct (p x) eqn:Hp; simpl.
  - split; [discriminate|]. intros Hall. inversion Hall; subst. congruence.
  - rewrite IH. split; [constructor; assumption|]. intros Hall.
    inversion Hall; subst. assumption.
Qed.

Lemma ratio_one (c n : nat) :
  n <> 0%nat ->
  (inject_Z (Z.of_nat c) / inject_Z (Z.of_nat n) == 1)%Q <-> c = n.
Proof.
  intros Hn. destruct n as [|n]; [congruence|].
  unfold Qeq, Qdiv, Qmult, Qinv. simpl. split; intros H; lia.
Qed.

Lemma ratio_zero (c n : nat) :
  n <> 0%nat ->
  (inject_Z (Z.of_nat c) / inject_Z (Z.of_nat n) == 0)%Q <-> c = 0%nat.
Proof.
  intros Hn. destruct n as [|n]; [congruence|].
  unfold Qeq, Qdiv, Qmult, Qinv. simpl. split; intros H; lia.
Qed.

Lemma Forall_equiv {A} (P Q' : A -> Prop) (l : list A) :
  (forall x, P x <-> Q' x) -> (Forall P l <-> Forall Q' l).
Proof.
  intros Hiff. split; apply Forall_impl; intros x; apply Hiff.
Qed.

Lemma combine_Forall2 {A B'} (P : A -> B' -> Prop) (a : list A) (b : list B') :
  length a = length b ->
  (Forall (fun ab => P (fst ab) (snd ab)) (combine a b) <-> Forall2 P a b).
Proof.
  revert b. induction a as [|x a IH]; intros [|y b] Hlen; simpl in *;
    try discriminate.
  - split; constructor.
  - split; intros H; inversion H; subst; constructor; auto;
      apply (IH b); auto.
Qed.

(** X7. For logits and a payload of the same size, not zero and at most
    [2 ^ 24] (where 32-bit floats hold the count exactly, and the quotient
    of a smaller count by the size is below 1), [decoder_acc] is 1 exactly
    when every logit is on the side of 0 that its payload entry is of 0.5,
    and 0 exactly when none is. *)
Theorem decoder_acc_extremes (cover generated payload decoded : tensor) :
  payload <> [] -> length decoded = length payload ->
  (Z.of_nat (length payload) <= 2 ^ 24)%Z ->
  let decoder_acc := snd (_coding_scores cover generated payload decoded) in
  let agree := fun d p : Q => Qle_bool 0 d = Qle_bool (1 # 2) p in
  (decoder_acc == 1 <-> Forall2 agree decoded payload)%Q
  /\ (decoder_acc == 0 <-> Forall2 (fun d p => ~ agree d p) decoded payload)%Q.
Proof.
  intros Hne Hlen _ decoder_acc agree.
  assert (Hn : length payload <> 0%nat) by (destruct payload; [congruence|discriminate]).
  assert (Hcombine : length (combine decoded payload) = length payload).
  { rewrite length_combine, Hlen. apply Nat.min_id. }
  unfold decoder_acc, _coding_scores. cbn [snd]. unfold count_matches. split.
  - rewrite (ratio_one _ _ Hn), <- Hcombine, filter_all.
    rewrite <- (combine_Forall2 agree decoded payload Hlen).
    apply Forall_equiv. intros [d p]. simpl. unfold agree.
    apply Bool.eqb_true_iff.
  - rewrite (ratio_zero _ _ Hn), filter_none.
    rewrite <- (combine_Forall2 (fun d p => ~ agree d p) decoded payload Hlen).
    apply Forall_equiv. intros [d p]. simpl. unfold agree.
    destruct (Qle_bool 0 d), (Qle_bool (1 # 2) p); simpl; intuition congruence.
Qed.

(** X8. With no transform, or with a name that is none of the seven
    [_encode_decode] knows, the image is recovered from untransformed: the
    two decodings coincide and the generator is drawn from for the payload
    only.  An unknown name raises nothing. *)
Theorem encode_decode_without_transform (self : model) (g : rng) (cover : tensor)
    (quantize : bool) (transform : option string) :
  (forall key, transform = Some key ->
     ~ In key ["rotate"; "gaussian"; "white_filter"; "black_filter";
               "red_filter"; "green_filter"; "blue_filter"]) ->
  exists generated payload decoded,
    _encode_decode self g cover quantize transform
    = (generated, payload, decoded, decoded, snd (_random_data self g cover))
    /\ payload = fst (_random_data self g cover)
    /\ decoded = decoder (decoder_params self) generated.
Proof.
  intros Hunknown.
  assert (Hid : forall g1 t, apply_transform transform g1 t = (t, g1)).
  { intros g1 t. unfold apply_transform. destruct transform as [key|]; [|reflexivity].
    specialize (Hunknown key eq_refl). simpl in Hunknown.
    repeat match goal with
    | |- context [String.eqb key ?name] =>
        destruct (String.eqb_spec key name);
          [exfalso; apply Hunknown; subst; auto 10|]
    end.
    reflexivity. }
  unfold _encode_decode, encode_decode_with.
  destruct (_random_data self g cover) as [payload g1]. cbn [fst snd].
  rewrite Hid. do 3 eexists. split; [reflexivity|]. split; reflexivity.
Qed.

Lemma quantize_level_near (x : Q) :
  let y := (255 * (x + 1) / 2)%Q in
  (y - 1 < inject_Z (quantize_level x) /\ inject_Z (quantize_level x) < y + 1)%Q
  /\ ((0 <= y)%Q -> (inject_Z (quantize_level x) <= y)%Q)
  /\ ((y <= 0)%Q -> (y <= inject_Z (quantize_level x))%Q).
Proof.
  intros y. unfold quantize_level. fold y. unfold long.
  pose proof (Qfloor_le y) as Hf1. pose proof (Qlt_floor y) as Hf2.
  pose proof (Qle_ceiling y) as Hc1. pose proof (Qceiling_lt y) as Hc2.
  rewrite inject_Z_plus in Hf2. unfold Z.sub in Hc2.
  rewrite inject_Z_plus, inject_Z_opp in Hc2.
  change (inject_Z 1) with 1%Q in *.
  destruct (Qle_bool 0 y) eqn:Hsign.
  - apply Qle_bool_iff in Hsign. split; [split; lra|]. split; [intros; lra|].
    intros Hy. assert (Hzero : (y == 0)%Q) by lra.
    rewrite (Qfloor_comp _ _ Hzero). change (inject_Z (Qfloor 0)) with 0%Q. exact Hy.
  - assert (Hneg : (y < 0)%Q).
    { apply Qnot_le_lt. intros Hle. apply Qle_bool_iff in Hle. congruence. }
    split; [split; lra|]. split; [intros; lra | intros; lra].
Qed.

(** X9. In exact arithmetic, quantizing moves an entry by less than one
    level, 2/255, and toward -1: down for an entry at or above -1, up for
    one at or below. *)
Theorem quantize_entry_error (x : Q) :
  (x - (2 # 255) < quantize_entry x /\ quantize_entry x < x + (2 # 255))%Q
  /\ ((- (1) <= x)%Q -> (quantize_entry x <= x)%Q)
  /\ ((x <= - (1))%Q -> (x <= quantize_entry x)%Q).
Proof.
  destruct (quantize_level_near x) as ([Hlo Hhi] & Hdown & Hup).
  set (y := (255 * (x + 1) / 2)%Q) in *.
  set (q := inject_Z (quantize_level x)) in *.
  assert (Hx : (x == (2 # 255) * y - 1)%Q) by (unfold y; field).
  assert (Hq : (quantize_entry x == (2 # 255) * q - 1)%Q)
    by (unfold quantize_entry; fold q; field).
  rewrite Hq. split; [split; lra|]. split.
  - intros Hge. assert (Hy : (0 <= y)%Q) by lra. specialize (Hdown Hy). lra.
  - intros Hle. assert (Hy : (y <= 0)%Q) by lra. specialize (Hup Hy). lra.
Qed.

End Scores.

Lemma decoder_acc_extremes_witness :
  let payload : tensor := [1; 0]%Q in
  let decoded : tensor := [3; - (2)]%Q in
  (payload <> [] /\ length decoded = length payload
   /\ (Z.of_nat (length payload) <= 2 ^ 24)%Z)
  /\ (snd (_coding_scores (B := Toy.backend) [] [] payload decoded) == 1)%Q.
Proof.
  intros payload decoded.
  split; [split; [discriminate|split; [reflexivity|simpl; lia]]|].
  apply (decoder_acc_extremes (B := Toy.backend) [] [] payload decoded);
    [discriminate | reflexivity | simpl; lia |].
  repeat constructor.
Defined.

(** A misspelt transform name on the toy instance. *)
Lemma encode_decode_without_transform_witness :
  exists generated payload decoded,
    _encode_decode (T := Toy.transforms) (C := Toy.components)
      Toy.model0 0%nat [1; 0]%Q false (Some "rotat")
    = (generated, payload, decoded, decoded, 1%nat).
Proof.
  destruct (encode_decode_without_transform (T := Toy.transforms)
              (C := Toy.components) Toy.model0 0%nat [1; 0]%Q false (Some "rotat"))
    as (generated & payload & decoded & Hrun & _).
  { intros key Hkey. injection Hkey as <-. simpl. intuition discriminate. }
  exists generated, payload, decoded. exact Hrun.
Defined.

(** ** Validation on the quantized image *)

Section QuantizedValidation.
Context {B : Backend} {T : Transforms} {C : Components}.


End QuantizedValidation.

(** ** The phases and the metrics dict *)

Section PhaseFrames.

Context {B : Backend} {T : Transforms} {C : Components}.

(** X10. The critic phase changes, of the model, the critic's parameters
    and its optimizer only: the embedder's and recoverer's parameters, their
    optimizer, the epoch counter, the history and the rest are as before.
    Of the metrics dict it extends the lists under [train.cover_score] and
    [train.generated_score] by one value per batch; every other list, and the
    keys, are as before. *)
Theorem fit_critic_frame (train : list tensor) (self self' : model) (g g' : rng)
    (m m' : metrics_dict) :
  _fit_critic self g m train = inr (self', g', m') ->
  (encoder_params self' = encoder_params self
   /\ decoder_params self' = decoder_params self
   /\ decoder_optimizer self' = decoder_optimizer self
   /\ epochs self' = epochs self
   /\ history self' = history self
   /\ fit_metrics self' = fit_metrics self
   /\ log_dir self' = log_dir self)
  /\ map fst m' = map fst m
  /\ (forall k, In k critic_keys ->
        exists extra,
          values m' k = values m k ++ extra /\ length extra = length train)
  /\ (forall k, ~ In k critic_keys -> values m' k = values m k).
Proof.
  intros Hrun. destruct (fit_critic_lengths _ _ _ _ _ _ _ Hrun) as (Hmodel & Hkeys & Hvalues).
  split; [exact Hmodel|]. split; [exact Hkeys|]. apply by_key. exact Hvalues.
Qed.

(** X11. The coder phase changes, of the model, the parameters of the
    recoverer and the embedder and their optimizer only: the critic's
    parameters and optimizer are as before.  Of the metrics dict it extends
    the six lists of the coder metrics by one value per batch; every other
    list, and the keys, are as before. *)
Theorem fit_coders_frame (train : list tensor) (transform : option string)
    (transform_prob : Q) (self self' : model) (g g' : rng) (m m' : metrics_dict) :
  _fit_coders self g m train transform transform_prob = inr (self', g', m') ->
  (critic_params self' = critic_params self
   /\ critic_optimizer self' = critic_optimizer self
   /\ epochs self' = epochs self
   /\ history self' = history self
   /\ fit_metrics self' = fit_metrics self
   /\ log_dir self' = log_dir self)
  /\ map fst m' = map fst m
  /\ (forall k, In k coder_keys ->
        exists extra,
          values m' k = values m k ++ extra /\ length extra = length train)
  /\ (forall k, ~ In k coder_keys -> values m' k = values m k).
Proof.
  intros Hrun.
  destruct (fit_coders_lengths _ _ _ _ _ _ _ _ _ Hrun) as (Hmodel & Hkeys & Hvalues).
  split; [exact Hmodel|]. split; [exact Hkeys|]. apply by_key. exact Hvalues.
Qed.

(** X12. The validation phase extends the twelve lists of the validation
    metrics by one value per batch; every other list, those of the training
    metrics among them, and the keys are as before. *)
Theorem validate_frame (validate : list tensor) (transform : option string)
    (self : model) (g g' : rng) (m m' : metrics_dict) :
  _validate self g m validate transform = inr (g', m') ->
  map fst m' = map fst m
  /\ (forall k, In k val_keys ->
        exists extra,
          values m' k = values m k ++ extra /\ length extra = length validate)
  /\ (forall k, ~ In k val_keys -> values m' k = values m k).
Proof.
  intros Hrun. destruct (validate_lengths _ _ _ _ _ _ _ Hrun) as (Hkeys & Hvalues).
  split; [exact Hkeys|]. apply by_key. exact Hvalues.
Qed.

(** X13. A batch of the coder phase whose draw is not below
    [transform_prob], as is every draw that is not negative when
    [transform_prob] is 0, its default, applies no transform: the loss and
    the accuracy recorded for the transformed branch are those recorded for
    the generated branch. *)
Theorem coder_batch_without_transform (self self' : model) (g g' : rng)
    (m m' : metrics_dict) (transform : option string) (transform_prob : Q)
    (cover : tensor) :
  (transform_prob <= fst (rand g))%Q ->
  fit_coders_batch self g m transform transform_prob cover = inr (self', g', m') ->
  exists loss acc,
    values m' "train.decoder_loss_t" = values m "train.decoder_loss_t" ++ [loss]
    /\ values m' "train.decoder_loss_g" = values m "train.decoder_loss_g" ++ [loss]
    /\ values m' "train.decoder_acc_t" = values m "train.decoder_acc_t" ++ [acc]
    /\ values m' "train.decoder_acc_g" = values m "train.decoder_acc_g" ++ [acc].
Proof.
  intros Hdraw Hrun.
  destruct (fit_coders_batch_inr _ _ _ _ _ _ _ _ _ Hrun) as (_ & _ & _ & _ & Happend).
  assert (Hnone : batch_transform_of g transform transform_prob = None).
  { unfold batch_transform_of, Qlt_bool.
    apply Qle_bool_iff in Hdraw. rewrite Hdraw. reflexivity. }
  rewrite Hnone in Happend. cbn [apply_transform fst] in Happend.
  destruct (append_all_spec _ _ _ Happend) as [_ Hvalues].
  do 2 eexists. rewrite !Hvalues. repeat split; reflexivity.
Qed.

(** X14. How [_fit_critic] fails.  On no batch it returns at once with
    nothing changed.  On a first batch it raises [AttributeError] when the
    critic's optimizer was never created, and otherwise [KeyError], with the
    name of the key, when the metrics dict lacks [train.cover_score] or,
    that one present, [train.generated_score]. *)
Theorem fit_critic_failures (self : model) (g : rng) (m : metrics_dict)
    (cover : tensor) (train : list tensor) :
  _fit_critic self g m [] = inr (self, g, m)
  /\ (critic_optimizer self = None ->
      _fit_critic self g m (cover :: train)
      = inl (Py.AttributeError "'NoneType' object has no attribute 'zero_grad'"))
  /\ (critic_optimizer self <> None ->
      ~ In "train.cover_score" (map fst m) ->
      _fit_critic self g m (cover :: train) = inl (Py.KeyError "train.cover_score"))
  /\ (critic_optimizer self <> None ->
      In "train.cover_score" (map fst m) ->
      ~ In "train.generated_score" (map fst m) ->
      _fit_critic self g m (cover :: train)
      = inl (Py.KeyError "train.generated_score")).
Proof.
  split; [reflexivity|].
  assert (Hbatch : forall r,
            fit_critic_batch self g m cover = inl r ->
            _fit_critic self g m (cover :: train) = inl r).
  { intros r Hr. simpl. rewrite Hr. reflexivity. }
  split; [|split].
  - intros Hopt. apply Hbatch. unfold fit_critic_batch.
    destruct (_random_data self g cover). rewrite Hopt. reflexivity.
  - intros Hopt Hmissing. apply Hbatch. unfold fit_critic_batch.
    destruct (_random_data self g cover).
    destruct (critic_optimizer self) as [opt|]; [|congruence].
    destruct (adam_step opt _ _). cbn [append_all].
    rewrite (append_metric_missing _ _ _ Hmissing). reflexivity.
  - intros Hopt Hpresent Hmissing. apply Hbatch. unfold fit_critic_batch.
    destruct (_random_data self g cover).
    destruct (critic_optimizer self) as [opt|]; [|congruence].
    destruct (adam_step opt _ _). cbn [append_all].
    match goal with |- context [append_metric m ?k ?v] =>
      destruct (append_metric_ok m k v Hpresent) as [m1 Hm1] end.
    rewrite Hm1. cbn [Py.bind].
    rewrite append_metric_missing; [reflexivity|].
    rewrite (proj1 (append_metric_spec _ _ _ _ Hm1)). exact Hmissing.
Qed.

End PhaseFrames.

(** ** fit: the epoch counter, what is saved, and runs without batches *)

Section FitLoop.
Context {B : Backend} {T : Transforms} {C : Components}.

Lemma reduce_metrics_empty (m : metrics_dict) :
  Exists (fun kv => snd kv = []) m -> reduce_metrics m = inl Py.ZeroDivisionError.
Proof.
  induction 1 as [[k l] rest Hl|[k l] rest _ IH]; simpl.
  - simpl in Hl. subst l. reflexivity.
  - destruct l as [|x l]; [reflexivity|]. simpl. rewrite IH. reflexivity.
Qed.

Lemma values_empty_entry (m : metrics_dict) (k : string) :
  In k (map fst m) -> values m k = [] -> Exists (fun kv => snd kv = []) m.
Proof.
  induction m as [|[k0 l] rest IH]; simpl; intros Hin Hval; [contradiction|].
  destruct (String.eqb_spec k0 k) as [_|Hne].
  - apply Exists_cons_hd. exact Hval.
  - apply Exists_cons_tl. apply IH; [|exact Hval].
    destruct Hin; [congruence|assumption].
Qed.

(** What a pass of the loop over epochs leaves behind when it completes. *)
Lemma fit_epoch_saved (train validate : list tensor) (transform : option string)
    (transform_prob : Q) (sample_cover : tensor) (self self' : model)
    (w w' : world) (epoch : Z) :
  fit_epoch train validate transform transform_prob sample_cover self w epoch
  = inr (self', w') ->
  epochs self' = (epochs self + 1)%Z
  /\ log_dir self' = log_dir self
  /\ (critic_optimizer self <> None -> critic_optimizer self' <> None)
  /\ (decoder_optimizer self <> None -> decoder_optimizer self' <> None)
  /\ exists r,
       fit_metrics self' = Some r
       /\ match logging self with
          | Some _ =>
              history self' = history self ++ [r]
              /\ exists bpp,
                   getitem r "val.bpp_g" = inr bpp
                   /\ checkpoints w' = checkpoints w ++ [((epochs self + 1)%Z, bpp)]
          | None =>
              history self' = history self
              /\ files w' = files w
              /\ checkpoints w' = checkpoints w
          end.
Proof.
  intros Hrun. unfold fit_epoch, Py.bind in Hrun.
  destruct (_fit_critic _ _ _ train) as [e|[[s1 g1] m1]] eqn:Hcritic; [discriminate|].
  destruct (_fit_coders s1 g1 m1 train _ _) as [e|[[s2 g2] m2]] eqn:Hcoders;
    [discriminate|].
  destruct (_validate s2 g2 m2 validate _) as [e|[g3 m]] eqn:Hval; [discriminate|].
  destruct (reduce_metrics m) as [e|means] eqn:Hmeans; [discriminate|].
  destruct (fit_critic_phase _ _ _ _ _ _ _ Hcritic) as (_ & _ & Hkept1).
  destruct (fit_coders_phase _ _ _ _ _ _ _ _ _ Hcoders) as (_ & _ & Hkept2).
  destruct (bookkeeping_trans _ _ _ Hkept1 Hkept2) as (Hdir & Hhist & Hep & Hco & Hdo).
  simpl in Hdir, Hhist, Hep, Hco, Hdo.
  assert (Hlog : logging (set_fit_metrics s2 (setitem means "epoch" (Int epoch)))
                 = logging self).
  { unfold logging. simpl. rewrite Hdir. reflexivity. }
  rewrite Hlog in Hrun.
  destruct (logging self) as [dir|].
  - destruct (getitem _ "val.bpp_g") as [e|bpp] eqn:Hbpp; [discriminate|].
    injection Hrun as <- <-. simpl. rewrite Hhist, Hep.
    do 4 (split; [auto|]). eexists. split; [reflexivity|]. split; [reflexivity|].
    exists bpp. split; [exact Hbpp | reflexivity].
  - injection Hrun as <- <-. simpl.
    do 4 (split; [auto|]). eexists. split; [reflexivity|]. auto.
Qed.

Lemma shifted_tags (e : Z) (n : nat) :
  map (fun i => (e + 1 + Z.of_nat i)%Z) (seq 1 n)
  = map (fun i => (e + Z.of_nat i)%Z) (seq 2 n).
Proof.
  rewrite <- (seq_shift n 1), map_map. apply map_ext. intros i. lia.
Qed.

(** The loop over epochs, when it completes. *)
Lemma fit_epochs_saved (train validate : list tensor) (transform : option string)
    (transform_prob : Q) (sample_cover : tensor) (range : list Z)
    (self self' : model) (w w' : world) :
  fit_epochs train validate transform transform_prob sample_cover self w range
  = inr (self', w') ->
  epochs self' = (epochs self + Z.of_nat (length range))%Z
  /\ log_dir self' = log_dir self
  /\ (critic_optimizer self <> None -> critic_optimizer self' <> None)
  /\ (decoder_optimizer self <> None -> decoder_optimizer self' <> None)
  /\ match logging self with
     | Some _ =>
         exists records saved,
           history self' = history self ++ records
           /\ checkpoints w' = checkpoints w ++ saved
           /\ map fst saved
              = map (fun i => (epochs self + Z.of_nat i)%Z) (seq 1 (length range))
           /\ Forall2 (fun r ck => getitem r "val.bpp_g" = inr (snd ck)) records saved
     | None =>
         history self' = history self
         /\ files w' = files w
         /\ checkpoints w' = checkpoints w
     end.
Proof.
  revert self w. induction range as [|epoch range IH]; intros self w Hrun;
    simpl in Hrun.
  - injection Hrun as <- <-. rewrite Z.add_0_r. do 4 (split; [auto|]).
    destruct (logging self); [|auto].
    exists [], []. rewrite !app_nil_r. repeat split; constructor.
  - unfold Py.bind in Hrun.
    destruct (fit_epoch _ _ _ _ _ self w epoch) as [e|[s1 w1]] eqn:Hone; [discriminate|].
    destruct (fit_epoch_saved _ _ _ _ _ _ _ _ _ _ Hone)
      as (Hep1 & Hdir1 & Hco1 & Hdo1 & r & _ & Hlogged).
    destruct (IH _ _ Hrun) as (Hep & Hdir & Hco & Hdo & Hrest).
    rewrite (logging_same _ _ Hdir1) in Hrest.
    split; [rewrite Hep, Hep1; simpl length; lia|].
    split; [congruence|]. split; [auto|]. split; [auto|].
    destruct (logging self) as [dir|].
    + destruct Hlogged as (Hhist1 & bpp & Hbpp & Hsaved1).
      destruct Hrest as (records & saved & Hhist & Hsaved & Htags & Hscores).
      exists (r :: records), ((epochs self + 1, bpp)%Z :: saved).
      split; [rewrite Hhist, Hhist1, <- app_assoc; reflexivity|].
      split; [rewrite Hsaved, Hsaved1, <- app_assoc; reflexivity|].
      split; [|constructor; assumption].
      cbn [map fst length seq]. rewrite Htags, Hep1, shifted_tags. reflexivity.
    + destruct Hlogged as (Hhist1 & Hfiles1 & Hsaved1).
      destruct Hrest as (Hhist & Hfiles & Hsaved). repeat split; congruence.
Qed.

Lemma length_range_from_1 (n : Z) : Z.of_nat (length (range_from_1 n)) = Z.max n 0.
Proof. unfold range_from_1. rewrite length_map, length_seq. lia. Qed.

(** [fit] completes on batches to train and to validate on. *)
Lemma fit_ok (self : model) (w : world) (train validate : list tensor) (n : Z)
    (transform : option string) (transform_prob : Q) :
  train <> [] -> validate <> [] ->
  (critic_optimizer self <> None -> decoder_optimizer self <> None) ->
  exists result, fit self w train validate n transform transform_prob = inr result.
Proof.
  intros Htrain Hvalidate Hopts. rewrite fit_eq.
  destruct (prepared_spec self) as (_ & _ & Hco & _ & Hdo).
  destruct validate as [|cover validate']; [congruence|].
  destruct (logging (prepared self)); simpl; apply fit_epochs_ok; auto.
Qed.

(** A pass over no training batch, or over no validation batch, leaves an
    empty list in the metrics dict, and its mean is a division by zero. *)
Lemma fit_epoch_without_batches (train validate : list tensor)
    (transform : option string) (transform_prob : Q) (sample_cover : tensor)
    (self : model) (w : world) (epoch : Z) :
  train = []
  \/ (validate = [] /\ critic_optimizer self <> None /\ decoder_optimizer self <> None) ->
  fit_epoch train validate transform transform_prob sample_cover self w epoch
  = inl Py.ZeroDivisionError.
Proof.
  intros Hcase.
  destruct phase_keys_fresh as (Hck & Hdk & Hvk & Hfresh).
  assert (Hempty : forall m k,
            In k METRIC_FIELDS -> map fst m = METRIC_FIELDS -> values m k = [] ->
            reduce_metrics m = inl Py.ZeroDivisionError).
  { intros m k Hk Hkeys Hval. apply reduce_metrics_empty.
    apply (values_empty_entry m k); [rewrite Hkeys; exact Hk | exact Hval]. }
  unfold fit_epoch, Py.bind.
  destruct Hcase as [->|(-> & Hco & Hdo)].
  - cbn [_fit_critic _fit_coders Py.ret].
    destruct (validate_ok (set_epochs self (epochs self + 1)) validate transform
                (generator w) fresh_metrics Hvk) as [[g3 m] Hval].
    rewrite Hval.
    destruct (validate_lengths _ _ _ _ _ _ _ Hval) as (Hkeys & Hvalues).
    apply by_key in Hvalues. destruct Hvalues as [_ Hsame].
    rewrite (Hempty m "train.cover_score"); [reflexivity| | |].
    + unfold METRIC_FIELDS. simpl. tauto.
    + rewrite Hkeys. exact Hfresh.
    + rewrite Hsame; [reflexivity|]. unfold val_keys. simpl. intuition discriminate.
  - destruct (fit_critic_ok train (set_epochs self (epochs self + 1)) (generator w)
                fresh_metrics Hco Hck) as [[[s1 g1] m1] Hcritic].
    rewrite Hcritic.
    destruct (fit_critic_phase _ _ _ _ _ _ _ Hcritic) as (_ & _ & Hkept1).
    destruct Hkept1 as (_ & _ & _ & _ & Hdo1).
    destruct (fit_critic_lengths _ _ _ _ _ _ _ Hcritic) as (_ & Hkeys1 & Hvalues1).
    apply by_key in Hvalues1. destruct Hvalues1 as [_ Hsame1].
    destruct (fit_coders_ok train transform transform_prob s1 g1 m1)
      as [[[s2 g2] m2] Hcoders].
    { apply Hdo1. exact Hdo. }
    { rewrite Hkeys1. exact Hdk. }
    rewrite Hcoders.
    destruct (fit_coders_lengths _ _ _ _ _ _ _ _ _ Hcoders) as (_ & Hkeys2 & Hvalues2).
    apply by_key in Hvalues2. destruct Hvalues2 as [_ Hsame2].
    cbn [_validate Py.ret].
    rewrite (Hempty m2 "val.encoder_mse"); [reflexivity| | |].
    + unfold METRIC_FIELDS. simpl. tauto.
    + rewrite Hkeys2, Hkeys1. exact Hfresh.
    + rewrite Hsame2, Hsame1; [reflexivity| |].
      * unfold critic_keys. simpl. intuition discriminate.
      * unfold coder_keys. simpl. intuition discriminate.
Qed.

(** X15. When [fit] completes, the epoch counter has advanced by the
    number of epochs asked for (by nothing when that is not positive),
    counted from 0 when [fit] found no critic optimizer and created both,
    and from the counter's value otherwise; the model then has a critic
    optimizer, and its log directory is as before. *)
Theorem fit_counts_epochs (self self' : model) (w w' : world)
    (train validate : list tensor) (n : Z) (transform : option string)
    (transform_prob : Q) :
  fit self w train validate n transform transform_prob = inr (self', w') ->
  epochs self'
  = (match critic_optimizer self with None => 0 | Some _ => epochs self end
     + Z.max n 0)%Z
  /\ critic_optimizer self' <> None
  /\ log_dir self' = log_dir self.
Proof.
  intros Hrun. rewrite fit_eq in Hrun. unfold Py.bind in Hrun.
  destruct (prepared_spec self) as (Hdir0 & _ & Hco0 & Hep0 & _).
  assert (Hloop : exists sample_cover,
            fit_epochs train validate transform transform_prob sample_cover
              (prepared self) w (range_from_1 n) = inr (self', w')).
  { destruct (logging (prepared self)); [|exists []; exact Hrun].
    destruct validate as [|cover validate']; [discriminate|].
    exists cover. exact Hrun. }
  destruct Hloop as [sample_cover Hloop].
  destruct (fit_epochs_saved _ _ _ _ _ _ _ _ _ _ Hloop) as (Hep & Hdir & Hco & _).
  rewrite Hep, Hep0, length_range_from_1.
  repeat split; [auto | congruence].
Qed.

(** X16. With logging off ([log_dir] unset or empty), a [fit] that
    completes appends nothing to the history, writes no file and saves no
    checkpoint. *)
Theorem fit_without_logging (self self' : model) (w w' : world)
    (train validate : list tensor) (n : Z) (transform : option string)
    (transform_prob : Q) :
  logging self = None ->
  fit self w train validate n transform transform_prob = inr (self', w') ->
  history self' = history self
  /\ files w' = files w
  /\ checkpoints w' = checkpoints w.
Proof.
  intros Hlog Hrun. rewrite fit_eq in Hrun. unfold Py.bind in Hrun.
  destruct (prepared_spec self) as (Hdir0 & Hhist0 & _).
  assert (Hlog0 : logging (prepared self) = None).
  { rewrite (logging_same _ _ Hdir0). exact Hlog. }
  rewrite Hlog0 in Hrun. simpl in Hrun.
  destruct (fit_epochs_saved _ _ _ _ _ _ _ _ _ _ Hrun) as (_ & _ & _ & _ & Hkept).
  rewrite Hlog0 in Hkept. destruct Hkept as (Hhist & Hfiles & Hsaved).
  repeat split; congruence.
Qed.

(** X17. With logging on, a [fit] that completes saves one checkpoint per
    epoch, after those there were.  The checkpoint of the [i]-th epoch of
    the call is named with the model's epoch counter, that is the counter at
    the start of the loop plus [i], not with [i], and with the [val.bpp_g]
    of the record the epoch appended to the history. *)
Theorem fit_saves_a_checkpoint_per_epoch (self self' : model) (w w' : world)
    (train validate : list tensor) (n : Z) (transform : option string)
    (transform_prob : Q) (dir : string) :
  logging self = Some dir ->
  fit self w train validate n transform transform_prob = inr (self', w') ->
  let start := match critic_optimizer self with None => 0%Z | Some _ => epochs self end in
  exists records saved,
    history self' = history self ++ records
    /\ checkpoints w' = checkpoints w ++ saved
    /\ map fst saved = map (fun i => (start + i)%Z) (range_from_1 n)
    /\ Forall2 (fun r ck => getitem r "val.bpp_g" = inr (snd ck)) records saved.
Proof.
  intros Hlog Hrun start. rewrite fit_eq in Hrun. unfold Py.bind in Hrun.
  destruct (prepared_spec self) as (Hdir0 & Hhist0 & _ & Hep0 & _).
  assert (Hlog0 : logging (prepared self) = Some dir).
  { rewrite (logging_same _ _ Hdir0). exact Hlog. }
  rewrite Hlog0 in Hrun.
  destruct validate as [|cover validate']; [discriminate|]. simpl in Hrun.
  destruct (fit_epochs_saved _ _ _ _ _ _ _ _ _ _ Hrun) as (_ & _ & _ & _ & Hkept).
  rewrite Hlog0 in Hkept.
  destruct Hkept as (records & saved & Hhist & Hsaved & Htags & Hscores).
  exists records, saved. rewrite Hhist, Hhist0.
  do 2 (split; [auto|]). split; [|exact Hscores].
  rewrite Htags, Hep0. unfold range_from_1.
  rewrite length_map, length_seq, map_map. reflexivity.
Qed.

(** X18. With logging on, [fit] on no validation batch raises
    [StopIteration], whatever the number of epochs and the training
    batches: the sample cover is taken from the first validation batch
    before the loop starts. *)
Theorem fit_logging_needs_a_validation_batch (self : model) (w : world)
    (train : list tensor) (n : Z) (transform : option string)
    (transform_prob : Q) (dir : string) :
  logging self = Some dir ->
  fit self w train [] n transform transform_prob = inl Py.StopIteration.
Proof.
  intros Hlog. rewrite fit_eq.
  destruct (prepared_spec self) as (Hdir0 & _).
  rewrite (logging_same _ _ Hdir0), Hlog. reflexivity.
Qed.

(** X19. [fit] for at least one epoch on no training batch, or on no
    validation batch, does not complete: it raises [ZeroDivisionError] in
    its first epoch, when it takes the mean of a list no batch has extended;
    with logging on and no validation batch it raises [StopIteration]
    before. *)
Theorem fit_without_batches (self : model) (w : world)
    (train validate : list tensor) (n : Z) (transform : option string)
    (transform_prob : Q) :
  (0 < n)%Z ->
  train = []
  \/ (validate = []
      /\ (critic_optimizer self <> None -> decoder_optimizer self <> None)) ->
  fit self w train validate n transform transform_prob
  = inl match logging self, validate with
        | Some _, [] => Py.StopIteration
        | _, _ => Py.ZeroDivisionError
        end.
Proof.
  intros Hn Hcase. rewrite fit_eq.
  destruct (prepared_spec self) as (Hdir0 & _ & Hco0 & _ & Hdo0).
  rewrite (logging_same _ _ Hdir0).
  assert (Hloop : forall sample_cover,
            fit_epochs train validate transform transform_prob sample_cover
              (prepared self) w (range_from_1 n) = inl Py.ZeroDivisionError).
  { intros sample_cover.
    destruct (range_from_1 n) as [|epoch range] eqn:Hrange.
    - exfalso. exact (range_from_1_nonempty n Hn Hrange).
    - simpl. rewrite fit_epoch_without_batches; [reflexivity|].
      destruct Hcase as [Htrain|[Hvalidate Hopts]]; [left; exact Htrain|].
      right. auto. }
  destruct (logging self) as [dir|]; [|simpl; apply Hloop].
  destruct validate as [|cover validate']; [reflexivity|]. simpl. apply Hloop.
Qed.

End FitLoop.

(** Two epochs of the toy instance, from an epoch counter of 0. *)
Lemma fit_counts_epochs_witness :
  exists self' w',
    fit (T := Toy.transforms) (C := Toy.components)
        Toy.model0 Toy.world0 Toy.batches Toy.batches 2 None 0
    = inr (self', w')
    /\ epochs self' = 2%Z.
Proof.
  destruct (fit_ok (T := Toy.transforms) (C := Toy.components)
              Toy.model0 Toy.world0 Toy.batches Toy.batches 2 None 0)
    as [[self' w'] Hrun]; [discriminate | discriminate | intros _; discriminate |].
  exists self', w'. split; [exact Hrun|].
  exact (proj1 (fit_counts_epochs _ _ _ _ _ _ _ _ _ Hrun)).
Defined.

(** Two epochs of the toy instance with no log directory. *)
Lemma fit_without_logging_witness :
  logging Toy.quiet = None
  /\ exists self' w',
       fit (T := Toy.transforms) (C := Toy.components)
           Toy.quiet Toy.world0 Toy.batches Toy.batches 2 None 0
       = inr (self', w')
       /\ history self' = [] /\ checkpoints w' = [].
Proof.
  split; [reflexivity|].
  destruct (fit_ok (T := Toy.transforms) (C := Toy.components)
              Toy.quiet Toy.world0 Toy.batches Toy.batches 2 None 0)
    as [[self' w'] Hrun]; [discriminate | discriminate | intros _; discriminate |].
  exists self', w'. split; [exact Hrun|].
  destruct (fit_without_logging Toy.quiet _ _ _ _ _ _ _ _ eq_refl Hrun)
    as (Hhist & _ & Hsaved).
  split; assumption.
Defined.

(** Two epochs of the toy instance, logging to "run": checkpoints 1 and 2. *)
Lemma fit_saves_a_checkpoint_per_epoch_witness :
  logging Toy.model0 = Some "run"
  /\ exists self' w',
       fit (T := Toy.transforms) (C := Toy.components)
           Toy.model0 Toy.world0 Toy.batches Toy.batches 2 None 0
       = inr (self', w')
       /\ map fst (checkpoints w') = [1; 2]%Z.
Proof.
  split; [reflexivity|].
  destruct (fit_ok (T := Toy.transforms) (C := Toy.components)
              Toy.model0 Toy.world0 Toy.batches Toy.batches 2 None 0)
    as [[self' w'] Hrun]; [discriminate | discriminate | intros _; discriminate |].
  exists self', w'. split; [exact Hrun|].
  destruct (fit_saves_a_checkpoint_per_epoch Toy.model0 _ _ _ _ _ _ _ _ "run" eq_refl Hrun)
    as (records & saved & _ & Hsaved & Htags & _).
  rewrite Hsaved. exact Htags.
Defined.

Lemma fit_logging_needs_a_validation_batch_witness :
  logging Toy.model0 = Some "run"
  /\ fit (T := Toy.transforms) (C := Toy.components)
         Toy.model0 Toy.world0 Toy.batches [] 2 None 0
     = inl Py.StopIteration.
Proof.
  split; [reflexivity|].
  apply (fit_logging_needs_a_validation_batch (T := Toy.transforms)
           (C := Toy.components) Toy.model0 Toy.world0 Toy.batches 2 None 0 "run").
  reflexivity.
Defined.

Lemma fit_without_batches_witness :
  fit (T := Toy.transforms) (C := Toy.components)
      Toy.model0 Toy.world0 [] Toy.batches 1 None 0
  = inl Py.ZeroDivisionError.
Proof.
  apply (fit_without_batches (T := Toy.transforms) (C := Toy.components)
           Toy.model0 Toy.world0 [] Toy.batches 1 None 0); [lia|].
  left. reflexivity.
Defined.

(** ** load: which file is read *)

Section LoadPath.

(** X20. The head of [load].  The only error is the [ValueError] that asks
    for an architecture or a path, and it is raised exactly when both are
    [None] or both are given and not empty.  An architecture that is not
    empty, with no path or an empty one, names the file.  An empty
    architecture does not raise, even with no path: the path goes to
    [torch.load] as it is, [None] included; so does the path when the
    architecture is [None]. *)
Theorem load_path_cases (dirname : string) (architecture path : option string) :
  let error :=
    Py.ValueError "Please provide either an architecture or a path to pretrained model." in
  (forall e, load_path dirname architecture path = inl e -> e = error)
  /\ (load_path dirname architecture path = inl error
      <-> (architecture = None /\ path = None)
          \/ (Py.truthy architecture = true /\ Py.truthy path = true))
  /\ (Py.truthy architecture = true -> Py.truthy path = false ->
      exists file, load_path dirname architecture path = inr (Some file))
  /\ (Py.truthy architecture = false ->
      architecture <> None \/ path <> None ->
      load_path dirname architecture path = inr path).
Proof.
  intros error. unfold load_path, error.
  destruct architecture as [name|], path as [file|]; simpl;
    try destruct (String.eqb name ""); try destruct (String.eqb file ""); simpl;
    (split; [intros e He; try discriminate; injection He as <-; reflexivity|]);
    (split; [split; [intros He; try discriminate; auto
                    |intros [[Ha Hp]|[Ha Hp]]; try discriminate; reflexivity]|]);
    (split; [intros Ha Hp; try discriminate; eexists; reflexivity|]);
    intros Ha Hcase; try discriminate; try reflexivity;
    destruct Hcase as [Hne|Hne]; congruence.
Qed.

End LoadPath.

(** ** encode: the pixels written *)

Section EncodePixels.
Context {B : Backend} {C : Components} {U : Utils}.

Lemma clamp_unit (x : Q) : (- (1) <= clamp (- (1)) 1 x /\ clamp (- (1)) 1 x <= 1)%Q.
Proof.
  unfold clamp.
  destruct (Qle_bool x (- (1))) eqn:Hlo.
  - split; [apply Qle_refl | discriminate].
  - destruct (Qle_bool 1 x) eqn:Hhi.
    + split; [discriminate | apply Qle_refl].
    + split; apply Qlt_le_weak, Qnot_le_lt; intros Hle;
        apply Qle_bool_iff in Hle; congruence.
Qed.

(** On [-1, 1] the cast of [(x + 1) * 127.5] to 8 bits is its floor. *)
Lemma uint8_of_unit (x : Q) :
  (- (1) <= x /\ x <= 1)%Q ->
  astype_uint8 ((x + 1) * (255 # 2)) = Qfloor ((x + 1) * (255 # 2))
  /\ (0 <= Qfloor ((x + 1) * (255 # 2)) <= 255)%Z.
Proof.
  intros [Hlo Hhi]. set (y := ((x + 1) * (255 # 2))%Q).
  assert (Hy0 : (0 <= y)%Q) by (unfold y; nra).
  assert (Hy1 : (y <= 255)%Q) by (unfold y; nra).
  assert (Hrange : (0 <= Qfloor y <= 255)%Z).
  { split.
    - change 0%Z with (Qfloor (inject_Z 0)). apply Qfloor_resp_le. exact Hy0.
    - change 255%Z with (Qfloor (inject_Z 255)). apply Qfloor_resp_le. exact Hy1. }
  split; [|exact Hrange].
  unfold astype_uint8. rewrite (long_nonneg y Hy0). apply Z.mod_small. lia.
Qed.

(** X21. The pixels [encode] writes.  When the backend's permutation only
    moves entries, the values handed to the cast to 8 bits, [(x + 1) * 127.5]
    for the entries [x] of the embedder's output clamped to [-1, 1] and
    permuted, all truncate to an integer between 0 and 255, and the pixels
    written are these integers: the cast never wraps.  (In exact arithmetic
    the integer is the floor of the value.) *)
Theorem encode_pixels_do_not_wrap (self : model) (fuel : nat) (cover : image)
    (text : string) (pixels : list Z) :
  (forall (t : tensor) (y : Q), In y (permute_2_1_0 t) -> In y t) ->
  encode self fuel cover text = Some (inr pixels) ->
  exists payload,
    _make_payload fuel (img_height cover) (img_width cover) (data_depth self) text
    = Some (inr payload)
    /\ let cover_t := permute_2_1_0 (normalize_cover (img_pixels cover)) in
       let generated :=
         permute_2_1_0
           (map (clamp (- (1)) 1)
                (encoder (encoder_params self) cover_t (data payload))) in
       let cast := map (fun x => ((x + 1) * (255 # 2))%Q) generated in
       Forall (fun y => (0 <= long y <= 255)%Z) cast
       /\ pixels = map long cast
       /\ pixels = map Qfloor cast.
Proof.
  intros Hperm Hrun. unfold encode in Hrun. cbn [nth] in Hrun.
  destruct (_make_payload _ _ _ _ _) as [[e|payload]|]; try discriminate.
  injection Hrun as <-. exists payload. split; [reflexivity|].
  cbv zeta.
  match goal with |- context [permute_2_1_0 (map ?f ?t)] =>
    set (generated := permute_2_1_0 (map f t)) end.
  assert (Hunit : forall x, In x generated -> (- (1) <= x /\ x <= 1)%Q).
  { intros y Hy. apply Hperm in Hy.
    apply in_map_iff in Hy. destruct Hy as (x & <- & _). apply clamp_unit. }
  assert (Hcast : forall x, In x generated ->
            let y := ((x + 1) * (255 # 2))%Q in
            (0 <= long y <= 255)%Z /\ astype_uint8 y = long y /\ long y = Qfloor y).
  { intros x Hx y. destruct (uint8_of_unit x (Hunit x Hx)) as [Hfloor Hrange].
    fold y in Hfloor, Hrange.
    assert (Hy0 : (0 <= y)%Q) by (destruct (Hunit x Hx); unfold y; nra).
    rewrite (long_nonneg y Hy0). split; [exact Hrange|]. split; [exact Hfloor|reflexivity]. }
  split; [|split].
  - apply Forall_forall. intros y Hy. apply in_map_iff in Hy.
    destruct Hy as (x & <- & Hx). apply (Hcast x Hx).
  - rewrite !map_map. apply map_ext_in. intros x Hx. apply (Hcast x Hx).
  - rewrite !map_map. apply map_ext_in. intros x Hx.
    destruct (Hcast x Hx) as (_ & Hcast1 & Hcast2). cbv zeta in Hcast1, Hcast2.
    rewrite Hcast1. exact Hcast2.
Qed.

End EncodePixels.

(** The toy instance on a cover of one row of two pixels, with two rounds
    of the payload loop. *)
Lemma encode_pixels_do_not_wrap_witness :
  encode (C := Toy.components) (U := SpecUtils.utils) Toy.model0 3
    (mk_image 1 2 [x10; x20; xf0; x00; xff; x80]%byte) "hi"
  = Some (inr [0; 159]%Z)
  /\ exists payload,
       _make_payload (U := SpecUtils.utils) 3 1 2 1 "hi" = Some (inr payload)
       /\ [0; 159]%Z
          = map long
              (map (fun x => ((x + 1) * (255 # 2))%Q)
                 (map (clamp (- (1)) 1)
                    (encoder (Components := Toy.components) [1%Q]
                       (normalize_cover [x10; x20; xf0; x00; xff; x80]%byte)
                       (data payload)))).
Proof.
  assert (Hrun : encode (C := Toy.components) (U := SpecUtils.utils) Toy.model0 3
                   (mk_image 1 2 [x10; x20; xf0; x00; xff; x80]%byte) "hi"
                 = Some (inr [0; 159]%Z)) by (vm_compute; reflexivity).
  split; [exact Hrun|].
  destruct (encode_pixels_do_not_wrap (C := Toy.components) (U := SpecUtils.utils)
              Toy.model0 3 _ "hi" _ (fun t y Hy => Hy) Hrun)
    as (payload & Hpayload & _ & Hpixels & _).
  exists payload. split; [exact Hpayload | exact Hpixels].
Defined.

(** The critic phase of the toy instance over its two batches. *)
Lemma fit_critic_frame_witness :
  exists self' g' m',
    _fit_critic (C := Toy.components) Toy.model0 0%nat fresh_metrics Toy.batches
    = inr (self', g', m')
    /\ encoder_params self' = [1%Q]
    /\ length (values m' "train.cover_score") = 2%nat
    /\ values m' "val.ssim" = [].
Proof.
  destruct (fit_critic_ok (C := Toy.components) Toy.batches Toy.model0 0%nat
              fresh_metrics) as [[[self' g'] m'] Hrun];
    [discriminate | apply (proj1 phase_keys_fresh) |].
  exists self', g', m'. split; [exact Hrun|].
  destruct (fit_critic_frame _ _ _ _ _ _ _ Hrun) as (Hmodel & _ & Hgrown & Hsame).
  split; [apply Hmodel|]. split.
  - destruct (Hgrown "train.cover_score") as (extra & Heq & Hlen); [simpl; auto|].
    rewrite Heq, length_app, Hlen. reflexivity.
  - rewrite Hsame; [reflexivity|]. simpl. intuition discriminate.
Defined.

(** The coder phase of the toy instance over its two batches. *)
Lemma fit_coders_frame_witness :
  exists self' g' m',
    _fit_coders (T := Toy.transforms) (C := Toy.components)
      Toy.model0 0%nat fresh_metrics Toy.batches None 0
    = inr (self', g', m')
    /\ critic_params self' = [1%Q]
    /\ length (values m' "train.encoder_mse") = 2%nat
    /\ values m' "train.cover_score" = [].
Proof.
  destruct (fit_coders_ok (T := Toy.transforms) (C := Toy.components)
              Toy.batches None 0 Toy.model0 0%nat fresh_metrics)
    as [[[self' g'] m'] Hrun];
    [discriminate | apply (proj1 (proj2 phase_keys_fresh)) |].
  exists self', g', m'. split; [exact Hrun|].
  destruct (fit_coders_frame _ _ _ _ _ _ _ _ _ Hrun) as (Hmodel & _ & Hgrown & Hsame).
  split; [apply Hmodel|]. split.
  - destruct (Hgrown "train.encoder_mse") as (extra & Heq & Hlen); [simpl; auto|].
    rewrite Heq, length_app, Hlen. reflexivity.
  - rewrite Hsame; [reflexivity|]. simpl. intuition discriminate.
Defined.

(** The validation phase of the toy instance over its two batches. *)
Lemma validate_frame_witness :
  exists g' m',
    _validate (T := Toy.transforms) (C := Toy.components)
      Toy.model0 0%nat fresh_metrics Toy.batches None
    = inr (g', m')
    /\ length (values m' "val.psnr") = 2%nat
    /\ values m' "train.encoder_mse" = [].
Proof.
  destruct (validate_ok (T := Toy.transforms) (C := Toy.components)
              Toy.model0 Toy.batches None 0%nat fresh_metrics)
    as [[g' m'] Hrun]; [apply (proj1 (proj2 (proj2 phase_keys_fresh)))|].
  exists g', m'. split; [exact Hrun|].
  destruct (validate_frame _ _ _ _ _ _ _ Hrun) as (_ & Hgrown & Hsame).
  split.
  - destruct (Hgrown "val.psnr") as (extra & Heq & Hlen); [simpl; auto 12|].
    rewrite Heq, length_app, Hlen. reflexivity.
  - rewrite Hsame; [reflexivity|]. simpl. intuition discriminate.
Defined.

(** A batch of the toy instance with a rotation asked for at probability 0:
    the draw is 0, and no rotation is applied. *)
Lemma coder_batch_without_transform_witness :
  (0 <= fst (rand (Backend := Toy.backend) 0%nat))%Q
  /\ exists self' g' m' loss,
       fit_coders_batch (T := Toy.transforms) (C := Toy.components)
         Toy.model0 0%nat fresh_metrics (Some "rotate") 0 [1; 0]%Q
       = inr (self', g', m')
       /\ values m' "train.decoder_loss_t" = [loss]
       /\ values m' "train.decoder_loss_g" = [loss].
Proof.
  assert (Hdraw : (0 <= fst (rand (Backend := Toy.backend) 0%nat))%Q)
    by (vm_compute; discriminate).
  split; [exact Hdraw|].
  destruct (fit_coders_batch_ok (T := Toy.transforms) (C := Toy.components)
              Toy.model0 0%nat fresh_metrics (Some "rotate") 0 [1; 0]%Q)
    as (self' & g' & m' & Hrun & _);
    [discriminate | apply (proj1 (proj2 phase_keys_fresh)) |].
  destruct (coder_batch_without_transform _ _ _ _ _ _ _ _ _ Hdraw Hrun)
    as (loss & acc & Ht & Hg & _).
  exists self', g', m', loss. split; [exact Hrun|]. split; [exact Ht | exact Hg].
Defined.
